(** * EarningsHub scraper: a shallow embedding of the fetch orchestrator,
      the extraction helpers and the reconciliation layer.

    Python [str] values are modelled as [string] (sequences of 8-bit
    characters).  Character classes, case mapping and whitespace are those
    of Python on the ASCII range; a character outside ASCII is carried as
    its UTF-8 bytes, none of which is a space, a digit or a word character
    in this model (the em-dash placeholder is the three bytes of U+2014).

    A Python [float] is an IEEE 754 binary64 value ([spec_float]); the
    builtins that convert between text and floats are parameters.  The
    regular expressions run on a backtracking matcher with Python's
    ordered alternation and greedy repetition; [strptime] builds its
    pattern as CPython does, and [strftime] follows the C library of the
    platform, which is a parameter.  The browser, the disk and the
    storage engine are what the code sees of them: a page source per URL,
    whether a file can be written, and an affected row count per
    statement. *)

From Stdlib Require Import ZArith Ascii String List Bool.
From Stdlib Require Import Floats.SpecFloat.
From stdpp Require Import base option list gmap strings.

Set Warnings "-abstract-large-number".
Local Open Scope Z_scope.

(** ** Python string primitives *)
Module PyStr.

Definition code (c : ascii) : nat := nat_of_ascii c.

Definition between (lo hi : nat) (c : ascii) : bool :=
  (Nat.leb lo (code c)) && (Nat.leb (code c) hi).

(** [str.isspace] on the ASCII range: TAB..CR, FS..US and the blank. *)
Definition is_space (c : ascii) : bool := between 9 13 c || between 28 32 c.
Definition is_digit (c : ascii) : bool := between 48 57 c.
Definition is_upper (c : ascii) : bool := between 65 90 c.
Definition is_lower (c : ascii) : bool := between 97 122 c.
Definition is_alpha (c : ascii) : bool := is_upper c || is_lower c.
(** [\w] of the [re] module. *)
Definition is_word (c : ascii) : bool :=
  is_alpha c || is_digit c || Ascii.eqb c "_".

Definition lower_c (c : ascii) : ascii :=
  if is_upper c then ascii_of_nat (code c + 32) else c.
Definition upper_c (c : ascii) : ascii :=
  if is_lower c then ascii_of_nat (code c - 32) else c.

Fixpoint map_s (f : ascii -> ascii) (s : string) : string :=
  match s with
  | EmptyString => EmptyString
  | String c t => String (f c) (map_s f t)
  end.

Definition lower : string -> string := map_s lower_c.
Definition upper : string -> string := map_s upper_c.

Fixpoint lstrip (s : string) : string :=
  match s with
  | String c t => if is_space c then lstrip t else s
  | EmptyString => EmptyString
  end.
Definition rstrip (s : string) : string := String.rev (lstrip (String.rev s)).
Definition strip (s : string) : string := rstrip (lstrip s).

Fixpoint startswith (p s : string) : bool :=
  match p, s with
  | EmptyString, _ => true
  | String a p', String b s' => Ascii.eqb a b && startswith p' s'
  | String _ _, EmptyString => false
  end.

Definition endswith (suf s : string) : bool :=
  startswith (String.rev suf) (String.rev s).

(** [sub in s] *)
Fixpoint contains (sub s : string) : bool :=
  startswith sub s ||
  match s with
  | EmptyString => false
  | String _ t => contains sub t
  end.

Fixpoint take (n : nat) (s : string) : string :=
  match n, s with
  | S k, String c t => String c (take k t)
  | _, _ => EmptyString
  end.

(** [s[:-n]] for [0 < n]. *)
Definition drop_last (n : nat) (s : string) : string :=
  take (String.length s - n) s.

(** [s.replace(old, new)] for a non-empty [old]: the non-overlapping
    occurrences, leftmost first.  [skip] counts the characters of an
    occurrence still to be passed over. *)
Fixpoint replace_go (old new : string) (skip : nat) (s : string) : string :=
  match s with
  | EmptyString => EmptyString
  | String c t =>
      match skip with
      | S k => replace_go old new k t
      | O =>
          if startswith old s
          then new +:+ replace_go old new (String.length old - 1) t
          else String c (replace_go old new 0 t)
      end
  end.
Definition replace (old new s : string) : string := replace_go old new 0 s.

(** [s.split()]: the maximal runs of non-space characters. *)
Fixpoint split_go (cur : option string) (s : string) : list string :=
  match s with
  | EmptyString => option_list (String.rev <$> cur)
  | String c t =>
      if is_space c
      then option_list (String.rev <$> cur) ++ split_go None t
      else split_go (Some (String c (default EmptyString cur))) t
  end.
Definition split (s : string) : list string := split_go None s.

Fixpoint join (sep : string) (l : list string) : string :=
  match l with
  | [] => EmptyString
  | [x] => x
  | x :: l' => x +:+ sep +:+ join sep l'
  end.

Definition is_empty (s : string) : bool :=
  match s with EmptyString => true | _ => false end.

(** Truthiness of an [Optional[str]]: [None] and [""] are falsy. *)
Definition truthy (o : option string) : bool :=
  match o with
  | Some s => negb (is_empty s)
  | None => false
  end.

(** [a or b] on optional strings. *)
Definition or_else (a b : option string) : option string :=
  if truthy a then a else b.

(** [x or ""] *)
Definition or_empty (a : option string) : string :=
  if truthy a then default EmptyString a else EmptyString.

(** [x or None] *)
Definition or_none (a : option string) : option string :=
  if truthy a then a else None.

Definition mem (s : string) (l : list string) : bool :=
  existsb (String.eqb s) l.

(** [int(s)] on a string of ASCII digits. *)
Fixpoint int_go (acc : nat) (s : string) : nat :=
  match s with
  | EmptyString => acc
  | String c t => int_go (10 * acc + (code c - 48)) t
  end.
Definition int_of_digits (s : string) : nat := int_go 0 s.

Definition digit_c (n : nat) : ascii := ascii_of_nat (48 + n mod 10).

(** Decimal rendering of [n] on exactly [w] digits (the low ones). *)
Fixpoint zpad (w n : nat) : string :=
  match w with
  | O => EmptyString
  | S w' => zpad w' (n / 10) +:+ String (digit_c n) EmptyString
  end.

(** Decimal rendering without padding, at most [fuel] digits. *)
Fixpoint show_nat_go (fuel n : nat) (acc : string) : string :=
  match fuel with
  | O => acc
  | S f =>
      let acc' := String (digit_c n) acc in
      if Nat.ltb n 10 then acc' else show_nat_go f (n / 10) acc'
  end.
Definition show_nat (n : nat) : string := show_nat_go (S n) n EmptyString.

(** Zero-filled to at least [w] digits. *)
Definition zfill (w n : nat) : string :=
  let s := show_nat n in
  if Nat.ltb (String.length s) w then zpad w n else s.

End PyStr.

(** ** A backtracking matcher for the [re] patterns of the helpers.

  Alternation is ordered and repetition is greedy, as in Python's engine;
  the continuation [k] is what remains of the pattern, so a failure of the
  continuation makes the matcher try the next choice. *)
Module Re.
Import PyStr.

Inductive re : Type :=
| Eps
| Chr (p : ascii -> bool)
| Cat (r1 r2 : re)
| Alt (r1 r2 : re)
| Star (r : re)
| Grp (n : nat) (r : re)
| Bnd
| Bos
| Eos.

Record mstate : Type := MState {
  prev : option ascii;
  rest : string;
  caps : list (nat * string)
}.

Definition word_opt (o : option ascii) : bool :=
  match o with Some c => is_word c | None => false end.

Definition head_s (s : string) : option ascii :=
  match s with String c _ => Some c | EmptyString => None end.

Definition at_boundary (s : mstate) : bool :=
  xorb (word_opt (prev s)) (word_opt (head_s (rest s))).

(** [$] without MULTILINE: the end, or just before a final newline. *)
Definition at_end (s : string) : bool :=
  match s with
  | EmptyString => true
  | String c EmptyString => Ascii.eqb c "010"
  | _ => false
  end.

Fixpoint run (r : re) (k : mstate -> option mstate) (s : mstate)
  {struct r} : option mstate :=
  match r with
  | Eps => k s
  | Chr p =>
      match rest s with
      | String c t => if p c then k (MState (Some c) t (caps s)) else None
      | EmptyString => None
      end
  | Cat r1 r2 => run r1 (run r2 k) s
  | Alt r1 r2 =>
      match run r1 k s with
      | Some m => Some m
      | None => run r2 k s
      end
  | Star r1 =>
      (fix loop (n : nat) (s0 : mstate) {struct n} : option mstate :=
         match n with
         | O => k s0
         | S n' =>
             match run r1 (fun s1 =>
                             if Nat.ltb (String.length (rest s1))
                                        (String.length (rest s0))
                             then loop n' s1 else None) s0 with
             | Some m => Some m
             | None => k s0
             end
         end) (String.length (rest s)) s
  | Grp n r1 =>
      run r1 (fun s1 =>
                k (MState (prev s1) (rest s1)
                     ((n, take (String.length (rest s) - String.length (rest s1))
                            (rest s)) :: caps s1))) s
  | Bnd => if at_boundary s then k s else None
  | Bos => match prev s with None => k s | Some _ => None end
  | Eos => if at_end (rest s) then k s else None
  end.

(** [re.match(r, s)] *)
Definition rmatch (r : re) (s : string) : option mstate :=
  run r Some (MState None s []).

(** [re.search(r, s)]: the leftmost start that matches. *)
Fixpoint search_from (r : re) (p : option ascii) (s : string) : option mstate :=
  match run r Some (MState p s []) with
  | Some m => Some m
  | None =>
      match s with
      | EmptyString => None
      | String c t => search_from r (Some c) t
      end
  end.
Definition search (r : re) (s : string) : option mstate :=
  search_from r None s.

Fixpoint assoc (n : nat) (l : list (nat * string)) : option string :=
  match l with
  | [] => None
  | (m, v) :: l' => if Nat.eqb n m then Some v else assoc n l'
  end.

(** [m.group(n)] *)
Definition group (n : nat) (m : mstate) : option string := assoc n (caps m).

(** Pattern builders.  [ic] is the IGNORECASE flag. *)
Definition lit (ic : bool) (c : ascii) : re :=
  Chr (fun x => if ic then Ascii.eqb (lower_c x) (lower_c c) else Ascii.eqb x c).

Fixpoint lits (ic : bool) (s : string) : re :=
  match s with
  | EmptyString => Eps
  | String c EmptyString => lit ic c
  | String c t => Cat (lit ic c) (lits ic t)
  end.

Definition rng (a b : ascii) : re := Chr (between (code a) (code b)).
Definition digit : re := Chr is_digit.
Definition space : re := Chr is_space.
Definition plus (r : re) : re := Cat r (Star r).
Definition opt (r : re) : re := Alt r Eps.

Fixpoint alts (l : list re) : re :=
  match l with
  | [] => Chr (fun _ => false)
  | [r] => r
  | r :: l' => Alt r (alts l')
  end.

Fixpoint cats (l : list re) : re :=
  match l with
  | [] => Eps
  | [r] => r
  | r :: l' => Cat r (cats l')
  end.

End Re.

(** ** services/parser/earningshub/eh_helper.py *)
Module EhHelper.
Import PyStr Re.

Definition NO_DATA : list string := ["-"; "--"; "—"; "N/A"; "NA"; "n/a"; ""].

(** The dict returned by [_parse_one_value]. *)
Record token : Type := Token {
  value : option string;
  unit_ : option string;
  is_est : option bool
}.

(** [\b(est|estimate)\b] and [\b(actual)\b], both with [re.I]. *)
Definition re_est : re :=
  cats [Bnd; Grp 1 (Alt (lits true "est") (lits true "estimate")); Bnd].
Definition re_actual : re :=
  cats [Bnd; Grp 1 (lits true "actual"); Bnd].

(** [^(-?[\d.]+)\s*([A-Za-z]?)$] *)
Definition re_value : re :=
  cats [Bos;
        Grp 1 (Cat (opt (lit false "-"))
                   (plus (Chr (fun c => is_digit c || Ascii.eqb c "."))));
        Star space;
        Grp 2 (opt (Chr is_alpha));
        Eos].

Definition found (m : option mstate) : bool :=
  match m with Some _ => true | None => false end.

Definition strip_markers (s : string) : string :=
  strip (replace "*" "" (replace "," "" (replace "$" ""
    (replace "actual" "" (replace "est" ""
      (replace "(actual)" "" (replace "(est)" "" s))))))).

Definition _parse_one_value (raw : option string) : token :=
  if negb (truthy raw) then Token None None None
  else
    let s := strip (default EmptyString raw) in
    if mem s NO_DATA then Token None None None
    else
      let flag :=
        if found (search re_est s) then Some true
        else if found (search re_actual s) then Some false
        else None in
      let s := strip_markers s in
      match rmatch re_value s with
      | None => Token (or_none (Some s)) None flag
      | Some m =>
          Token (group 1 m) (or_none (upper <$> group 2 m)) flag
      end.

Definition clean_text (s : option string) : option string :=
  if negb (truthy s) then None
  else
    let t := strip (join " " (split (default EmptyString s))) in
    if mem t ["-"; "--"; "—"] then None else Some t.

Definition four_digits : re := cats [digit; digit; digit; digit].

Definition _QUARTER_PATTERNS : list re :=
  [ Grp 1 (cats [lit true "Q"; rng "1" "4"; plus space; four_digits]);
    Grp 1 (cats [lits true "FY"; plus space; four_digits]);
    Grp 1 (cats [lit true "H"; rng "1" "2"; plus space; four_digits]) ].

Fixpoint first_search (pats : list re) (s : string) : option mstate :=
  match pats with
  | [] => None
  | p :: ps =>
      match search p s with
      | Some m => Some m
      | None => first_search ps s
      end
  end.

Definition normalize_quarter (raw : option string) : option string :=
  let raw := clean_text raw in
  if negb (truthy raw) then None
  else
    match first_search _QUARTER_PATTERNS (default EmptyString raw) with
    | Some m => replace "  " " " <$> (upper <$> group 1 m)
    | None => raw
    end.

(** *** [datetime.strptime], for the directives the helpers use.

    The pattern is the one CPython's [_strptime.TimeRE] builds in the C
    locale: a directive becomes a named group (numbered here by the code
    of its letter), a run of blanks becomes [\s+], any other character
    stands for itself, and the whole is compiled with IGNORECASE. *)
Record datetime : Type := DateTime {
  year : nat; month : nat; day : nat; hour : nat; minute : nat
}.

Definition a_weekday : list string :=
  ["mon"; "tue"; "wed"; "thu"; "fri"; "sat"; "sun"].
Definition a_month : list string :=
  ["jan"; "feb"; "mar"; "apr"; "may"; "jun";
   "jul"; "aug"; "sep"; "oct"; "nov"; "dec"].
Definition am_pm : list string := ["am"; "pm"].

Definition grp_of (d : ascii) : nat := code d.

Definition seqToRE (names : list string) (d : ascii) : re :=
  Grp (grp_of d) (alts (map (lits true) names)).

Definition directive (d : ascii) : option re :=
  if Ascii.eqb d "a" then Some (seqToRE a_weekday d)
  else if Ascii.eqb d "b" then Some (seqToRE a_month d)
  else if Ascii.eqb d "p" then Some (seqToRE am_pm d)
  else if Ascii.eqb d "d" then
    (* 3[0-1]|[1-2]\d|0[1-9]|[1-9]| [1-9] *)
    Some (Grp (grp_of d)
            (alts [Cat (lit true "3") (rng "0" "1");
                   Cat (rng "1" "2") digit;
                   Cat (lit true "0") (rng "1" "9");
                   rng "1" "9";
                   Cat (lit true " ") (rng "1" "9")]))
  else if Ascii.eqb d "Y" then Some (Grp (grp_of d) four_digits)
  else if Ascii.eqb d "I" then
    (* 1[0-2]|0[1-9]|[1-9] *)
    Some (Grp (grp_of d)
            (alts [Cat (lit true "1") (rng "0" "2");
                   Cat (lit true "0") (rng "1" "9");
                   rng "1" "9"]))
  else if Ascii.eqb d "M" then
    (* [0-5]\d|\d *)
    Some (Grp (grp_of d) (alts [Cat (rng "0" "5") digit; digit]))
  else None.

(** [ws] tells that the previous format character was a blank, whose run
    already produced its [\s+]. *)
Fixpoint pattern_go (ws : bool) (fmt : string) : option (list re) :=
  match fmt with
  | EmptyString => Some []
  | String c t =>
      if Ascii.eqb c "%" then
        match t with
        | String d t' =>
            match directive d, pattern_go false t' with
            | Some r, Some rs => Some (r :: rs)
            | _, _ => None
            end
        | EmptyString => None
        end
      else if is_space c then
        match pattern_go true t with
        | Some rs => Some (if ws then rs else plus space :: rs)
        | None => None
        end
      else
        match pattern_go false t with
        | Some rs => Some (lit true c :: rs)
        | None => None
        end
  end.
Definition pattern (fmt : string) : option re := cats <$> pattern_go false fmt.

Fixpoint index_of (x : string) (l : list string) : option nat :=
  match l with
  | [] => None
  | y :: l' => if String.eqb x y then Some O else S <$> index_of x l'
  end.

Definition is_leap (y : nat) : bool :=
  (Nat.eqb (y mod 4) 0 && negb (Nat.eqb (y mod 100) 0)) || Nat.eqb (y mod 400) 0.

Definition days_in_month (y m : nat) : nat :=
  match m with
  | 2 => if is_leap y then 29 else 28
  | 4 | 6 | 9 | 11 => 30
  | _ => 31
  end%nat.

(** The check of [datetime.date(year, month, day)]. *)
Definition valid_date (y m d : nat) : bool :=
  Nat.leb 1 y && Nat.leb y 9999 && Nat.leb 1 m && Nat.leb m 12 &&
  Nat.leb 1 d && Nat.leb d (days_in_month y m).

Definition int (s : string) : nat := int_of_digits (strip s).

Definition group_of (d : ascii) (m : mstate) : option string :=
  group (grp_of d) m.

(** [None] stands for the [ValueError] of a failed parse. *)
Definition strptime (data fmt : string) : option datetime :=
  match pattern fmt with
  | None => None
  | Some r =>
      match rmatch r data with
      | None => None
      | Some m =>
          if negb (is_empty (rest m)) then None
          else
            let y := default 1900%nat (int <$> group_of "Y" m) in
            let mo :=
              match group_of "b" m with
              | Some b => S <$> index_of (lower b) a_month
              | None => Some 1%nat
              end in
            let d := default 1%nat (int <$> group_of "d" m) in
            let ampm := lower (default EmptyString (group_of "p" m)) in
            let h :=
              match int <$> group_of "I" m with
              | None => 0%nat
              | Some h0 =>
                  if is_empty ampm || String.eqb ampm "am"
                  then (if Nat.eqb h0 12 then 0 else h0)%nat
                  else if String.eqb ampm "pm"
                  then (if Nat.eqb h0 12 then h0 else h0 + 12)%nat
                  else h0
              end in
            let mi := default 0%nat (int <$> group_of "M" m) in
            match mo with
            | Some mo =>
                if valid_date y mo d then Some (DateTime y mo d h mi) else None
            | None => None
            end
      end
  end.

(** *** [datetime.strftime].  The flag between [%] and the directive is
    the C library's: the Microsoft runtime reads [#] as "no leading
    zeros" and rejects [-] (CPython raises [ValueError]); glibc reads [-]
    as "no padding" and [#] as "opposite case", which leaves a number as
    it is. *)
Inductive platform : Type := Msvcrt | Glibc.

Inductive fstate : Type := Plain | Pct | Flag (f : ascii).

Definition hour12 (h : nat) : nat :=
  (if Nat.eqb (h mod 12) 0 then 12 else h mod 12)%nat.

(** The minimal width and the number a numeric directive prints.  [%Y]
    is zero-filled to four digits by the Microsoft runtime and printed
    as it is by glibc (CPython up to 3.12 hands the format to the C
    library unchanged). *)
Definition numeric_field (pf : platform) (d : ascii) (dt : datetime)
  : option (nat * nat) :=
  if Ascii.eqb d "m" then Some (2, month dt)%nat
  else if Ascii.eqb d "d" then Some (2, day dt)%nat
  else if Ascii.eqb d "Y" then
    Some (match pf with Msvcrt => 4 | Glibc => 1 end, year dt)%nat
  else if Ascii.eqb d "I" then Some (2, hour12 (hour dt))%nat
  else if Ascii.eqb d "M" then Some (2, minute dt)%nat
  else None.

Definition ampm_of (dt : datetime) : string :=
  if Nat.ltb (hour dt) 12 then "AM" else "PM".

Definition render (pf : platform) (flag : option ascii) (d : ascii)
    (dt : datetime) : option string :=
  match numeric_field pf d dt with
  | Some (w, n) =>
      match flag, pf with
      | None, _ => Some (zfill w n)
      | Some f, Msvcrt =>
          if Ascii.eqb f "#" then Some (show_nat n) else None
      | Some f, Glibc =>
          if Ascii.eqb f "-" then Some (show_nat n) else Some (zfill w n)
      end
  | None =>
      if Ascii.eqb d "p" then
        match flag, pf with
        | None, _ => Some (ampm_of dt)
        | Some f, Msvcrt =>
            if Ascii.eqb f "#" then Some (ampm_of dt) else None
        | Some f, Glibc =>
            if Ascii.eqb f "#" then Some (lower (ampm_of dt))
            else Some (ampm_of dt)
        end
      else None
  end.

Fixpoint strftime_go (pf : platform) (st : fstate) (fmt : string)
    (dt : datetime) : option string :=
  match fmt with
  | EmptyString => match st with Plain => Some EmptyString | _ => None end
  | String c t =>
      match st with
      | Plain =>
          if Ascii.eqb c "%" then strftime_go pf Pct t dt
          else String c <$> strftime_go pf Plain t dt
      | Pct =>
          if Ascii.eqb c "#" || Ascii.eqb c "-" then strftime_go pf (Flag c) t dt
          else
            match render pf None c dt, strftime_go pf Plain t dt with
            | Some a, Some b => Some (a +:+ b)
            | _, _ => None
            end
      | Flag f =>
          match render pf (Some f) c dt, strftime_go pf Plain t dt with
          | Some a, Some b => Some (a +:+ b)
          | _, _ => None
          end
      end
  end.
Definition strftime (pf : platform) (fmt : string) (dt : datetime)
  : option string := strftime_go pf Plain fmt dt.

Definition _fmt_time_portable (pf : platform) (dt : datetime) : option string :=
  match strftime pf "%#I:%M %p" dt with
  | Some s => Some s
  | None => strftime pf "%-I:%M %p" dt
  end.

Definition strip_suffix (cleaned suffix : string) : string :=
  if endswith suffix (upper cleaned)
  then strip (drop_last (String.length suffix) cleaned)
  else cleaned.

Definition strip_suffixes (raw_text : string) : string :=
  fold_left strip_suffix ["ESTIMATE"; "EST"; "ACTUAL"] (strip raw_text).

(** Each [try] block: any [ValueError] inside it falls to what follows. *)
Definition try_full (pf : platform) (cleaned : string)
  : option (string * string) :=
  match strptime cleaned "%a, %b %d, %Y, %I:%M %p" with
  | Some dt =>
      match strftime pf "%m/%d/%Y" dt, _fmt_time_portable pf dt with
      | Some d, Some t => Some (d, t)
      | _, _ => None
      end
  | None => None
  end.

Definition try_date (pf : platform) (cleaned : string) : option string :=
  match strptime cleaned "%b %d, %Y" with
  | Some dt => strftime pf "%m/%d/%Y" dt
  | None => None
  end.

Definition parse_date_time (pf : platform) (raw_text : option string)
  : option string * option string :=
  let raw_text := clean_text raw_text in
  if negb (truthy raw_text) then (None, None)
  else
    let cleaned := strip_suffixes (default EmptyString raw_text) in
    match try_full pf cleaned with
    | Some (d, t) => (Some d, Some t)
    | None =>
        match try_date pf cleaned with
        | Some d => (Some d, None)
        | None => (Some cleaned, None)
        end
    end.

(** *** Estimate / actual disambiguation *)
Record slot : Type := Slot { svalue : option string; sunit : option string }.
Record est_act : Type := EstAct { est : slot; act : slot }.

Definition slot_of (t : token) : slot := Slot (value t) (unit_ t).
Definition empty_slot : slot := Slot None None.

(** The two parsed tokens are distinct objects; [est] and [act] are
    references to one of them (or [None]), compared with [is]. *)
Inductive tokref : Type := RefA | RefB.

Definition is_ref (r : tokref) (o : option tokref) : bool :=
  match o, r with
  | Some RefA, RefA | Some RefB, RefB => true
  | _, _ => false
  end.

Definition is_true (o : option bool) : bool :=
  match o with Some true => true | _ => false end.
Definition is_false (o : option bool) : bool :=
  match o with Some false => true | _ => false end.

Definition assign (a b : token) : tokref * tokref :=
  if is_true (is_est a) || is_true (is_est b) ||
     is_false (is_est a) || is_false (is_est b)
  then
    let est0 := if is_true (is_est a) then Some RefA
                else if is_true (is_est b) then Some RefB else None in
    let act0 := if is_false (is_est a) then Some RefA
                else if is_false (is_est b) then Some RefB else None in
    let est1 := match est0 with
                | Some r => r
                | None => if is_ref RefA act0 then RefB else RefA
                end in
    let act1 := match act0 with
                | Some r => r
                | None => if is_ref RefB (Some est1) then RefA else RefB
                end in
    (est1, act1)
  else (RefA, RefB).

Definition deref (a b : token) (r : tokref) : token :=
  match r with RefA => a | RefB => b end.

Definition parse_est_act (values : list string) : est_act :=
  match firstn 2 values with
  | [] => EstAct empty_slot empty_slot
  | [v] =>
      let t := _parse_one_value (Some v) in
      if is_true (is_est t)
      then EstAct (slot_of t) empty_slot
      else EstAct empty_slot (slot_of t)
  | va :: vb :: _ =>
      let a := _parse_one_value (Some va) in
      let b := _parse_one_value (Some vb) in
      let '(e, c) := assign a b in
      EstAct (slot_of (deref a b e)) (slot_of (deref a b c))
  end.

(** *** Beat / Miss.  A Python [float] is an IEEE 754 binary64 value. *)
Definition float : Type := spec_float.

(** [x >= y] *)
Definition float_ge (x y : float) : bool := SFleb y x.
Definition float_lt (x y : float) : bool := SFltb x y.
Definition zero : float := S754_zero false.

(** The binary64 value nearest to [m * 2^e]. *)
Definition float_of (m e : Z) : float := binary_normalize 53 1024 m e false.

(** The builtins that turn text into a float and back: [float(s)] with
    [None] for its [ValueError], and the format spec [.2f]. *)
Record builtins : Type := Builtins {
  float_of_str : string -> option float;
  format_2f : float -> string
}.

(** What reaches [determine_status] as [actual] and [estimate]: a float
    by the signature, the parsed text at the call sites. *)
Inductive pynum : Type := PyFloat (f : float) | PyText (s : string).

Section WithBuiltins.
Variable B : builtins.

Definition py_float (x : pynum) : option float :=
  match x with
  | PyFloat f => Some f
  | PyText s => float_of_str B s
  end.

Definition determine_status (percentage : option float)
    (actual estimate : option pynum) : option string :=
  match percentage with
  | Some p => if float_ge p zero then Some "Beat" else Some "Miss"
  | None =>
      match actual, estimate with
      | Some a, Some e =>
          match py_float a, py_float e with
          | Some fa, Some fe =>
              if float_ge fa fe then Some "Beat" else Some "Miss"
          | _, _ => None
          end
      | _, _ => None
      end
  end.

Definition parse_percent (s : option string) : option float :=
  if negb (truthy s) then None
  else
    float_of_str B
      (replace "," "" (replace "%" "" (strip (default EmptyString s)))).
End WithBuiltins.

End EhHelper.

(** ** Python containers shared by the modules below *)
Module PyData.

(** Keep the first element for each key, in order: what
    [dict.fromkeys] does to keys and what pandas'
    [drop_duplicates(subset, keep="first")] does to rows. *)
Fixpoint keep_first_go {A K : Type} `{Countable K} (key : A -> K)
    (seen : gset K) (l : list A) : list A :=
  match l with
  | [] => []
  | x :: t =>
      if decide (key x ∈ seen) then keep_first_go key seen t
      else x :: keep_first_go key ({[key x]} ∪ seen) t
  end.

Definition keep_first {A K : Type} `{Countable K} (key : A -> K)
    (l : list A) : list A := keep_first_go key ∅ l.

End PyData.

(** ** services/parser/earningshub/history_parser.py *)
Module HistoryParser.
Import PyStr EhHelper.

(** One parsed history row, as the dict [_transform_row] returns. *)
Record history_row : Type := HistoryRow {
  ticker : string;
  quarter : string;
  date : string;
  rev_est : string;
  rev_est_unit : string;
  rev_act : string;
  rev_act_unit : string;
  rev_pct : string;
  rev_status : string;
  eps_est : string;
  eps_act : string;
  eps_pct : string;
  eps_status : string
}.

(** The table [_find_earnings_table] located: the stripped text of each
    of its [th] elements, and for each [tr] the stripped text of its
    cells. *)
Record table : Type := Table {
  th_texts : list string;
  tr_cells : list (list string)
}.

Definition _normalize_header (h : string) : string :=
  replace "%" "pct" (replace "." "" (replace " " "_" (lower (strip h)))).

Definition _parse_headers (t : table) : list string :=
  map _normalize_header (th_texts t).

Fixpoint row_fill (i : nat) (headers cells : list string)
    (row : gmap string (option string)) : gmap string (option string) :=
  match headers with
  | [] => row
  | key :: hs =>
      let v := match cells !! i with
               | Some txt => clean_text (Some txt)
               | None => None
               end in
      row_fill (S i) hs cells (<[key := v]> row)
  end.

Definition _row_to_map (headers cells : list string)
  : gmap string (option string) := row_fill 0 headers cells ∅.

(** [row.get(k)] *)
Definition get (row : gmap string (option string)) (k : string)
  : option string := default None (row !! k).

(** [[v for v in [x, y] if v]] *)
Definition truthy_values (l : list (option string)) : list string :=
  omap (fun o => if truthy o then o else None) l.

(** A value that [any] counts as missing: [None] or the empty string. *)
Definition absent (o : option string) : Prop := truthy o = false.

(** At least one of the six deciding fields of a record is filled. *)
Definition populated (r : history_row) : Prop :=
  quarter r <> "" \/ date r <> "" \/ rev_est r <> "" \/ rev_act r <> "" \/
  eps_est r <> "" \/ eps_act r <> "".

(** Of the two cells [ke] and [ka] of a row exactly one is filled, with
    the text [v]. *)
Definition lone (row : gmap string (option string)) (ke ka v : string) : Prop :=
  truthy (Some v) = true /\
  ((get row ke = Some v /\ truthy (get row ka) = false) \/
   (truthy (get row ke) = false /\ get row ka = Some v)).

Section WithBuiltins.
Variable B : builtins.
Variable pf : platform.

Definition _transform_row (tk : string)
    (row : gmap string (option string)) : option history_row :=
  let quarter_raw := or_none (or_else (get row "earnings") (get row "quarter")) in
  let quarter := normalize_quarter quarter_raw in
  let date_raw := or_else (get row "release_date") (get row "date") in
  let '(date, time) := parse_date_time pf date_raw in
  let rev_parsed :=
    parse_est_act (truthy_values [get row "rev_est"; get row "rev_act"]) in
  let rev_est := svalue (est rev_parsed) in
  let rev_est_unit := sunit (est rev_parsed) in
  let rev_act := svalue (act rev_parsed) in
  let rev_act_unit := sunit (act rev_parsed) in
  let eps_parsed :=
    parse_est_act (truthy_values [get row "eps_est"; get row "eps_act"]) in
  let eps_est := svalue (est eps_parsed) in
  let eps_act := svalue (act eps_parsed) in
  let rev_pct := parse_percent B (or_else (get row "rev_surp") (get row "rev_pct")) in
  let eps_pct := parse_percent B (or_else (get row "eps_surp") (get row "eps_pct")) in
  let rev_status := determine_status B rev_pct (PyText <$> rev_act) (PyText <$> rev_est) in
  let eps_status := determine_status B eps_pct (PyText <$> eps_act) (PyText <$> eps_est) in
  if negb (existsb truthy [quarter; date; rev_est; rev_act; eps_est; eps_act])
  then None
  else Some {|
    ticker := tk;
    quarter := or_empty quarter;
    date := or_empty date;
    rev_est := or_empty rev_est;
    rev_est_unit := or_empty rev_est_unit;
    rev_act := or_empty rev_act;
    rev_act_unit := or_empty rev_act_unit;
    rev_pct := match rev_pct with Some p => format_2f B p | None => "" end;
    rev_status := or_empty rev_status;
    eps_est := or_empty eps_est;
    eps_act := or_empty eps_act;
    eps_pct := match eps_pct with Some p => format_2f B p | None => "" end;
    eps_status := or_empty eps_status
  |}.

(** The six values whose truthiness decides whether a row is kept, as
    [_transform_row] computes them. *)
Definition row_quarter (row : gmap string (option string)) : option string :=
  normalize_quarter (or_none (or_else (get row "earnings") (get row "quarter"))).

Definition row_date (row : gmap string (option string)) : option string :=
  fst (parse_date_time pf (or_else (get row "release_date") (get row "date"))).

Definition row_rev (row : gmap string (option string)) : est_act :=
  parse_est_act (truthy_values [get row "rev_est"; get row "rev_act"]).

Definition row_eps (row : gmap string (option string)) : est_act :=
  parse_est_act (truthy_values [get row "eps_est"; get row "eps_act"]).

Definition six_fields (row : gmap string (option string)) : list (option string) :=
  [row_quarter row; row_date row;
   svalue (est (row_rev row)); svalue (act (row_rev row));
   svalue (est (row_eps row)); svalue (act (row_eps row))].

(** The loop body of [parse_rows] for one [tr]; [[]] for a row that
    adds nothing. *)
Definition parse_tr (tk : string) (headers cells : list string)
  : list history_row :=
  match cells with
  | [] => []
  | _ => option_list (_transform_row tk (_row_to_map headers cells))
  end.

(** [None] is the page without a table. *)
Definition parse_rows (tk : string) (t : option table) : list history_row :=
  match t with
  | None => []
  | Some t =>
      let headers := _parse_headers t in
      match headers with
      | [] => []
      | _ => flat_map (parse_tr tk headers) (skipn 1 (tr_cells t))
      end
  end.
End WithBuiltins.

End HistoryParser.

(** ** services/parser/earningshub/controller.py *)
Module Controller.
Import HistoryParser.

Definition dedup_key (r : history_row) : string * string := (quarter r, date r).

Definition parse_earnings (B : EhHelper.builtins) (pf : EhHelper.platform)
    (t : option table) (tk : string) : list history_row :=
  PyData.keep_first dedup_key (parse_rows B pf tk t).

End Controller.

(** ** services/scraper/earningshub/scraper.py *)
Module Scraper.
Import PyStr.

Definition VARIANT_OVERVIEW : string := "overview".
Definition VARIANT_FULL : string := "full".
Definition VARIANT_EARNINGS : string := "earnings".
Definition VARIANT_ANALYST : string := "analyst".
Definition ALLOWED : list string := [VARIANT_OVERVIEW; VARIANT_FULL].

Definition _no_results (html : string) : bool :=
  contains "symbol not found" (lower html).

(** What the orchestrator does to the outside, in order. *)
Inductive event : Type :=
| OpenSession
| Navigate (url : string)
| WriteFile (path html : string)
| CloseSession.

(** The browser as the orchestrator meets it: whether a driver can be
    created, whether a navigation completes (otherwise it raises), and
    the page source captured at a URL once the step there has run. *)
Record browser : Type := Browser {
  driver_ok : bool;
  loads : string -> bool;
  page_source : string -> string
}.

Inductive error : Type := ValueError | WebDriverException | OSError.

Inductive outcome (A : Type) : Type :=
| Ok (a : A)
| Raise (e : error).
Arguments Ok {A} a.
Arguments Raise {A} e.

(** The cache directory: path to content. *)
Abbreviation files := (gmap string string).

(** A computation reads and updates the cache directory, may raise, and
    leaves the events it caused. *)
Definition M (A : Type) : Type := files -> outcome A * files * list event.

#[global] Instance M_ret : MRet M := fun A a fs => (Ok a, fs, []).
#[global] Instance M_bind : MBind M := fun A B f m fs =>
  match m fs with
  | (Ok a, fs1, evs1) =>
      let '(r, fs2, evs2) := f a fs1 in (r, fs2, evs1 ++ evs2)
  | (Raise e, fs1, evs1) => (Raise e, fs1, evs1)
  end.

Definition raise {A : Type} (e : error) : M A := fun fs => (Raise e, fs, []).
Definition emit (ev : event) : M () := fun fs => (Ok (), fs, [ev]).

(** [try: body finally: cleanup] *)
Definition finally {A : Type} (body : M A) (cleanup : M ()) : M A :=
  fun fs =>
    let '(r, fs1, evs1) := body fs in
    let '(_, fs2, evs2) := cleanup fs1 in
    (r, fs2, evs1 ++ evs2).

Fixpoint rstrip_slash_go (s : string) : string :=
  match s with
  | String c t => if Ascii.eqb c "/" then rstrip_slash_go t else s
  | EmptyString => EmptyString
  end.
(** [url.rstrip("/")] *)
Definition rstrip_slash (s : string) : string :=
  String.rev (rstrip_slash_go (String.rev s)).

Definition analysts_url (url : string) : string :=
  rstrip_slash url +:+ "/analysts".
Definition earnings_url (url : string) : string :=
  rstrip_slash url +:+ "/earnings".

(** The URLs navigated to and the paths written, read off the events. *)
Definition navs (evs : list event) : list string :=
  omap (fun ev => match ev with Navigate u => Some u | _ => None end) evs.
Definition written (evs : list event) : list string :=
  omap (fun ev => match ev with WriteFile p _ => Some p | _ => None end) evs.

(** The three fetch steps: the variant a step persists and the page it
    captures. *)
Definition steps (url : string) : list (string * string) :=
  [(VARIANT_OVERVIEW, url);
   (VARIANT_ANALYST, analysts_url url);
   (VARIANT_EARNINGS, earnings_url url)].

Section WithCache.
Variable br : browser.
Variable cache_dir : string.
(** Whether [Path.write_text] can open a path for writing.  Where it
    cannot it raises [OSError] and writes nothing: so for a path whose
    directory does not exist ([FileNotFoundError]), as with a ticker that
    has a [/] in it, [cache_dir] being the only directory created. *)
Variable writable : string -> bool.

(** The path as text, for a relative file name under [cache_dir]. *)
Definition _friendly_path (ticker variant : string) : string :=
  cache_dir +:+ "/" +:+ upper (strip ticker) +:+ "_" +:+ variant +:+ ".html".

Definition _exists (ticker variant : string) : M bool :=
  fun fs =>
    (Ok (bool_decide (is_Some (fs !! _friendly_path ticker variant))), fs, []).

Definition _write (ticker variant html : string) : M string :=
  let p := _friendly_path ticker variant in
  if writable p
  then fun fs => (Ok p, <[p := html]> fs, [WriteFile p html])
  else raise OSError.

Definition _create_driver : M () :=
  if driver_ok br then emit OpenSession else raise WebDriverException.

Definition _navigate (url : string) : M () :=
  emit (Navigate url) ;;
  if loads br url then mret () else raise WebDriverException.

(** Capture the page at [url] and persist it unless it reports that
    the symbol was not found. *)
Definition capture (ticker variant url : string)
    (results : gmap string string) : M (gmap string string) :=
  let html := page_source br url in
  if negb (_no_results html)
  then p ← _write ticker variant html; mret (<[variant := p]> results)
  else mret results.

(** [results.setdefault(k, v)] *)
Definition setdefault (k v : string) (results : gmap string string)
  : gmap string string :=
  match results !! k with
  | Some _ => results
  | None => <[k := v]> results
  end.

(** The three conditional blocks of the [try] body. *)
Definition overview_step (url name_prefix : string)
    (results : gmap string string) : M (gmap string string) :=
  ov ← _exists name_prefix VARIANT_OVERVIEW;
  if negb ov
  then capture name_prefix VARIANT_OVERVIEW url results
  else mret results.

Definition analyst_step (url name_prefix : string)
    (results : gmap string string) : M (gmap string string) :=
  an ← _exists name_prefix VARIANT_ANALYST;
  if negb an then
    _navigate (analysts_url url) ;;
    capture name_prefix VARIANT_ANALYST (analysts_url url) results
  else mret results.

Definition earnings_step (want_earnings : bool) (url name_prefix : string)
    (results : gmap string string) : M (gmap string string) :=
  ea ← _exists name_prefix VARIANT_EARNINGS;
  if want_earnings && negb ea then
    _navigate (earnings_url url) ;;
    capture name_prefix VARIANT_EARNINGS (earnings_url url) results
  else mret results.

Definition fetch_body (url name_prefix : string) (order : list string)
  : M (gmap string string) :=
  let want_overview := mem VARIANT_OVERVIEW order || mem VARIANT_FULL order in
  let want_earnings := mem VARIANT_FULL order in
  _navigate url ;;
  r1 ← (if want_overview then
          r0 ← overview_step url name_prefix ∅;
          analyst_step url name_prefix r0
        else mret ∅);
  r2 ← earnings_step want_earnings url name_prefix r1;
  mret (if mem VARIANT_FULL order then
          setdefault VARIANT_EARNINGS (_friendly_path name_prefix VARIANT_EARNINGS)
            (setdefault VARIANT_ANALYST (_friendly_path name_prefix VARIANT_ANALYST)
               (setdefault VARIANT_OVERVIEW (_friendly_path name_prefix VARIANT_OVERVIEW) r2))
        else r2).

(** The driver exists only once [_create_driver] has returned, so the
    [finally] clause quits it exactly in that case. *)
Definition session (url name_prefix : string) (order : list string)
  : M (gmap string string) :=
  _create_driver ;;
  finally (fetch_body url name_prefix order) (emit CloseSession).

Definition fetch_variants (url : string) (variants : list string)
    (name_prefix : option string) : M (gmap string string) :=
  let order := PyData.keep_first id variants in
  if bool_decide (order = []) || existsb (fun v => negb (mem v ALLOWED)) order
  then raise ValueError
  else if negb (truthy name_prefix) then raise ValueError
  else
    let name_prefix := default EmptyString name_prefix in
    ov ← _exists name_prefix VARIANT_OVERVIEW;
    an ← _exists name_prefix VARIANT_ANALYST;
    ea ← _exists name_prefix VARIANT_EARNINGS;
    if mem VARIANT_FULL order then
      if ov && an && ea then
        mret (<[VARIANT_EARNINGS := _friendly_path name_prefix VARIANT_EARNINGS]>
                (<[VARIANT_ANALYST := _friendly_path name_prefix VARIANT_ANALYST]>
                   (<[VARIANT_OVERVIEW := _friendly_path name_prefix VARIANT_OVERVIEW]> ∅)))
      else session url name_prefix order
    else
      if ov && an then
        mret (<[VARIANT_ANALYST := _friendly_path name_prefix VARIANT_ANALYST]>
                (<[VARIANT_OVERVIEW := _friendly_path name_prefix VARIANT_OVERVIEW]> ∅))
      else session url name_prefix order.

(** The cache already holds what the request needs. *)
Definition cache_satisfied (fs : files) (name_prefix : string)
    (order : list string) : bool :=
  let ex v := bool_decide (is_Some (fs !! _friendly_path name_prefix v)) in
  if mem VARIANT_FULL order
  then ex VARIANT_OVERVIEW && ex VARIANT_ANALYST && ex VARIANT_EARNINGS
  else ex VARIANT_OVERVIEW && ex VARIANT_ANALYST.

(** The navigations of a session, from what the cache held at its start. *)
Definition session_navs (fs : files) (url name_prefix : string)
    (order : list string) : list string :=
  let ex v := bool_decide (is_Some (fs !! _friendly_path name_prefix v)) in
  url ::
  (if (mem VARIANT_OVERVIEW order || mem VARIANT_FULL order)
      && negb (ex VARIANT_ANALYST)
   then [analysts_url url] else []) ++
  (if mem VARIANT_FULL order && negb (ex VARIANT_EARNINGS)
   then [earnings_url url] else []).

(** The paths whose page was found: the only ones a run may write. *)
Definition found_paths (url n : string) (p : string) : Prop :=
  exists v u, (v, u) ∈ steps url /\ _no_results (page_source br u) = false /\
              p = _friendly_path n v.

(** [fs'] agrees with [fs] except at the path of variant [v]. *)
Definition frame (n v : string) (fs fs' : files) : Prop :=
  forall q, q <> _friendly_path n v -> fs' !! q = fs !! q.

(** Every page that is found can be written at its path. *)
Definition found_writable (url n : string) : Prop :=
  forall v u, (v, u) ∈ steps url -> _no_results (page_source br u) = false ->
              writable (_friendly_path n v) = true.

(** Some page that is found cannot be written at its path. *)
Definition write_fault (url n : string) : Prop :=
  exists v u, (v, u) ∈ steps url /\ _no_results (page_source br u) = false /\
              writable (_friendly_path n v) = false.
End WithCache.

(** [m] changes the cache only at paths in [P]. *)
Definition touches_only {A : Type} (P : string -> Prop) (m : M A) : Prop :=
  forall fs,
    (forall p, ~ P p -> (m fs).1.2 !! p = fs !! p) /\
    (forall p, p ∈ written (m fs).2 -> P p).

End Scraper.

(** ** services/db/crud.py and the table of services/db/db.py *)
Module Crud.

Inductive action : Type := inserted | updated | unchanged.

Record UpsertResult : Type := mkUpsertResult { id : Z; act : action }.

(** [datetime.date] as (year, month, day). *)
Definition date : Type := (nat * nat * nat)%type.

Section Store.
(** The numeric column values, with the engine's equality on them. *)
Context {num : Type} `{EqDecision num}.

(** services/db/models.py *)
Record Earnings : Type := mkEarnings {
  e_id : option Z;
  ticker : string;
  quarter : option string;
  report_date : date;
  rev_est : option num;
  rev_est_unit : option string;
  rev_act : option num;
  rev_act_unit : option string;
  rev_pct : option num;
  rev_status : option string;
  eps_est : option num;
  eps_act : option num;
  eps_pct : option num;
  eps_status : option string;
  created_at : option nat
}.

(** The values of the columns the statement overwrites on a duplicate
    key, in the order of its [UPDATE] list. *)
Definition columns : Type :=
  (option string * option num * option string * option num * option string *
   option num * option string * option num * option num * option num *
   option string)%type.

Definition cols (e : Earnings) : columns :=
  (quarter e, rev_est e, rev_est_unit e, rev_act e, rev_act_unit e,
   rev_pct e, rev_status e, eps_est e, eps_act e, eps_pct e, eps_status e).

(** The unique key [uq_ticker_date]. *)
Definition key_of (e : Earnings) : string * date := (ticker e, report_date e).

(** A persisted row: surrogate id and the mutable columns, under the
    unique key (ticker, report_date). *)
Record db : Type := Db {
  rows : gmap (string * date) (Z * columns);
  next_id : Z
}.

(** Modelled from the spec: the storage engine's
    [executeUpsert(row) -> affectedRowCount] for the statement
    [INSERT ... ON DUPLICATE KEY UPDATE] of [upsert_earnings_row]: a
    fresh key inserts and reports one affected row; a conflict that
    changes at least one of the listed columns overwrites them and
    reports two; a conflict that changes nothing reports zero.  The
    second component is [cursor.rowcount], the third
    [cursor.lastrowid]. *)
Definition execute (d : db) (e : Earnings) : db * Z * Z :=
  match rows d !! key_of e with
  | None =>
      (Db (<[key_of e := (next_id d, cols e)]> (rows d)) (next_id d + 1),
       1, next_id d)
  | Some (rid, old) =>
      if decide (old = cols e) then (d, 0, rid)
      else (Db (<[key_of e := (rid, cols e)]> (rows d)) (next_id d), 2, rid)
  end.

(** [# rowcount semantics: 1=inserted, 2=updated, 0=unchanged] *)
Definition action_of_rowcount (rowcount : Z) : action :=
  if rowcount =? 1 then inserted
  else if rowcount =? 2 then updated
  else unchanged.

Definition upsert_earnings_row (e : Earnings) (d : db) : UpsertResult * db :=
  let '(d', rowcount, lastrowid) := execute d e in
  (mkUpsertResult lastrowid (action_of_rowcount rowcount), d').

Record stats : Type := Stats {
  n_inserted : nat; n_updated : nat; n_unchanged : nat; n_attempted : nat
}.

Definition count (rowcount : Z) (s : stats) : stats :=
  let s' :=
    if rowcount =? 1
    then Stats (S (n_inserted s)) (n_updated s) (n_unchanged s) (n_attempted s)
    else if rowcount =? 2
    then Stats (n_inserted s) (S (n_updated s)) (n_unchanged s) (n_attempted s)
    else Stats (n_inserted s) (n_updated s) (S (n_unchanged s)) (n_attempted s) in
  Stats (n_inserted s') (n_updated s') (n_unchanged s') (S (n_attempted s')).

(** The loop of [load_earnings_rows]; [batch] and [commits] follow the
    periodic [conn.commit()]. *)
Fixpoint load_loop (commit_every : nat) (l : list Earnings)
    (d : db) (s : stats) (batch commits : nat) : stats * db * nat * nat :=
  match l with
  | [] => (s, d, batch, commits)
  | e :: l' =>
      let '(d', rowcount, _) := execute d e in
      let s' := count rowcount s in
      let batch' := S batch in
      if Nat.leb commit_every batch'
      then load_loop commit_every l' d' s' 0 (S commits)
      else load_loop commit_every l' d' s' batch' commits
  end.

Definition load_earnings_rows (l : list Earnings) (commit_every : nat)
    (d : db) : stats * db * nat :=
  let '(s, d', batch, commits) := load_loop commit_every l d (Stats 0 0 0 0) 0 0 in
  (s, d', match batch with O => commits | _ => S commits end).
End Store.

Arguments columns : clear implicits.
Arguments Earnings : clear implicits.
Arguments db : clear implicits.

End Crud.

(** ** Sample inputs *)
Module Samples.
Import EhHelper.

(** Builtins that parse nothing; enough for rows without percentages. *)
Definition no_floats : builtins :=
  Builtins (fun _ => None) (fun _ => EmptyString).

(** A history row whose revenue estimate column alone is filled. *)
Definition est_only_row : gmap string (option string) :=
  <["rev_est" := Some "12.3B"]> (<["rev_act" := None]> ∅).

Definition est_only_record : HistoryParser.history_row :=
  HistoryParser.HistoryRow "AAPL" "" "" "" "" "12.3" "B" "" "" "" "" "" "".

(** A browser that loads every page. *)
Definition browser_ok : Scraper.browser :=
  Scraper.Browser true (fun _ => true) (fun _ => "<html></html>").

Definition cache_dir : string := "data/html_cache".

(** A disk on which every path can be written. *)
Definition disk_ok : string -> bool := fun _ => true.

(** A disk on which the analyst document of AAPL cannot be written. *)
Definition disk_no_analyst : string -> bool :=
  fun p => negb (String.eqb p "data/html_cache/AAPL_analyst.html").

(** A disk whose cache directory has no subdirectory [BRK]. *)
Definition disk_flat : string -> bool :=
  fun p => negb (PyStr.startswith "data/html_cache/BRK/" p).

Definition aapl_url : string := "https://www.earningshub.com/quote/AAPL".

(** A cache that holds the three documents of AAPL. *)
Definition full_cache : gmap string string :=
  <["data/html_cache/AAPL_earnings.html" := "<html>e</html>"]>
    (<["data/html_cache/AAPL_analyst.html" := "<html>a</html>"]>
       (<["data/html_cache/AAPL_overview.html" := "<html>o</html>"]> ∅)).

(** Earnings records with the same key and the given EPS actual; numeric
    columns in hundredths. *)
Definition q2 (eps : Z) : Crud.Earnings Z :=
  Crud.mkEarnings None "AAPL" (Some "Q2 2025") (2025, 7, 31)%nat
    (Some 9440) (Some "B") (Some 9580) (Some "B") (Some 148) (Some "Beat")
    (Some 143) (Some eps) (Some 350) (Some "Beat") None.

Definition empty_db : Crud.db Z := Crud.Db ∅ 1.

(** A browser whose analyst page reports an unknown symbol. *)
Definition browser_no_analyst : Scraper.browser :=
  Scraper.Browser true (fun _ => true)
    (fun u => if String.eqb u (Scraper.analysts_url aapl_url)
              then "<h1>Symbol Not Found</h1>" else "<html>ok</html>").

(** A history table with a repeated (quarter, date) pair and a blank row. *)
Definition history_table : HistoryParser.table :=
  HistoryParser.Table ["Quarter"; "Date"; "Rev Act"]
    [ ["Quarter"; "Date"; "Rev Act"];
      ["Q1 2025"; "Apr 30, 2025"; "12.3B"];
      ["--"; ""; "N/A"];
      ["q1 2025"; "Apr 30, 2025 ACTUAL"; "12.4B"];
      ["Q2 2025"; "Jul 31, 2025"; "13B"] ].

Definition history_row_of (q d v u : string) : HistoryParser.history_row :=
  HistoryParser.HistoryRow "AAPL" q d "" "" v u "" "" "" "" "" "".

End Samples.

(** ** What a session of the fetch orchestrator leaves behind *)
Module ScraperSpec.
Import PyStr Scraper.

(** The variants a run persists. *)
Definition stored : list string :=
  [VARIANT_OVERVIEW; VARIANT_ANALYST; VARIANT_EARNINGS].

(** An event that occurs between the opening and the closing of a
    session. *)
Definition inner_event (ev : event) : bool :=
  match ev with
  | Navigate _ | WriteFile _ _ => true
  | OpenSession | CloseSession => false
  end.

(** The outcome of a computation that the browser or the disk stopped. *)
Definition stopped {A : Type} (o : outcome A) : Prop :=
  o = Raise WebDriverException \/ o = Raise OSError.

Section WithCache.
Variable cache_dir : string.

(** The result [r] lists exactly the variants whose document the events
    [evs] wrote, each under its cache path. *)
Definition tracks (n : string) (r : gmap string string)
    (evs : list event) : Prop :=
  forall v p, r !! v = Some p <->
    v ∈ stored /\ p = _friendly_path cache_dir n v /\ p ∈ written evs.

(** The outcome of the fetch step of variant [v] started with the
    results [r] on the cache [fs]: it is skipped or its page is not
    found, it raises on the navigation or on the write, or it creates the
    document. *)
Definition step_post (n v : string) (r : gmap string string) (fs : files)
    (out : outcome (gmap string string) * files * list event) : Prop :=
  let p := _friendly_path cache_dir n v in
  forallb inner_event out.2 = true /\
  ((stopped out.1.1 /\ out.1.2 = fs /\ written out.2 = []) \/
   (out.1.1 = Ok r /\ out.1.2 = fs /\ written out.2 = []) \/
   (exists html, out.1.1 = Ok (<[v := p]> r) /\ fs !! p = None /\
      out.1.2 = <[p := html]> fs /\ written out.2 = [p])).

(** The last statement of the [try] body: a request for the full
    variant names the three paths whether or not a document was written. *)
Definition finalize (n : string) (order : list string)
    (r : gmap string string) : gmap string string :=
  if mem VARIANT_FULL order then
    setdefault VARIANT_EARNINGS (_friendly_path cache_dir n VARIANT_EARNINGS)
      (setdefault VARIANT_ANALYST (_friendly_path cache_dir n VARIANT_ANALYST)
         (setdefault VARIANT_OVERVIEW (_friendly_path cache_dir n VARIANT_OVERVIEW) r))
  else r.

(** The state of a session after some of its steps, against the cache
    [fs] it started from: only navigations and writes have occurred, every
    write created a document of a stored variant that was not cached, all
    other entries are as they were, and the results (seen through [g])
    list what was written. *)
Definition session_inv (g : gmap string string -> gmap string string)
    (n : string) (fs : files)
    (out : outcome (gmap string string) * files * list event) : Prop :=
  forallb inner_event out.2 = true /\
  fs ⊆ out.1.2 /\
  (forall p, p ∈ written out.2 ->
     fs !! p = None /\ is_Some (out.1.2 !! p) /\
     exists v, v ∈ stored /\ p = _friendly_path cache_dir n v) /\
  (forall q, q ∉ written out.2 -> out.1.2 !! q = fs !! q) /\
  (stopped out.1.1 \/
   exists r, out.1.1 = Ok (g r) /\ tracks n r out.2).

(** A computation that keeps the invariant from any cache. *)
Definition keeps (g : gmap string string -> gmap string string) (n : string)
    (m : M (gmap string string)) : Prop :=
  forall fs, session_inv g n fs (m fs).

(** The answer to a request served from the cache. *)
Definition cached_result (n : string) (order : list string)
  : gmap string string :=
  let base :=
    <[VARIANT_ANALYST := _friendly_path cache_dir n VARIANT_ANALYST]>
      (<[VARIANT_OVERVIEW := _friendly_path cache_dir n VARIANT_OVERVIEW]> ∅) in
  if mem VARIANT_FULL order
  then <[VARIANT_EARNINGS := _friendly_path cache_dir n VARIANT_EARNINGS]> base
  else base.

End WithCache.

End ScraperSpec.
(** ** Further sample inputs *)
Module MoreSamples.

(** A cache that holds the overview document of AAPL alone. *)
Definition overview_cache : gmap string string :=
  <["data/html_cache/AAPL_overview.html" := "<html>o</html>"]> ∅.

End MoreSamples.

(** ** What a pattern matches, declaratively *)
Module ReSpec.
Import PyStr Re.

(** [matches r s w s']: from the state [s] the pattern [r] can consume
    the text [w] and reach the state [s']. *)
Inductive matches : re -> mstate -> string -> mstate -> Prop :=
| M_eps s : matches Eps s "" s
| M_chr p c t s :
    rest s = String c t -> p c = true ->
    matches (Chr p) s (String c "") (MState (Some c) t (caps s))
| M_cat r1 r2 s w1 s1 w2 s2 :
    matches r1 s w1 s1 -> matches r2 s1 w2 s2 ->
    matches (Cat r1 r2) s (w1 +:+ w2) s2
| M_alt_l r1 r2 s w s' : matches r1 s w s' -> matches (Alt r1 r2) s w s'
| M_alt_r r1 r2 s w s' : matches r2 s w s' -> matches (Alt r1 r2) s w s'
| M_star_nil r s : matches (Star r) s "" s
| M_star_cons r s w1 s1 w2 s2 :
    matches r s w1 s1 -> matches (Star r) s1 w2 s2 ->
    matches (Star r) s (w1 +:+ w2) s2
| M_grp n r s w s1 :
    matches r s w s1 ->
    matches (Grp n r) s w (MState (prev s1) (rest s1) ((n, w) :: caps s1))
| M_bnd s : at_boundary s = true -> matches Bnd s "" s
| M_bos s : prev s = None -> matches Bos s "" s
| M_eos s : at_end (rest s) = true -> matches Eos s "" s.

(** Every character of [s] satisfies [p]. *)
Fixpoint all_s (p : ascii -> bool) (s : string) : bool :=
  match s with
  | EmptyString => true
  | String c t => p c && all_s p t
  end.

(** The text is within ASCII, where the string primitives above are
    those of Python. *)
Definition is_ascii (c : ascii) : bool := Nat.ltb (code c) 128.
Definition ascii_only (s : string) : bool := all_s is_ascii s.

(** The pattern has no capture group. *)
Fixpoint groupless (r : re) : bool :=
  match r with
  | Grp _ _ => false
  | Cat a b | Alt a b => groupless a && groupless b
  | Star a => groupless a
  | _ => true
  end.

(** A character of [[\d.]]. *)
Definition num_char (c : ascii) : bool := is_digit c || Ascii.eqb c ".".

(** A text of the form [-?[\d.]+]. *)
Definition number_text (v : string) : bool :=
  match v with
  | EmptyString => false
  | String c t =>
      if Ascii.eqb c "-" then negb (is_empty t) && all_s num_char t
      else all_s num_char v
  end.

End ReSpec.

(** ** services/parser/earningshub/eh_helper.py, the helpers of the
    overview parser *)
Module EhHelperMore.
Import PyStr Re EhHelper.

(** [\d{1,2}], greedy. *)
Definition one_or_two_digits : re := Cat digit (opt digit).

(** [\b(\d{1,2})\s*(Months?|Mos?|M)\b] with [re.I]. *)
Definition re_months : re :=
  cats [Bnd; Grp 1 one_or_two_digits; Star space;
        Grp 2 (alts [Cat (lits true "Month") (opt (lit true "s"));
                     Cat (lits true "Mo") (opt (lit true "s"));
                     lit true "M"]);
        Bnd].

(** [\b(\d{1,2})\b] *)
Definition re_number : re := cats [Bnd; Grp 1 one_or_two_digits; Bnd].

(** [f"{int(n)} Months"] *)
Definition months_of (n : string) : string :=
  show_nat (int_of_digits n) +:+ " Months".

Definition parse_indicator (raw : option string) : option string :=
  let raw := clean_text raw in
  if negb (truthy raw) then None
  else
    let s := default EmptyString raw in
    match search re_months s with
    | Some m => months_of <$> group 1 m
    | None =>
        match search re_number s with
        | Some m => months_of <$> group 1 m
        | None => None
        end
    end.

End EhHelperMore.

(** ** Shapes of normalised text *)
Module TextSpec.
Import PyStr ReSpec.

Definition non_space (c : ascii) : bool := negb (is_space c).

(** A word of [str.split()]: not empty, without whitespace. *)
Definition is_word_text (w : string) : bool :=
  negb (is_empty w) && all_s non_space w.

(** The word [split_go] is collecting is a word. *)
Definition cur_ok (cur : option string) : Prop :=
  forall x, cur = Some x -> is_word_text x = true.

(** Reading a word extends the word being collected. *)
Definition push (w : string) (cur : option string) : option string :=
  match w with
  | EmptyString => cur
  | _ => Some (String.rev_app w (default EmptyString cur))
  end.

(** A character a normalised header key is made of: no upper-case
    letter, blank, dot or percent sign. *)
Definition key_char (c : ascii) : bool :=
  negb (is_upper c) && negb (Ascii.eqb " " c) && negb (Ascii.eqb "." c) &&
  negb (Ascii.eqb "%" c).

End TextSpec.

(** ** services/db/crud.py, from CSV rows to records *)
Module CrudCsv.
Import PyStr Re EhHelper.

(** The directives of [_to_date]'s formats: [%m] is
    [1[0-2]|0[1-9]|[1-9]]; [%d] and [%Y] are as above. *)
Definition date_directive (d : ascii) : option re :=
  if Ascii.eqb d "m" then
    Some (Grp (grp_of d)
            (alts [Cat (lit true "1") (rng "0" "2");
                   Cat (lit true "0") (rng "1" "9");
                   rng "1" "9"]))
  else EhHelper.directive d.

Fixpoint date_pattern_go (ws : bool) (fmt : string) : option (list re) :=
  match fmt with
  | EmptyString => Some []
  | String c t =>
      if Ascii.eqb c "%" then
        match t with
        | String d t' =>
            match date_directive d, date_pattern_go false t' with
            | Some r, Some rs => Some (r :: rs)
            | _, _ => None
            end
        | EmptyString => None
        end
      else if is_space c then
        match date_pattern_go true t with
        | Some rs => Some (if ws then rs else plus space :: rs)
        | None => None
        end
      else
        match date_pattern_go false t with
        | Some rs => Some (lit true c :: rs)
        | None => None
        end
  end.
Definition date_pattern (fmt : string) : option re :=
  cats <$> date_pattern_go false fmt.

(** [datetime.strptime(data, fmt).date()] for a format made of [%d],
    [%m] and [%Y]; [None] stands for its [ValueError]. *)
Definition strptime_date (data fmt : string) : option Crud.date :=
  match date_pattern fmt with
  | None => None
  | Some r =>
      match rmatch r data with
      | None => None
      | Some m =>
          if negb (is_empty (rest m)) then None
          else
            let y := default 1900%nat (int <$> group_of "Y" m) in
            let mo := default 1%nat (int <$> group_of "m" m) in
            let d := default 1%nat (int <$> group_of "d" m) in
            if valid_date y mo d then Some (y, mo, d) else None
      end
  end.

(** [str(val)] for a cell of a [csv.DictReader] row, which is a text or
    [None]. *)
Definition py_str (val : option string) : string := default "None" val.

(** [None] stands for the final [ValueError]. *)
Definition _to_date (val : option string) : option Crud.date :=
  let s := strip (py_str val) in
  match strptime_date s "%m/%d/%Y" with
  | Some d => Some d
  | None =>
      match strptime_date s "%d/%m/%Y" with
      | Some d => Some d
      | None => strptime_date s "%Y-%m-%d"
      end
  end.


(** A row of [csv.DictReader]: a missing trailing cell is [None]. *)
Abbreviation csv_row := (gmap string (option string)).

Section WithBuiltins.
Variable B : builtins.





End WithBuiltins.

End CrudCsv.

(** ** services/db/crud.py, the loader of a CSV file *)
Module CrudLoad.
Import Crud.

Section Store.
Context {num : Type} `{EqDecision num}.

(** [stats[res.action] += 1; stats["attempted"] += 1] *)
Definition tally (a : action) (s : stats) : stats :=
  let s' :=
    match a with
    | inserted =>
        Stats (S (n_inserted s)) (n_updated s) (n_unchanged s) (n_attempted s)
    | updated =>
        Stats (n_inserted s) (S (n_updated s)) (n_unchanged s) (n_attempted s)
    | unchanged =>
        Stats (n_inserted s) (n_updated s) (S (n_unchanged s)) (n_attempted s)
    end in
  Stats (n_inserted s') (n_updated s') (n_unchanged s') (S (n_attempted s')).

(** The loop of [load_csv_earnings] over the records its rows give: one
    [upsert_earnings_row] for each. *)
Fixpoint load_csv_loop (l : list (Earnings num)) (d : db num) (s : stats)
  : stats * db num :=
  match l with
  | [] => (s, d)
  | e :: l' =>
      let '(res, d') := upsert_earnings_row e d in
      load_csv_loop l' d' (tally (act res) s)
  end.

Definition load_csv_earnings (l : list (Earnings num)) (d : db num)
  : stats * db num := load_csv_loop l d (Stats 0 0 0 0).

Definition total (s : stats) : nat :=
  (n_inserted s + n_updated s + n_unchanged s)%nat.

(** The number of [conn.commit()] calls for [n] rows. *)
Definition commits_for (commit_every n : nat) : nat :=
  let m := Nat.max 1 commit_every in
  (n / m + (if Nat.eqb (n mod m) 0 then 0 else 1))%nat.
End Store.

End CrudLoad.

(** ** services/parser/earningshub/overview_parser.py *)
Module OverviewParser.
Import PyStr EhHelper.

(** The dict [parse_upcoming] returns. *)
Record upcoming : Type := Upcoming {
  u_ticker : option string;
  u_quarter : option string;
  u_date : option string;
  u_time : option string;
  u_rev_est : option string;
  u_rev_unit : option string;
  u_eps_est : option string
}.

(** One element matched by the container selector: its date block, if
    any, with the stripped texts of the quarter and the date elements
    found in it, and its estimate block, if any, with the stripped texts
    of its labels, in upper case, and of its values. *)
Record container : Type := Container {
  date_block : option (option string * option string);
  est_block : option (list string * list string)
}.

Section WithPlatform.
Variable pf : platform.

(** The body of the loop over [zip(labels, values)]. *)
Definition set_estimate (data : upcoming) (lv : string * string) : upcoming :=
  let '(lab, val) := lv in
  let parsed :=
    if is_empty val then EstAct empty_slot empty_slot
    else parse_est_act [val] in
  let est_val := svalue (est parsed) in
  let est_unit := sunit (est parsed) in
  if String.eqb lab "REVENUE" then
    Upcoming (u_ticker data) (u_quarter data) (u_date data) (u_time data)
      est_val est_unit (u_eps_est data)
  else if String.eqb lab "EPS" then
    Upcoming (u_ticker data) (u_quarter data) (u_date data) (u_time data)
      (u_rev_est data) (u_rev_unit data) est_val
  else data.

(** The body of the loop over the containers, up to its [break]. *)
Definition upcoming_step (c : container) (data : upcoming) : upcoming :=
  let data1 :=
    match date_block c with
    | Some (Some q, Some dt) =>
        let '(d, t) := parse_date_time pf (Some dt) in
        Upcoming (u_ticker data) (normalize_quarter (Some q)) d t
          (u_rev_est data) (u_rev_unit data) (u_eps_est data)
    | _ => data
    end in
  match est_block c with
  | Some (labels, values) =>
      fold_left set_estimate (zip labels values) data1
  | None => data1
  end.

Fixpoint parse_upcoming_go (cs : list container) (data : upcoming) : upcoming :=
  match cs with
  | [] => data
  | c :: cs' =>
      let data' := upcoming_step c data in
      if truthy (u_quarter data') || truthy (u_rev_est data')
         || truthy (u_eps_est data')
      then data'
      else parse_upcoming_go cs' data'
  end.

Definition parse_upcoming (ticker : option string) (cs : list container)
  : upcoming :=
  parse_upcoming_go cs (Upcoming ticker None None None None None None).

(** The value text [val] stands under the label [lab] in an estimate
    block of [cs] and carries the estimate marker. *)
Definition marked_value (cs : list container) (lab val : string) : Prop :=
  exists c labels values,
    c ∈ cs /\ est_block c = Some (labels, values) /\
    (lab, val) ∈ zip labels values /\
    is_est (_parse_one_value (Some val)) = Some true.

(** Each estimate of [data] comes from a marked value of [cs]. *)
Definition sourced (cs : list container) (data : upcoming) : Prop :=
  (forall x, u_rev_est data = Some x \/ u_rev_unit data = Some x ->
     exists val, marked_value cs "REVENUE" val /\
       u_rev_est data = value (_parse_one_value (Some val)) /\
       u_rev_unit data = unit_ (_parse_one_value (Some val))) /\
  (forall x, u_eps_est data = Some x ->
     exists val, marked_value cs "EPS" val /\
       u_eps_est data = value (_parse_one_value (Some val))).
End WithPlatform.

End OverviewParser.

(** ** Further samples *)
Module LaterSamples.

(** An upcoming card: the revenue figure is marked as an estimate, the
    EPS figure is not. *)
Definition upcoming_card : list OverviewParser.container :=
  [OverviewParser.Container (Some (Some "Q3 2025", Some "Oct 30, 2025"))
     (Some (["REVENUE"; "EPS"], ["$94.5B est"; "1.43"]))].

End LaterSamples.

(** ** app/run_pipeline.py *)
Module RunPipeline.
Import PyStr Scraper.



Section WithCache.
Variable br : browser.
Variable cache_dir : string.
Variable writable : string -> bool.
(** Whether [Path.unlink] succeeds at a path; where it raises, the
    exception is logged and the file stays. *)
Variable removable : string -> bool.




End WithCache.

End RunPipeline.

(** * Properties *)

(** Membership in a list written out. *)
Ltac in_list :=
  repeat first [apply list_elem_of_here | apply list_elem_of_further].

(** ** Beat / Miss *)
Section StatusProofs.
Import PyStr EhHelper.
Variable B : builtins.

Lemma SFcompare_Lt_Gt (x y : float) :
  SFcompare x y = Some Lt -> SFcompare y x = Some Gt.
Proof.
  destruct x as [sx|sx| |sx mx ex], y as [sy|sy| |sy my ey]; simpl;
    try discriminate; try (destruct sx; discriminate || reflexivity);
    try (destruct sy; discriminate || reflexivity);
    try (destruct sx, sy; discriminate || reflexivity).
  rewrite (Z.compare_antisym ex ey).
  change (Pos.compare_cont Eq my mx) with (Pos.compare my mx).
  change (Pos.compare_cont Eq mx my) with (Pos.compare mx my).
  rewrite (Pos.compare_antisym mx my).
  destruct sx, sy; try discriminate; try reflexivity;
    destruct (ex ?= ey); simpl; try discriminate; try reflexivity;
    destruct (mx ?= my)%positive; simpl; discriminate || reflexivity.
Qed.

Lemma float_lt_not_ge (x y : float) :
  float_lt x y = true -> float_ge x y = false.
Proof.
  unfold float_lt, float_ge, SFltb, SFleb.
  destruct (SFcompare x y) as [[]|] eqn:E; try discriminate.
  intros _. now rewrite (SFcompare_Lt_Gt _ _ E).
Qed.

(** C2. With a surprise percentage its sign alone decides: Beat when it
    is at least zero, Miss when it is below; without one, actual and
    estimate decide when both convert to a number, Beat for actual at
    least the estimate and Miss for actual below it; when neither
    comparison can be made the status is unknown.  In particular +2.5
    gives Beat, -1.0 gives Miss, and actual 5.0 against estimate 4.0 with
    no percentage gives Beat. *)
Theorem determine_status_spec (pct : option float) (act est : option pynum) :
  (forall p, pct = Some p ->
     (float_ge p zero = true -> determine_status B pct act est = Some "Beat") /\
     (float_lt p zero = true -> determine_status B pct act est = Some "Miss")) /\
  (forall a e fa fe, pct = None -> act = Some a -> est = Some e ->
     py_float B a = Some fa -> py_float B e = Some fe ->
     (float_ge fa fe = true -> determine_status B pct act est = Some "Beat") /\
     (float_lt fa fe = true -> determine_status B pct act est = Some "Miss")) /\
  (pct = None ->
     act = None \/ est = None \/
     (exists a, act = Some a /\ py_float B a = None) \/
     (exists e, est = Some e /\ py_float B e = None) ->
     determine_status B pct act est = None) /\
  determine_status B (Some (float_of 5 (-1))) act est = Some "Beat" /\
  determine_status B (Some (float_of (-1) 0)) act est = Some "Miss" /\
  determine_status B None (Some (PyFloat (float_of 5 0)))
    (Some (PyFloat (float_of 4 0))) = Some "Beat".
Proof.
  split; [|split; [|split]].
  - intros p ->. simpl. split.
    + now intros ->.
    + intros Hlt. now rewrite (float_lt_not_ge _ _ Hlt).
  - intros a e fa fe -> -> -> Ha He. simpl. rewrite Ha, He. split.
    + now intros ->.
    + intros Hlt. now rewrite (float_lt_not_ge _ _ Hlt).
  - intros -> [->|[->|[[a [-> Ha]]|[e [-> He]]]]]; simpl.
    + reflexivity.
    + now destruct act.
    + destruct est; [|reflexivity]. now rewrite Ha.
    + destruct act as [a|]; [|reflexivity]. rewrite He.
      now destruct (py_float B a).
  - repeat split.
Qed.

(** A percentage that is not a number compares false with zero and so
    falls on the Miss side. *)
Remark determine_status_nan (act est : option pynum) :
  determine_status B (Some S754_nan) act est = Some "Miss".
Proof. reflexivity. Qed.

End StatusProofs.

(** ** Value tokens and the estimate / actual pair *)
Section TokenProofs.
Import PyStr EhHelper.

(** A placeholder token is absent whatever surrounds it. *)
Lemma parse_one_value_placeholder (raw : string) :
  mem (strip raw) NO_DATA = true ->
  _parse_one_value (Some raw) = Token None None None.
Proof.
  intros H. unfold _parse_one_value.
  destruct (negb (truthy (Some raw))); [reflexivity|].
  simpl default. now rewrite H.
Qed.

Lemma parse_one_value_none : _parse_one_value None = Token None None None.
Proof. reflexivity. Qed.

(** The marker is the whole-word search alone. *)
Lemma parse_one_value_marker (raw : string) :
  truthy (Some raw) = true -> mem (strip raw) NO_DATA = false ->
  is_est (_parse_one_value (Some raw)) =
    if found (Re.search re_est (strip raw)) then Some true
    else if found (Re.search re_actual (strip raw)) then Some false
    else None.
Proof.
  intros Ht Hm. unfold _parse_one_value. rewrite Ht. simpl negb. cbv iota.
  simpl default. rewrite Hm.
  now destruct (Re.rmatch re_value _).
Qed.

(** What does not match the number pattern stays as text. *)
Lemma parse_one_value_opaque (raw : string) :
  truthy (Some raw) = true -> mem (strip raw) NO_DATA = false ->
  Re.rmatch re_value (strip_markers (strip raw)) = None ->
  value (_parse_one_value (Some raw)) = or_none (Some (strip_markers (strip raw))) /\
  unit_ (_parse_one_value (Some raw)) = None.
Proof.
  intros Ht Hm Hr. unfold _parse_one_value. rewrite Ht. simpl negb. cbv iota.
  simpl default. rewrite Hm, Hr. now split.
Qed.

Example parse_one_value_examples :
  _parse_one_value (Some "$12.3B est") = Token (Some "12.3") (Some "B") (Some true) /\
  _parse_one_value (Some "--") = Token None None None /\
  _parse_one_value (Some "-1,234.5 m") = Token (Some "-1234.5") (Some "M") None /\
  _parse_one_value (Some "3.1* (actual)") = Token (Some "3.1") None (Some false) /\
  _parse_one_value (Some "TBD") = Token (Some "TBD") None None.
Proof. repeat split; vm_compute; reflexivity. Qed.

(** C5. The marker search accepts the word [estimate] and any letter
    case, but the stripping removes only the lower-case substrings [est]
    and [actual]: the rest of the marker word stays in the text, the
    number pattern no longer matches, and the whole remainder lands in
    the value field with no unit. *)
Theorem parse_one_value_marker_word_left_behind :
  _parse_one_value (Some "12.3B estimate")
    = Token (Some "12.3B imate") None (Some true) /\
  _parse_one_value (Some "12.3B EST")
    = Token (Some "12.3B EST") None (Some true) /\
  _parse_one_value (Some "12.3B est")
    = Token (Some "12.3") (Some "B") (Some true).
Proof. repeat split; vm_compute; reflexivity. Qed.

(** C4. No token: both sides empty.  One token: the estimate alone when
    it is marked as an estimate, the actual alone otherwise.  Two tokens
    (any further ones are ignored): each side holds one of the two; a
    marked first token goes to the side of its marker, a marked second
    token does so unless the first one already claimed that side, and the
    other token takes the side left over; with no marker at all the first
    is the estimate and the second the actual. *)
Theorem parse_est_act_spec :
  parse_est_act [] = EstAct empty_slot empty_slot /\
  (forall v, let t := _parse_one_value (Some v) in
     (is_est t = Some true -> parse_est_act [v] = EstAct (slot_of t) empty_slot) /\
     (is_est t <> Some true -> parse_est_act [v] = EstAct empty_slot (slot_of t))) /\
  (forall va vb more,
     let a := _parse_one_value (Some va) in
     let b := _parse_one_value (Some vb) in
     let r := parse_est_act (va :: vb :: more) in
     (is_est a = None -> is_est b = None -> r = EstAct (slot_of a) (slot_of b)) /\
     (r = EstAct (slot_of a) (slot_of b) \/ r = EstAct (slot_of b) (slot_of a)) /\
     (is_est a = Some true -> est r = slot_of a) /\
     (is_est a = Some false -> act r = slot_of a) /\
     (is_est b = Some true -> is_est a <> Some true -> est r = slot_of b) /\
     (is_est b = Some false -> is_est a <> Some false -> act r = slot_of b)).
Proof.
  split; [reflexivity|]. split.
  - intros v. unfold parse_est_act. cbn [firstn]. cbv zeta.
    generalize (_parse_one_value (Some v)) as t. intros t.
    destruct (is_est t) as [[]|]; simpl; split; intros H;
      try reflexivity; congruence.
  - intros va vb more. unfold parse_est_act. cbn [firstn]. cbv zeta.
    generalize (_parse_one_value (Some va)) as a.
    generalize (_parse_one_value (Some vb)) as b.
    intros b a. unfold assign.
    destruct (is_est a) as [[]|], (is_est b) as [[]|]; simpl;
      repeat split; intros; try reflexivity; try congruence;
      try (left; reflexivity); try (right; reflexivity).
Qed.

End TokenProofs.

(** ** Dates *)
Section DateProofs.
Import PyStr EhHelper.

Example parse_date_time_examples :
  parse_date_time Msvcrt (Some "Wed, Jul 31, 2025, 4:00 PM")
    = (Some "07/31/2025", Some "4:00 PM") /\
  (forall pf, parse_date_time pf (Some "Jul 31, 2025") = (Some "07/31/2025", None)) /\
  (forall pf, parse_date_time pf (Some "Jul 31, 2025 ESTIMATE") = (Some "07/31/2025", None)) /\
  (forall pf, parse_date_time pf (Some "Feb 30, 2025 est") = (Some "Feb 30, 2025", None)) /\
  (forall pf, parse_date_time pf (Some "to be announced") = (Some "to be announced", None)) /\
  (forall pf, parse_date_time pf (Some "--") = (None, None)).
Proof.
  split; [vm_compute; reflexivity|].
  repeat split; intros []; vm_compute; reflexivity.
Qed.

(** The first directive tried, [%#I], is accepted by both C libraries,
    so the [%-I] fallback is never reached. *)
Lemma fmt_time_portable_first_format (pf : platform) (dt : datetime) :
  _fmt_time_portable pf dt = strftime pf "%#I:%M %p" dt.
Proof.
  unfold _fmt_time_portable.
  destruct (strftime pf "%#I:%M %p" dt) eqn:E; [reflexivity|].
  exfalso. revert E. destruct pf; vm_compute; discriminate.
Qed.

Lemma app_empty_r (s : string) : s +:+ "" = s.
Proof.
  induction s as [|c s IH]; [reflexivity|].
  change (String c s +:+ "") with (String c (s +:+ "")). now rewrite IH.
Qed.

Lemma strftime_date_total (pf : platform) (dt : datetime) :
  strftime pf "%m/%d/%Y" dt
  = Some (zfill 2 (month dt) +:+ "/" +:+ zfill 2 (day dt) +:+ "/" +:+
          zfill (match pf with Msvcrt => 4 | Glibc => 1 end) (year dt)).
Proof.
  rewrite <- (app_empty_r (zfill _ (year dt))). now destruct pf.
Qed.

Lemma fmt_time_portable_total (pf : platform) (dt : datetime) :
  _fmt_time_portable pf dt
  = Some ((match pf with
           | Msvcrt => show_nat (hour12 (hour dt))
           | Glibc => zfill 2 (hour12 (hour dt))
           end) +:+ ":" +:+ zfill 2 (minute dt) +:+ " " +:+ ampm_of dt).
Proof.
  rewrite <- (app_empty_r (ampm_of dt)). now destruct pf.
Qed.

(** The shape of [parse_date_time] on every input: nothing for an empty
    or placeholder text; otherwise the weekday pattern first, with a time;
    then the date-only pattern, without one; then the cleaned text. *)
Lemma parse_date_time_structure (pf : platform) (raw : option string) :
  let r := parse_date_time pf raw in
  let cleaned := strip_suffixes (default EmptyString (clean_text raw)) in
  (truthy (clean_text raw) = false -> r = (None, None)) /\
  (truthy (clean_text raw) = true ->
   (forall dt, strptime cleaned "%a, %b %d, %Y, %I:%M %p" = Some dt ->
      r = (strftime pf "%m/%d/%Y" dt, _fmt_time_portable pf dt)) /\
   (strptime cleaned "%a, %b %d, %Y, %I:%M %p" = None ->
      (forall dt, strptime cleaned "%b %d, %Y" = Some dt ->
         r = (strftime pf "%m/%d/%Y" dt, None)) /\
      (strptime cleaned "%b %d, %Y" = None -> r = (Some cleaned, None)))).
Proof.
  intros r cleaned. subst r. unfold parse_date_time. fold cleaned.
  split; [now intros ->|]. intros ->. cbn [negb].
  unfold try_full, try_date. split.
  - intros dt ->.
    now rewrite strftime_date_total, fmt_time_portable_total.
  - intros ->. split.
    + intros dt ->. now rewrite strftime_date_total.
    + now intros ->.
Qed.

(** C3. On glibc the time of the weekday pattern keeps the leading zero
    of the hour: "Wed, Jul 31, 2025, 4:00 PM" parses to the date
    07/31/2025 with the time 04:00 PM, not 4:00 PM. *)
Theorem parse_date_time_glibc_keeps_hour_padding :
  parse_date_time Glibc (Some "Wed, Jul 31, 2025, 4:00 PM")
    = (Some "07/31/2025", Some "04:00 PM").
Proof. vm_compute. reflexivity. Qed.

End DateProofs.

(** ** De-duplication *)
Section DedupProofs.
Import PyData.
Context {A K : Type} `{Countable K} (key : A -> K).

Lemma keep_first_go_elem (seen : gset K) (l : list A) (x : A) :
  x ∈ keep_first_go key seen l <->
  exists l1 l2, l = l1 ++ x :: l2 /\ (key x ∉ seen) /\
                forall y, y ∈ l1 -> key y <> key x.
Proof.
  revert seen. induction l as [|a l IH]; intros seen; simpl.
  - split.
    + intros Hx. inversion Hx.
    + intros (l1 & l2 & Hl & _). destruct l1; discriminate.
  - destruct (decide (key a ∈ seen)) as [Hin|Hnin].
    + rewrite IH. split.
      * intros (l1 & l2 & -> & Hs & Hf). exists (a :: l1), l2.
        split; [reflexivity|]. split; [exact Hs|].
        intros y [->|Hy]%elem_of_cons; [congruence|auto].
      * intros (l1 & l2 & Hl & Hs & Hf).
        destruct l1 as [|b l1]; simplify_eq/=; [contradiction|].
        exists l1, l2. split; [reflexivity|]. split; [exact Hs|].
        intros y Hy. apply Hf. now apply elem_of_cons; right.
    + rewrite elem_of_cons, IH. split.
      * intros [->|(l1 & l2 & -> & Hs & Hf)].
        -- exists [], l. split; [reflexivity|]. split; [exact Hnin|].
           intros y Hy. inversion Hy.
        -- exists (a :: l1), l2. split; [reflexivity|].
           apply not_elem_of_union in Hs as [Hs1 Hs2].
           split; [exact Hs2|].
           intros y [->|Hy]%elem_of_cons; [|auto].
           intros E. apply Hs1. apply elem_of_singleton. now symmetry.
      * intros (l1 & l2 & Hl & Hs & Hf).
        destruct l1 as [|b l1]; simplify_eq/=; [now left|].
        right. exists l1, l2. split; [reflexivity|].
        assert (key b <> key x) by (apply Hf; now apply elem_of_cons; left).
        split; [apply not_elem_of_union; split;
                [rewrite elem_of_singleton; congruence|exact Hs]|].
        intros y Hy. apply Hf. now apply elem_of_cons; right.
Qed.

Lemma keep_first_go_nodup (seen : gset K) (l : list A) :
  NoDup (key <$> keep_first_go key seen l).
Proof.
  revert seen. induction l as [|a l IH]; intros seen; simpl.
  - constructor.
  - destruct (decide (key a ∈ seen)); [apply IH|].
    rewrite fmap_cons. constructor; [|apply IH].
    intros (y & Hk & Hy)%list_elem_of_fmap.
    apply keep_first_go_elem in Hy as (_ & _ & _ & Hs & _).
    apply Hs, elem_of_union. left. apply elem_of_singleton. now symmetry.
Qed.

Lemma keep_first_go_sublist (seen : gset K) (l : list A) :
  keep_first_go key seen l `sublist_of` l.
Proof.
  revert seen. induction l as [|a l IH]; intros seen; simpl.
  - constructor.
  - destruct (decide (key a ∈ seen)).
    + apply sublist_cons, IH.
    + apply sublist_skip, IH.
Qed.

Lemma keep_first_go_id (seen : gset K) (l : list A) :
  NoDup (key <$> l) -> (forall x, x ∈ l -> key x ∉ seen) ->
  keep_first_go key seen l = l.
Proof.
  revert seen. induction l as [|a l IH]; intros seen Hnd Hs; simpl; [reflexivity|].
  rewrite fmap_cons in Hnd. apply NoDup_cons in Hnd as [Ha Hnd].
  destruct (decide (key a ∈ seen)) as [Hin|_].
  - exfalso. apply (Hs a); [now apply elem_of_cons; left|exact Hin].
  - f_equal. apply IH; [exact Hnd|].
    intros x Hx. apply not_elem_of_union. split.
    + intros E%elem_of_singleton. apply Ha. apply list_elem_of_fmap.
      exists x. split; [now symmetry|exact Hx].
    + apply Hs. now apply elem_of_cons; right.
Qed.

(** Every key of the list has a first row carrying it. *)
Lemma first_with_key (l : list A) (x : A) :
  x ∈ l ->
  exists l1 x' l2, l = l1 ++ x' :: l2 /\ key x' = key x /\
                   forall y, y ∈ l1 -> key y <> key x'.
Proof.
  induction l as [|a l IH]; intros Hx; [inversion Hx|].
  destruct (decide (key a = key x)) as [E|N].
  - exists [], a, l. split; [reflexivity|]. split; [exact E|].
    intros y Hy. inversion Hy.
  - apply elem_of_cons in Hx as [->|Hx]; [congruence|].
    destruct (IH Hx) as (l1 & x' & l2 & -> & E & Hf).
    exists (a :: l1), x', l2. split; [reflexivity|]. split; [exact E|].
    intros y [->|Hy]%elem_of_cons; [congruence|auto].
Qed.

End DedupProofs.

Section HistoryDedup.
Import HistoryParser Controller.
Variable B : EhHelper.builtins.
Variable pf : EhHelper.platform.

(** C7. In the parsed history table each (quarter, date) pair is carried
    by exactly one output row, that row is the first one of the parsed
    rows with the pair, the order of the rows is kept, every pair of the
    parsed rows survives, and a table without repeated pairs is returned
    whole. *)
Theorem parse_earnings_keeps_first (t : option table) (tk : string) :
  let rows := parse_rows B pf tk t in
  let out := parse_earnings B pf t tk in
  NoDup (dedup_key <$> out) /\
  out `sublist_of` rows /\
  (forall r, r ∈ out <->
     exists l1 l2, rows = l1 ++ r :: l2 /\
                   forall y, y ∈ l1 -> dedup_key y <> dedup_key r) /\
  (forall r, r ∈ rows -> exists r', r' ∈ out /\ dedup_key r' = dedup_key r) /\
  (NoDup (dedup_key <$> rows) -> out = rows).
Proof.
  intros rows out. subst out. unfold parse_earnings, PyData.keep_first.
  fold rows.
  assert (Helem : forall r, r ∈ PyData.keep_first_go dedup_key ∅ rows <->
     exists l1 l2, rows = l1 ++ r :: l2 /\
                   forall y, y ∈ l1 -> dedup_key y <> dedup_key r).
  { intros r. rewrite keep_first_go_elem. split.
    - intros (l1 & l2 & Hl & _ & Hf). eauto.
    - intros (l1 & l2 & Hl & Hf). exists l1, l2.
      split; [exact Hl|]. split; [apply not_elem_of_empty|exact Hf]. }
  split; [apply keep_first_go_nodup|].
  split; [apply keep_first_go_sublist|].
  split; [exact Helem|]. split.
  - intros r Hr.
    destruct (first_with_key dedup_key rows r Hr) as (l1 & r' & l2 & Hl & E & Hf).
    exists r'. split; [|exact E]. apply Helem. eauto.
  - intros Hnd. apply keep_first_go_id; [exact Hnd|].
    intros x _. apply not_elem_of_empty.
Qed.

End HistoryDedup.

(** ** Row assembly *)
Section RowProofs.
Import PyStr EhHelper HistoryParser.
Variable B : builtins.
Variable pf : platform.

(** [_transform_row] in terms of the normalised values of the row. *)
Lemma transform_row_unfold (tk : string) (row : gmap string (option string)) :
  _transform_row B pf tk row =
  if negb (existsb truthy (six_fields pf row)) then None
  else
    let rev_pct := parse_percent B (or_else (get row "rev_surp") (get row "rev_pct")) in
    let eps_pct := parse_percent B (or_else (get row "eps_surp") (get row "eps_pct")) in
    Some {|
      ticker := tk;
      quarter := or_empty (row_quarter row);
      date := or_empty (row_date pf row);
      rev_est := or_empty (svalue (est (row_rev row)));
      rev_est_unit := or_empty (sunit (est (row_rev row)));
      rev_act := or_empty (svalue (act (row_rev row)));
      rev_act_unit := or_empty (sunit (act (row_rev row)));
      rev_pct := match rev_pct with Some p => format_2f B p | None => "" end;
      rev_status :=
        or_empty (determine_status B rev_pct
                    (PyText <$> svalue (act (row_rev row)))
                    (PyText <$> svalue (est (row_rev row))));
      eps_est := or_empty (svalue (est (row_eps row)));
      eps_act := or_empty (svalue (act (row_eps row)));
      eps_pct := match eps_pct with Some p => format_2f B p | None => "" end;
      eps_status :=
        or_empty (determine_status B eps_pct
                    (PyText <$> svalue (act (row_eps row)))
                    (PyText <$> svalue (est (row_eps row))))
    |}.
Proof.
  unfold _transform_row, six_fields, row_quarter, row_date, row_rev, row_eps.
  destruct (parse_date_time pf _) as [d tm]. reflexivity.
Qed.

Lemma existsb_false_Forall {X : Type} (f : X -> bool) (l : list X) :
  existsb f l = false <-> Forall (fun x => f x = false) l.
Proof.
  induction l as [|x l IH]; simpl.
  - split; [constructor|reflexivity].
  - rewrite orb_false_iff, IH, Forall_cons. reflexivity.
Qed.

Lemma or_empty_truthy (o : option string) :
  truthy o = true -> or_empty o <> "".
Proof.
  unfold or_empty. destruct o as [[|c s]|]; simpl; discriminate.
Qed.

Lemma transform_row_none (tk : string) (row : gmap string (option string)) :
  _transform_row B pf tk row = None <-> Forall absent (six_fields pf row).
Proof.
  rewrite transform_row_unfold. unfold absent.
  rewrite <- existsb_false_Forall.
  destruct (existsb truthy (six_fields pf row)); simpl; split;
    congruence || discriminate.
Qed.

Lemma transform_row_populated (tk : string) (row : gmap string (option string))
    (r : history_row) :
  _transform_row B pf tk row = Some r -> populated r.
Proof.
  rewrite transform_row_unfold.
  destruct (existsb truthy (six_fields pf row)) eqn:E; simpl; [|discriminate].
  intros Hr. injection Hr as <-. unfold populated. simpl.
  unfold six_fields in E. simpl in E.
  repeat (apply orb_prop in E as [E|E];
          [eauto 7 using or_empty_truthy|]).
  discriminate.
Qed.

(** A row without cells maps every header to [None]. *)
Lemma get_row_fill_nil (headers : list string) (i : nat)
    (row : gmap string (option string)) (k : string) :
  get row k = None -> get (row_fill i headers [] row) k = None.
Proof.
  revert i row. induction headers as [|h hs IH]; intros i row Hk; simpl.
  - exact Hk.
  - apply IH. unfold get.
    destruct (decide (h = k)) as [->|N].
    + now rewrite lookup_insert_eq.
    + rewrite lookup_insert_ne by exact N. exact Hk.
Qed.

Lemma six_fields_blank (row : gmap string (option string)) :
  (forall k, get row k = None) -> Forall absent (six_fields pf row).
Proof.
  intros Hk. unfold six_fields, row_quarter, row_date, row_rev, row_eps.
  rewrite !Hk. repeat constructor.
Qed.

Lemma parse_tr_nil (tk : string) (headers cells : list string) :
  parse_tr B pf tk headers cells = [] <->
  Forall absent (six_fields pf (_row_to_map headers cells)).
Proof.
  destruct cells as [|c cs].
  - simpl. split; [intros _|reflexivity].
    apply six_fields_blank. intros k. apply get_row_fill_nil.
    unfold get. now rewrite lookup_empty.
  - unfold parse_tr. rewrite <- transform_row_none with (tk := tk).
    destruct (_transform_row B pf tk _); simpl; split;
      congruence || discriminate.
Qed.

(** A [tr] without cells, which [parse_rows] skips, is a row that
    [_transform_row] would drop as well. *)
Lemma parse_tr_transform (tk : string) (headers cells : list string) :
  parse_tr B pf tk headers cells =
  option_list (_transform_row B pf tk (_row_to_map headers cells)).
Proof.
  destruct cells as [|c cs]; [|reflexivity].
  assert (E : _transform_row B pf tk (_row_to_map headers []) = None).
  { apply transform_row_none, six_fields_blank. intros k.
    apply get_row_fill_nil. unfold get. now rewrite lookup_empty. }
  now rewrite E.
Qed.

Lemma omap_cons_run {X Y : Type} (f : X -> option Y) (x : X) (l : list X) :
  omap f (x :: l) =
  match f x with Some y => y :: omap f l | None => omap f l end.
Proof. reflexivity. Qed.

Lemma flat_map_option_list {X Y : Type} (f : X -> option Y) (l : list X) :
  flat_map (fun x => option_list (f x)) l = omap f l.
Proof.
  induction l as [|x l IH]; [reflexivity|]. simpl. rewrite IH.
  now destruct (f x).
Qed.

(** The output is the body rows in their order, each transformed; a
    table without headers gives rows that are all dropped. *)
Lemma parse_rows_omap (tk : string) (t : table) :
  parse_rows B pf tk (Some t) =
  omap (fun cells => _transform_row B pf tk (_row_to_map (_parse_headers t) cells))
    (skipn 1 (tr_cells t)).
Proof.
  unfold parse_rows. destruct (_parse_headers t) as [|h hs] eqn:Eh.
  - induction (skipn 1 (tr_cells t)) as [|cells l IH]; [reflexivity|].
    assert (E : _transform_row B pf tk (_row_to_map [] cells) = None).
    { apply transform_row_none, six_fields_blank. intros k.
      unfold get, _row_to_map. simpl. now rewrite lookup_empty. }
    now rewrite omap_cons_run, E.
  - rewrite <- flat_map_option_list. apply flat_map_ext.
    intros cells. apply parse_tr_transform.
Qed.

(** C8. A body row is left out of the parser's output exactly when its
    quarter, date, revenue estimate, revenue actual, EPS estimate and EPS
    actual are all absent after normalisation: the output is the body rows
    in their order, each transformed, less the rows with all six absent,
    so that a body row with one of the six present has its record in the
    output; hence every record of the output has at least one of the six
    populated. *)
Theorem discard_rule (tk : string) :
  (forall row, _transform_row B pf tk row = None <->
               Forall absent (six_fields pf row)) /\
  (forall headers cells,
     parse_tr B pf tk headers cells = [] <->
     Forall absent (six_fields pf (_row_to_map headers cells))) /\
  (forall t,
     parse_rows B pf tk (Some t) =
     omap (fun cells =>
             _transform_row B pf tk (_row_to_map (_parse_headers t) cells))
       (skipn 1 (tr_cells t))) /\
  (forall t cells,
     cells ∈ skipn 1 (tr_cells t) ->
     ~ Forall absent (six_fields pf (_row_to_map (_parse_headers t) cells)) ->
     exists r,
       _transform_row B pf tk (_row_to_map (_parse_headers t) cells) = Some r /\
       r ∈ parse_rows B pf tk (Some t)) /\
  (forall t r, r ∈ parse_rows B pf tk t -> populated r).
Proof.
  split; [apply transform_row_none|]. split; [apply parse_tr_nil|].
  split; [apply parse_rows_omap|]. split.
  - intros t cells Hin Hnot.
    destruct (_transform_row B pf tk (_row_to_map (_parse_headers t) cells))
      as [r|] eqn:Et.
    + exists r. split; [reflexivity|].
      rewrite parse_rows_omap. apply list_elem_of_omap.
      exists cells. split; [exact Hin|exact Et].
    + destruct Hnot. apply (proj1 (transform_row_none tk _)), Et.
  - intros [t|] r Hr; [|inversion Hr].
    rewrite parse_rows_omap in Hr.
    apply list_elem_of_omap in Hr as (cells & _ & Hr).
    eapply transform_row_populated, Hr.
Qed.

Lemma truthy_values_left (x y : option string) (v : string) :
  x = Some v -> truthy (Some v) = true -> truthy y = false ->
  truthy_values [x; y] = [v].
Proof.
  intros -> Hv Hy. unfold truthy_values. simpl in *. now rewrite Hv, Hy.
Qed.

Lemma truthy_values_right (x y : option string) (v : string) :
  truthy x = false -> y = Some v -> truthy (Some v) = true ->
  truthy_values [x; y] = [v].
Proof.
  intros Hx -> Hv. unfold truthy_values. simpl in *. now rewrite Hx, Hv.
Qed.

Lemma parse_est_act_lone (v : string) :
  is_est (_parse_one_value (Some v)) <> Some true ->
  parse_est_act [v] = EstAct empty_slot (slot_of (_parse_one_value (Some v))).
Proof.
  unfold parse_est_act. cbn [firstn]. cbv zeta.
  generalize (_parse_one_value (Some v)) as t. intros t Ht.
  destruct (is_est t) as [[]|]; simpl; congruence.
Qed.

Lemma lone_values (row : gmap string (option string)) (ke ka v : string) :
  lone row ke ka v -> truthy_values [get row ke; get row ka] = [v].
Proof.
  intros [Hv [[He Ha]|[He Ha]]].
  - now apply truthy_values_left.
  - now apply truthy_values_right.
Qed.

(** C10. When exactly one cell of the estimate / actual pair of a row is
    filled and its text carries no marker, the parsed value is the actual
    and the estimate stays empty, whichever column the cell came from; this
    holds for the revenue pair and for the EPS pair.  The disambiguation
    is handed that one token alone, so the positional rule for two tokens
    does not come into play. *)
Theorem lone_cell_is_actual (tk : string) (row : gmap string (option string))
    (r : history_row) (v : string) :
  _transform_row B pf tk row = Some r ->
  is_est (_parse_one_value (Some v)) = None ->
  (lone row "rev_est" "rev_act" v ->
     rev_est r = "" /\ rev_est_unit r = "" /\
     rev_act r = or_empty (value (_parse_one_value (Some v))) /\
     rev_act_unit r = or_empty (unit_ (_parse_one_value (Some v)))) /\
  (lone row "eps_est" "eps_act" v ->
     eps_est r = "" /\
     eps_act r = or_empty (value (_parse_one_value (Some v)))) /\
  (forall ke ka, lone row ke ka v ->
     truthy_values [get row ke; get row ka] = [v]).
Proof.
  intros Hr Hm.
  assert (Hone : parse_est_act [v]
                 = EstAct empty_slot (slot_of (_parse_one_value (Some v)))).
  { apply parse_est_act_lone. rewrite Hm. discriminate. }
  rewrite transform_row_unfold in Hr.
  destruct (negb (existsb truthy (six_fields pf row))); [discriminate|].
  injection Hr as <-. simpl. split; [|split].
  - intros Hl. unfold row_rev. rewrite (lone_values _ _ _ _ Hl), Hone. now simpl.
  - intros Hl. unfold row_eps. rewrite (lone_values _ _ _ _ Hl), Hone. now simpl.
  - intros ke ka. apply lone_values.
Qed.

End RowProofs.

(** ** Fetch orchestrator *)
Section ScraperProofs.
Import PyStr Scraper.
Variable br : browser.
Variable cache_dir : string.
Variable writable : string -> bool.

Lemma mem_elem_of (v : string) (l : list string) : mem v l = true <-> v ∈ l.
Proof.
  unfold mem. rewrite existsb_exists. split.
  - intros (x & Hx & ->%String.eqb_eq). now apply list_elem_of_In.
  - intros Hv. exists v. split; [now apply list_elem_of_In|apply String.eqb_refl].
Qed.

Lemma keep_first_id_elem (l : list string) (x : string) :
  x ∈ PyData.keep_first id l <-> x ∈ l.
Proof.
  unfold PyData.keep_first. rewrite keep_first_go_elem. split.
  - intros (l1 & l2 & -> & _). apply elem_of_app. right. now left.
  - intros Hx. destruct (first_with_key id l x Hx) as (l1 & x' & l2 & -> & E & Hf).
    simpl in E. subst x'. exists l1, l2.
    split; [reflexivity|]. split; [apply not_elem_of_empty|exact Hf].
Qed.

(** A well-formed request passes the two argument checks. *)
Lemma request_checks (variants : list string) :
  VARIANT_FULL ∈ variants -> Forall (fun v => v ∈ ALLOWED) variants ->
  bool_decide (PyData.keep_first id variants = [])
    || existsb (fun v => negb (mem v ALLOWED)) (PyData.keep_first id variants) = false /\
  mem VARIANT_FULL (PyData.keep_first id variants) = true.
Proof.
  intros Hfull Hall. split.
  - apply orb_false_iff. split.
    + apply bool_decide_eq_false. intros E.
      apply (proj2 (keep_first_id_elem _ _)) in Hfull.
      rewrite E in Hfull. inversion Hfull.
    + apply existsb_false_Forall, Forall_forall. intros v Hv.
      apply negb_false_iff, mem_elem_of.
      apply (proj1 (keep_first_id_elem _ _)) in Hv.
      exact (proj1 (Forall_forall _ _) Hall v Hv).
  - now apply mem_elem_of, keep_first_id_elem.
Qed.

Lemma truthy_nonempty (n : string) : n <> "" -> truthy (Some n) = true.
Proof. destruct n; [congruence|reflexivity]. Qed.

(** The paths of two different steps differ. *)
Lemma friendly_path_inj (n v v' : string) :
  v ∈ [VARIANT_OVERVIEW; VARIANT_ANALYST; VARIANT_EARNINGS] ->
  v' ∈ [VARIANT_OVERVIEW; VARIANT_ANALYST; VARIANT_EARNINGS] ->
  _friendly_path cache_dir n v = _friendly_path cache_dir n v' -> v = v'.
Proof.
  intros Hv Hv' E. unfold _friendly_path in E.
  repeat apply String.app_inj in E.
  repeat (apply elem_of_cons in Hv as [->|Hv]);
    repeat (apply elem_of_cons in Hv' as [->|Hv']);
    try reflexivity; try (now inversion Hv); try (now inversion Hv');
    vm_compute in E; discriminate.
Qed.

Lemma bind_run {X Y : Type} (m : M X) (f : X -> M Y) (fs : files) :
  (m ≫= f) fs =
  match m fs with
  | (Ok a, fs1, evs1) => let '(r, fs2, evs2) := f a fs1 in (r, fs2, evs1 ++ evs2)
  | (Raise e, fs1, evs1) => (Raise e, fs1, evs1)
  end.
Proof. reflexivity. Qed.

Lemma ret_bind_run {X Y : Type} (a : X) (f : X -> M Y) (fs : files) :
  (mret a ≫= f) fs = f a fs.
Proof.
  rewrite bind_run. unfold mret, M_ret.
  now destruct (f a fs) as [[r fs'] evs].
Qed.

Lemma exists_run (n v : string) (fs : files) :
  _exists cache_dir n v fs =
  (Ok (bool_decide (is_Some (fs !! _friendly_path cache_dir n v))), fs, []).
Proof. reflexivity. Qed.

(** The three cache probes that open [fetch_variants]. *)
Lemma fetch_variants_probe (url : string) (variants : list string) (n : string)
    (fs : files) :
  VARIANT_FULL ∈ variants -> Forall (fun v => v ∈ ALLOWED) variants -> n <> "" ->
  fetch_variants br cache_dir writable url variants (Some n) fs =
  let ex v := bool_decide (is_Some (fs !! _friendly_path cache_dir n v)) in
  if ex VARIANT_OVERVIEW && ex VARIANT_ANALYST && ex VARIANT_EARNINGS
  then (Ok (<[VARIANT_EARNINGS := _friendly_path cache_dir n VARIANT_EARNINGS]>
              (<[VARIANT_ANALYST := _friendly_path cache_dir n VARIANT_ANALYST]>
                 (<[VARIANT_OVERVIEW := _friendly_path cache_dir n VARIANT_OVERVIEW]> ∅))),
        fs, [])
  else session br cache_dir writable url n (PyData.keep_first id variants) fs.
Proof.
  intros Hfull Hall Hn. unfold fetch_variants.
  destruct (request_checks variants Hfull Hall) as [-> ->].
  rewrite (truthy_nonempty n Hn). cbn [negb].
  change (default EmptyString (Some n)) with n.
  repeat (rewrite bind_run, exists_run; cbv beta iota zeta).
  destruct (bool_decide (is_Some (fs !! _friendly_path cache_dir n VARIANT_OVERVIEW)));
    destruct (bool_decide (is_Some (fs !! _friendly_path cache_dir n VARIANT_ANALYST)));
    destruct (bool_decide (is_Some (fs !! _friendly_path cache_dir n VARIANT_EARNINGS)));
    cbn [andb app]; try reflexivity;
    now destruct (session br cache_dir writable url n (PyData.keep_first id variants) fs)
      as [[r fs'] evs].
Qed.

Lemma navigate_run (u : string) (fs : files) :
  _navigate br u fs =
  (if loads br u then Ok () else Raise WebDriverException, fs, [Navigate u]).
Proof.
  unfold _navigate. rewrite bind_run. unfold emit.
  now destruct (loads br u).
Qed.

(** A session starts by opening the browser and loading the base page. *)
Lemma session_head (url n : string) (order : list string) (fs : files) :
  (driver_ok br = true ->
     exists r fs' evs, session br cache_dir writable url n order fs
                       = (r, fs', OpenSession :: Navigate url :: evs)) /\
  (driver_ok br = false ->
     session br cache_dir writable url n order fs = (Raise WebDriverException, fs, [])).
Proof.
  unfold session, _create_driver. split; intros ->.
  - rewrite bind_run. unfold emit at 1. unfold finally, fetch_body.
    rewrite bind_run, navigate_run.
    destruct (loads br url).
    + match goal with |- context [(?m ≫= ?f) fs] =>
        destruct ((m ≫= f) fs) as [[r1 fs1] evs1] end.
      unfold emit. eexists _, _, _. reflexivity.
    + unfold emit. eexists _, _, _. reflexivity.
  - now rewrite bind_run.
Qed.

(** C6. A request for the full variant is answered from the cache, with no
    browsing session and no navigation, exactly when the overview, the
    analyst and the earnings documents are all cached; it then returns
    their three locations and nothing else.  With any of the three missing
    the short-circuit does not apply and a session is started. *)
Theorem full_cache_short_circuit (url : string) (variants : list string)
    (n : string) (fs : files) :
  VARIANT_FULL ∈ variants ->
  Forall (fun v => v ∈ ALLOWED) variants ->
  n <> "" ->
  let path := _friendly_path cache_dir n in
  let cached v := is_Some (fs !! path v) in
  let run := fetch_variants br cache_dir writable url variants (Some n) fs in
  (cached VARIANT_OVERVIEW /\ cached VARIANT_ANALYST /\ cached VARIANT_EARNINGS ->
     exists r, run = (Ok r, fs, []) /\
       r !! VARIANT_OVERVIEW = Some (path VARIANT_OVERVIEW) /\
       r !! VARIANT_ANALYST = Some (path VARIANT_ANALYST) /\
       r !! VARIANT_EARNINGS = Some (path VARIANT_EARNINGS) /\
       dom r = {[VARIANT_OVERVIEW; VARIANT_ANALYST; VARIANT_EARNINGS]}) /\
  (~ (cached VARIANT_OVERVIEW /\ cached VARIANT_ANALYST /\ cached VARIANT_EARNINGS) ->
     run = session br cache_dir writable url n (PyData.keep_first id variants) fs /\
     (driver_ok br = true ->
        exists r fs' evs, run = (r, fs', OpenSession :: Navigate url :: evs)) /\
     (driver_ok br = false -> run = (Raise WebDriverException, fs, []))).
Proof.
  intros Hfull Hall Hn path cached run. subst run.
  rewrite (fetch_variants_probe url variants n fs Hfull Hall Hn). cbv zeta.
  fold path. split.
  - intros (Ho & Ha & He). subst cached. cbv beta in Ho, Ha, He.
    rewrite !bool_decide_eq_true_2 by assumption. cbn [andb].
    eexists. split; [reflexivity|].
    split; [|split; [|split]].
    + rewrite lookup_insert_ne by discriminate.
      rewrite lookup_insert_ne by discriminate. apply lookup_insert_eq.
    + rewrite lookup_insert_ne by discriminate. apply lookup_insert_eq.
    + apply lookup_insert_eq.
    + rewrite !dom_insert_L, dom_empty_L. set_solver.
  - intros Hnot.
    assert (E : bool_decide (is_Some (fs !! path VARIANT_OVERVIEW))
                && bool_decide (is_Some (fs !! path VARIANT_ANALYST))
                && bool_decide (is_Some (fs !! path VARIANT_EARNINGS)) = false).
    { apply not_true_is_false. intros E. apply Hnot.
      apply andb_prop in E as [E E3]. apply andb_prop in E as [E1 E2].
      apply bool_decide_eq_true in E1, E2, E3. repeat split; assumption. }
    rewrite E. split; [reflexivity|]. apply session_head.
Qed.

(** *** What a run may write *)
Section Touches.
Variable P : string -> Prop.

Lemma touches_ret {X : Type} (a : X) : touches_only P (mret a).
Proof. intros fs. split; [reflexivity|]. intros p Hp. inversion Hp. Qed.

Lemma touches_raise {X : Type} (e : error) : touches_only P (raise (A := X) e).
Proof. intros fs. split; [reflexivity|]. intros p Hp. inversion Hp. Qed.

Lemma touches_emit (ev : event) :
  written [ev] = [] -> touches_only P (emit ev).
Proof.
  intros Hev fs. split; [reflexivity|]. intros p Hp.
  change (p ∈ written [ev]) in Hp. rewrite Hev in Hp. inversion Hp.
Qed.

Lemma touches_exists (n v : string) : touches_only P (_exists cache_dir n v).
Proof. intros fs. split; [reflexivity|]. intros p Hp. inversion Hp. Qed.

Lemma touches_write (n v h : string) :
  P (_friendly_path cache_dir n v) -> touches_only P (_write cache_dir writable n v h).
Proof.
  intros HP. unfold _write.
  destruct (writable (_friendly_path cache_dir n v)); [|apply touches_raise].
  intros fs. split.
  - intros p Hp.
    change (<[_friendly_path cache_dir n v := h]> fs !! p = fs !! p).
    apply lookup_insert_ne. intros E. apply Hp. now rewrite <- E.
  - intros p Hp. change (p ∈ [_friendly_path cache_dir n v]) in Hp.
    apply list_elem_of_singleton in Hp as ->. exact HP.
Qed.

Lemma touches_bind {X Y : Type} (m : M X) (f : X -> M Y) :
  touches_only P m -> (forall a, touches_only P (f a)) ->
  touches_only P (m ≫= f).
Proof.
  intros Hm Hf fs. rewrite bind_run. specialize (Hm fs).
  destruct (m fs) as [[[a|e] fs1] evs1]; simpl in Hm; [|exact Hm].
  specialize (Hf a fs1). destruct (f a fs1) as [[r fs2] evs2].
  simpl in *. destruct Hm as [Hm1 Hm2], Hf as [Hf1 Hf2]. split.
  - intros p Hp. now rewrite Hf1, Hm1.
  - intros p. unfold written. rewrite omap_app, elem_of_app.
    intros [Hp|Hp]; [now apply Hm2|now apply Hf2].
Qed.

Lemma touches_finally {X : Type} (m : M X) (c : M ()) :
  touches_only P m -> touches_only P c -> touches_only P (finally m c).
Proof.
  intros Hm Hc fs. unfold finally. specialize (Hm fs).
  destruct (m fs) as [[r fs1] evs1]. specialize (Hc fs1).
  destruct (c fs1) as [[r2 fs2] evs2].
  simpl in *. destruct Hm as [Hm1 Hm2], Hc as [Hc1 Hc2]. split.
  - intros p Hp. now rewrite Hc1, Hm1.
  - intros p. unfold written. rewrite omap_app, elem_of_app.
    intros [Hp|Hp]; [now apply Hm2|now apply Hc2].
Qed.

Lemma touches_navigate (u : string) : touches_only P (_navigate br u).
Proof.
  unfold _navigate. apply touches_bind; [now apply touches_emit|].
  intros _. destruct (loads br u); [apply touches_ret|apply touches_raise].
Qed.

Lemma touches_capture (n v u : string) (r : gmap string string) :
  (_no_results (page_source br u) = false -> P (_friendly_path cache_dir n v)) ->
  touches_only P (capture br cache_dir writable n v u r).
Proof.
  intros HP. unfold capture.
  destruct (_no_results (page_source br u)); simpl; [apply touches_ret|].
  apply touches_bind; [now apply touches_write, HP|].
  intros p. apply touches_ret.
Qed.

End Touches.

Lemma found_step (url n v u : string) :
  (v, u) ∈ steps url -> _no_results (page_source br u) = false ->
  found_paths br cache_dir url n (_friendly_path cache_dir n v).
Proof. intros Hs Hn. exists v, u. auto. Qed.

Lemma touches_fetch_body (url n : string) (order : list string) :
  touches_only (found_paths br cache_dir url n) (fetch_body br cache_dir writable url n order).
Proof.
  unfold fetch_body, overview_step, analyst_step, earnings_step, steps.
  apply touches_bind; [apply touches_navigate|]. intros _.
  apply touches_bind.
  - destruct (mem VARIANT_OVERVIEW order || mem VARIANT_FULL order);
      [|apply touches_ret].
    apply touches_bind.
    + apply touches_bind; [apply touches_exists|]. intros [|]; simpl;
        [apply touches_ret|].
      apply touches_capture, found_step. in_list.
    + intros r0. apply touches_bind; [apply touches_exists|].
      intros [|]; simpl; [apply touches_ret|].
      apply touches_bind; [apply touches_navigate|]. intros _.
      apply touches_capture, found_step. in_list.
  - intros r1. apply touches_bind.
    + apply touches_bind; [apply touches_exists|].
      intros ea. destruct (mem VARIANT_FULL order && negb ea);
        [|apply touches_ret].
      apply touches_bind; [apply touches_navigate|]. intros _.
      apply touches_capture, found_step. in_list.
    + intros r2. apply touches_ret.
Qed.

Lemma touches_fetch_variants (url : string) (variants : list string)
    (name_prefix : option string) :
  touches_only (found_paths br cache_dir url (default EmptyString name_prefix))
    (fetch_variants br cache_dir writable url variants name_prefix).
Proof.
  unfold fetch_variants.
  destruct (_ || _); [apply touches_raise|].
  destruct (negb _); [apply touches_raise|].
  assert (Hs : forall order, touches_only
            (found_paths br cache_dir url (default EmptyString name_prefix))
            (session br cache_dir writable url (default EmptyString name_prefix) order)).
  { intros order. unfold session. apply touches_bind.
    - unfold _create_driver. destruct (driver_ok br);
        [now apply touches_emit|apply touches_raise].
    - intros _. apply touches_finally;
        [apply touches_fetch_body|now apply touches_emit]. }
  repeat (apply touches_bind; [apply touches_exists|intros ?]).
  destruct (mem VARIANT_FULL _).
  - destruct (_ && _); [apply touches_ret|apply Hs].
  - destruct (_ && _); [apply touches_ret|apply Hs].
Qed.

(** A step whose page reports "not found" has a path no run may write. *)
Lemma not_found_path (url n v u : string) :
  (v, u) ∈ steps url -> _no_results (page_source br u) = true ->
  ~ found_paths br cache_dir url n (_friendly_path cache_dir n v).
Proof.
  intros Hs Hn (v' & u' & Hs' & Hn' & E).
  assert (Hv : forall a b, (a, b) ∈ steps url ->
            a ∈ [VARIANT_OVERVIEW; VARIANT_ANALYST; VARIANT_EARNINGS]).
  { intros a b Hab. unfold steps in Hab.
    repeat (apply elem_of_cons in Hab as [Hab|Hab]);
      try (now inversion Hab); injection Hab as -> _; in_list. }
  apply friendly_path_inj in E; [|exact (Hv _ _ Hs)|exact (Hv _ _ Hs')].
  subst v'.
  assert (u = u'); [|congruence].
  unfold steps in Hs, Hs'.
  repeat (apply elem_of_cons in Hs as [Hs|Hs]);
    repeat (apply elem_of_cons in Hs' as [Hs'|Hs']);
    try (now inversion Hs); try (now inversion Hs');
    now simplify_eq.
Qed.

(** *** What a run navigates to *)

(** A computation that stopped in a failed write of a page that was found. *)
Lemma fault_excluded (url n : string) :
  found_writable br cache_dir writable url n ->
  write_fault br cache_dir writable url n -> False.
Proof.
  intros W (v & u & Hs & Hf & Hw). rewrite (W v u Hs Hf) in Hw. discriminate.
Qed.

Lemma capture_run (url n v u : string) (r : gmap string string) (fs : files) :
  (v, u) ∈ steps url ->
  (exists r' fs' evs,
     capture br cache_dir writable n v u r fs = (Ok r', fs', evs) /\
     navs evs = [] /\ frame cache_dir n v fs fs') \/
  (exists fs' evs,
     capture br cache_dir writable n v u r fs = (Raise OSError, fs', evs) /\
     write_fault br cache_dir writable url n).
Proof.
  intros Hs. unfold capture.
  destruct (_no_results (page_source br u)) eqn:Hf; simpl.
  - left. eexists _, _, _. split; [reflexivity|]. split; [reflexivity|].
    intros q _. reflexivity.
  - rewrite bind_run. unfold _write.
    destruct (writable (_friendly_path cache_dir n v)) eqn:Hw.
    + left. cbv beta iota zeta.
      eexists _, _, _. split; [reflexivity|]. split; [reflexivity|].
      intros q Hq. now apply lookup_insert_ne.
    + right. eexists _, _. split; [reflexivity|]. exists v, u. auto.
Qed.

Lemma overview_step_run (url n : string) (r : gmap string string) (fs : files) :
  (exists r' fs' evs,
     overview_step br cache_dir writable url n r fs = (Ok r', fs', evs) /\
     navs evs = [] /\ frame cache_dir n VARIANT_OVERVIEW fs fs') \/
  (exists fs' evs,
     overview_step br cache_dir writable url n r fs = (Raise OSError, fs', evs) /\
     write_fault br cache_dir writable url n).
Proof.
  unfold overview_step. rewrite bind_run, exists_run. cbv beta iota zeta.
  destruct (bool_decide _); cbn [negb].
  - left. eexists _, _, _. split; [reflexivity|]. split; [reflexivity|].
    intros q _. reflexivity.
  - destruct (capture_run url n VARIANT_OVERVIEW url r fs)
      as [(r' & fs' & evs & -> & Hn & Hf)|(fs' & evs & -> & Hw)];
      [unfold steps; in_list| |].
    + left. eexists _, _, _. split; [reflexivity|]. split; [exact Hn|exact Hf].
    + right. eexists _, _. split; [reflexivity|exact Hw].
Qed.

Lemma guarded_step_run (url n v u : string) (r : gmap string string)
    (fs : files) :
  (v, u) ∈ steps url -> loads br u = true ->
  (exists r' fs' evs,
     (_navigate br u ;; capture br cache_dir writable n v u r) fs
     = (Ok r', fs', evs) /\
     navs evs = [u] /\ frame cache_dir n v fs fs') \/
  (exists fs' evs,
     (_navigate br u ;; capture br cache_dir writable n v u r) fs
     = (Raise OSError, fs', evs) /\
     write_fault br cache_dir writable url n).
Proof.
  intros Hs Hl. rewrite bind_run, navigate_run, Hl.
  destruct (capture_run url n v u r fs Hs)
    as [(r' & fs' & evs & -> & Hn & Hf)|(fs' & evs & -> & Hw)].
  - left. eexists _, _, _. split; [reflexivity|]. split; [|exact Hf].
    simpl. now rewrite Hn.
  - right. eexists _, _. split; [reflexivity|exact Hw].
Qed.

Lemma analyst_step_run (url n : string) (r : gmap string string) (fs : files) :
  (forall u, loads br u = true) ->
  (exists r' fs' evs,
     analyst_step br cache_dir writable url n r fs = (Ok r', fs', evs) /\
     navs evs =
       (if negb (bool_decide (is_Some (fs !! _friendly_path cache_dir n VARIANT_ANALYST)))
        then [analysts_url url] else []) /\
     frame cache_dir n VARIANT_ANALYST fs fs') \/
  (exists fs' evs,
     analyst_step br cache_dir writable url n r fs = (Raise OSError, fs', evs) /\
     write_fault br cache_dir writable url n).
Proof.
  intros Hl. unfold analyst_step. rewrite bind_run, exists_run.
  cbv beta iota zeta. destruct (bool_decide _); cbn [negb].
  - left. eexists _, _, _. split; [reflexivity|]. split; [reflexivity|].
    intros q _. reflexivity.
  - destruct (guarded_step_run url n VARIANT_ANALYST (analysts_url url) r fs)
      as [(r' & fs' & evs & -> & Hn & Hf)|(fs' & evs & -> & Hw)];
      [unfold steps; in_list|apply Hl| |].
    + left. eexists _, _, _. split; [reflexivity|]. split; [exact Hn|exact Hf].
    + right. eexists _, _. split; [reflexivity|exact Hw].
Qed.

Lemma earnings_step_run (w : bool) (url n : string) (r : gmap string string)
    (fs : files) :
  (forall u, loads br u = true) ->
  (exists r' fs' evs,
     earnings_step br cache_dir writable w url n r fs = (Ok r', fs', evs) /\
     navs evs =
       (if w && negb (bool_decide (is_Some (fs !! _friendly_path cache_dir n VARIANT_EARNINGS)))
        then [earnings_url url] else []) /\
     frame cache_dir n VARIANT_EARNINGS fs fs') \/
  (exists fs' evs,
     earnings_step br cache_dir writable w url n r fs = (Raise OSError, fs', evs) /\
     write_fault br cache_dir writable url n).
Proof.
  intros Hl. unfold earnings_step. rewrite bind_run, exists_run.
  cbv beta iota zeta. destruct (w && negb (bool_decide _)).
  - destruct (guarded_step_run url n VARIANT_EARNINGS (earnings_url url) r fs)
      as [(r' & fs' & evs & -> & Hn & Hf)|(fs' & evs & -> & Hw)];
      [unfold steps; in_list|apply Hl| |].
    + left. eexists _, _, _. split; [reflexivity|]. split; [exact Hn|exact Hf].
    + right. eexists _, _. split; [reflexivity|exact Hw].
  - left. eexists _, _, _. split; [reflexivity|]. split; [reflexivity|].
    intros q _. reflexivity.
Qed.

Lemma path_neq (n v v' : string) :
  v ∈ [VARIANT_OVERVIEW; VARIANT_ANALYST; VARIANT_EARNINGS] ->
  v' ∈ [VARIANT_OVERVIEW; VARIANT_ANALYST; VARIANT_EARNINGS] ->
  v <> v' -> _friendly_path cache_dir n v <> _friendly_path cache_dir n v'.
Proof. intros Hv Hv' N E. apply N. now apply (friendly_path_inj n). Qed.

Lemma fetch_body_run (url n : string) (order : list string) (fs : files) :
  (forall u, loads br u = true) ->
  (exists r fs' evs,
     fetch_body br cache_dir writable url n order fs = (Ok r, fs', evs) /\
     navs evs = session_navs cache_dir fs url n order) \/
  (exists fs' evs,
     fetch_body br cache_dir writable url n order fs = (Raise OSError, fs', evs) /\
     write_fault br cache_dir writable url n).
Proof.
  intros Hl. unfold fetch_body, session_navs. cbv zeta.
  rewrite bind_run, navigate_run, Hl.
  destruct (mem VARIANT_OVERVIEW order || mem VARIANT_FULL order); cbn [andb].
  - rewrite bind_run. rewrite bind_run.
    destruct (overview_step_run url n ∅ fs)
      as [(r0 & fs0 & e0 & -> & Hn0 & Hf0)|(fs0 & e0 & -> & Hw)];
      [|right; eexists _, _; split; [reflexivity|exact Hw]].
    destruct (analyst_step_run url n r0 fs0 Hl)
      as [(r1 & fs1 & e1 & -> & Hn1 & Hf1)|(fs1 & e1 & -> & Hw)];
      [|right; eexists _, _; split; [reflexivity|exact Hw]].
    rewrite bind_run.
    destruct (earnings_step_run (mem VARIANT_FULL order) url n r1 fs1 Hl)
      as [(r2 & fs2 & e2 & -> & Hn2 & Hf2)|(fs2 & e2 & -> & Hw)];
      [|right; eexists _, _; split; [reflexivity|exact Hw]].
    left. eexists _, _, _. split; [reflexivity|].
    unfold navs in *. rewrite !omap_app, Hn0, Hn1, Hn2. simpl.
    rewrite app_nil_r.
    rewrite (Hf0 (_friendly_path cache_dir n VARIANT_ANALYST))
      by (apply path_neq; [in_list..|discriminate]).
    rewrite (Hf1 (_friendly_path cache_dir n VARIANT_EARNINGS))
      by (apply path_neq; [in_list..|discriminate]).
    rewrite (Hf0 (_friendly_path cache_dir n VARIANT_EARNINGS))
      by (apply path_neq; [in_list..|discriminate]).
    reflexivity.
  - rewrite ret_bind_run, bind_run.
    destruct (earnings_step_run (mem VARIANT_FULL order) url n ∅ fs Hl)
      as [(r2 & fs2 & e2 & -> & Hn2 & Hf2)|(fs2 & e2 & -> & Hw)];
      [|right; eexists _, _; split; [reflexivity|exact Hw]].
    left. eexists _, _, _. split; [reflexivity|].
    unfold navs in *. rewrite !omap_app, Hn2. simpl.
    now rewrite app_nil_r.
Qed.

(** With a driver, a session is its body between opening and closing. *)
Lemma session_open (url n : string) (order : list string) (fs : files) :
  driver_ok br = true ->
  session br cache_dir writable url n order fs =
  let '(r, fs1, evs1) := fetch_body br cache_dir writable url n order fs in
  (r, fs1, OpenSession :: evs1 ++ [CloseSession]).
Proof.
  intros Hd. unfold session, _create_driver. rewrite Hd, bind_run.
  unfold emit, finally.
  now destruct (fetch_body br cache_dir writable url n order fs) as [[r fs1] evs1].
Qed.

Lemma session_run (url n : string) (order : list string) (fs : files) :
  driver_ok br = true -> (forall u, loads br u = true) ->
  (exists r fs' evs,
     session br cache_dir writable url n order fs = (Ok r, fs', evs) /\
     navs evs = session_navs cache_dir fs url n order) \/
  (exists fs' evs,
     session br cache_dir writable url n order fs = (Raise OSError, fs', evs) /\
     write_fault br cache_dir writable url n).
Proof.
  intros Hd Hl. rewrite (session_open url n order fs Hd).
  destruct (fetch_body_run url n order fs Hl)
    as [(r & fs' & evs & -> & Hn)|(fs' & evs & -> & Hw)].
  - left. eexists _, _, _. split; [reflexivity|].
    unfold navs in *. simpl. now rewrite omap_app, Hn, app_nil_r.
  - right. eexists _, _. split; [reflexivity|exact Hw].
Qed.

Lemma request_checks_any (variants : list string) :
  variants <> [] -> Forall (fun v => v ∈ ALLOWED) variants ->
  bool_decide (PyData.keep_first id variants = [])
    || existsb (fun v => negb (mem v ALLOWED)) (PyData.keep_first id variants) = false.
Proof.
  intros Hne Hall. apply orb_false_iff. split.
  - apply bool_decide_eq_false. intros E. destruct variants as [|x l]; [congruence|].
    assert (Hx : x ∈ PyData.keep_first id (x :: l))
      by (apply keep_first_id_elem; in_list).
    rewrite E in Hx. inversion Hx.
  - apply existsb_false_Forall, Forall_forall. intros v Hv.
    apply negb_false_iff, mem_elem_of.
    apply (proj1 (keep_first_id_elem _ _)) in Hv.
    exact (proj1 (Forall_forall _ _) Hall v Hv).
Qed.

(** A well-formed request is served from the cache or by one session. *)
Lemma fetch_variants_valid (url : string) (variants : list string) (n : string)
    (fs : files) :
  variants <> [] -> Forall (fun v => v ∈ ALLOWED) variants -> n <> "" ->
  exists r0,
    fetch_variants br cache_dir writable url variants (Some n) fs =
    if cache_satisfied cache_dir fs n (PyData.keep_first id variants)
    then (Ok r0, fs, [])
    else session br cache_dir writable url n (PyData.keep_first id variants) fs.
Proof.
  intros Hne Hall Hn. unfold fetch_variants, cache_satisfied.
  rewrite (request_checks_any variants Hne Hall).
  rewrite (truthy_nonempty n Hn). cbn [negb].
  change (default EmptyString (Some n)) with n.
  repeat (rewrite bind_run, exists_run; cbv beta iota zeta).
  destruct (mem VARIANT_FULL _);
    destruct (bool_decide (is_Some (fs !! _friendly_path cache_dir n VARIANT_OVERVIEW)));
    destruct (bool_decide (is_Some (fs !! _friendly_path cache_dir n VARIANT_ANALYST)));
    destruct (bool_decide (is_Some (fs !! _friendly_path cache_dir n VARIANT_EARNINGS)));
    cbn [andb app]; eexists; try reflexivity;
    now destruct (session br cache_dir writable url n (PyData.keep_first id variants) fs)
      as [[r fs'] evs].
Qed.

(** C9. For each of the three fetch steps, a captured page that reports
    the symbol as not found is not written to the cache: the cache entry
    of that variant is left as it was and no write to its path occurs.
    Nor is it an error: with a working browser a well-formed request can
    fail only in writing a page that was found, and where every page that
    is found can be written it returns normally and navigates to every
    remaining page exactly as the cache state alone prescribes, whatever
    the pages contain and whether or not the path of a page that is not
    found could be written. *)
Theorem not_found_is_never_cached (url : string) (variants : list string)
    (name_prefix : option string) (fs : files) :
  let n := default EmptyString name_prefix in
  let order := PyData.keep_first id variants in
  let run := fetch_variants br cache_dir writable url variants name_prefix fs in
  let returns :=
    exists r, run.1.1 = Ok r /\
      navs run.2 = if cache_satisfied cache_dir fs n order then []
                   else session_navs cache_dir fs url n order in
  (forall v u, (v, u) ∈ steps url -> _no_results (page_source br u) = true ->
     run.1.2 !! _friendly_path cache_dir n v = fs !! _friendly_path cache_dir n v /\
     _friendly_path cache_dir n v ∉ written run.2) /\
  (variants <> [] -> Forall (fun v => v ∈ ALLOWED) variants -> n <> "" ->
   driver_ok br = true -> (forall u, loads br u = true) ->
   (returns \/
    (run.1.1 = Raise OSError /\ write_fault br cache_dir writable url n)) /\
   (found_writable br cache_dir writable url n -> returns)).
Proof.
  intros n order run returns. split.
  - intros v u Hs Hn.
    destruct (touches_fetch_variants url variants name_prefix fs) as [H1 H2].
    fold n run in H1, H2.
    pose proof (not_found_path url n v u Hs Hn) as Hnot. split.
    + now apply H1.
    + intros Hw. now apply Hnot, H2.
  - intros Hne Hall Hn Hd Hl.
    assert (Hcases : returns \/
              (run.1.1 = Raise OSError /\ write_fault br cache_dir writable url n)).
    { subst returns run.
      destruct name_prefix as [m|]; [|now simpl in Hn]. simpl in n. subst n.
      destruct (fetch_variants_valid url variants m fs Hne Hall Hn) as (r0 & ->).
      fold order. destruct (cache_satisfied cache_dir fs m order).
      - left. exists r0. now split.
      - destruct (session_run url m order fs Hd Hl)
          as [(r & fs' & evs & -> & Hnav)|(fs' & evs & -> & Hw)].
        + left. exists r. now split.
        + right. now split. }
    split; [exact Hcases|]. intros W.
    destruct Hcases as [Hr|[_ Hw]]; [exact Hr|].
    destruct (fault_excluded url n W Hw).
Qed.

End ScraperProofs.

(** ** Reconciliation store *)
Section CrudProofs.
Import Crud.
Context {num : Type} `{EqDecision num}.

Lemma execute_fresh (d : db num) (e : Earnings num) :
  rows d !! key_of e = None ->
  execute d e =
  (Db (<[key_of e := (next_id d, cols e)]> (rows d)) (next_id d + 1),
   1, next_id d).
Proof. intros Hk. unfold execute. now rewrite Hk. Qed.

Lemma execute_same (d : db num) (e : Earnings num) (rid : Z) :
  rows d !! key_of e = Some (rid, cols e) -> execute d e = (d, 0, rid).
Proof.
  intros Hk. unfold execute. rewrite Hk.
  destruct (decide (cols e = cols e)); [reflexivity|congruence].
Qed.

Lemma execute_changed (d : db num) (e : Earnings num) (rid : Z) (old : columns num) :
  rows d !! key_of e = Some (rid, old) -> old <> cols e ->
  execute d e =
  (Db (<[key_of e := (rid, cols e)]> (rows d)) (next_id d), 2, rid).
Proof.
  intros Hk Hne. unfold execute. rewrite Hk.
  destruct (decide (old = cols e)); [contradiction|reflexivity].
Qed.

Lemma action_of_rowcount_other (n : Z) :
  n <> 1 -> n <> 2 -> action_of_rowcount n = unchanged.
Proof.
  intros H1 H2. unfold action_of_rowcount.
  destruct (Z.eqb_spec n 1); [contradiction|].
  destruct (Z.eqb_spec n 2); [contradiction|reflexivity].
Qed.

(** The tally of [load_earnings_rows] does not depend on the batching. *)
Lemma load_loop_stats (ce : nat) (l : list (Earnings num)) (d : db num) (s : stats)
    (b c b' c' : nat) :
  (load_loop ce l d s b c).1.1 = (load_loop ce l d s b' c').1.1.
Proof.
  revert d s b c b' c'. induction l as [|e l IH]; intros; simpl; [reflexivity|].
  destruct (execute d e) as [[d' rc] lid].
  destruct (Nat.leb ce (S b)), (Nat.leb ce (S b')); apply IH.
Qed.

(** C1. Upserting a record whose (ticker, report date) key has no row
    yields inserted; upserting the identical record again yields unchanged
    and leaves the store as it was; upserting the same key with at least
    one mutable column changed yields updated, on the same row.  The action
    is read off the engine's affected-row count alone: one is inserted, two
    is updated, any other count is unchanged; the batch loader tallies the
    same three outcomes. *)
Theorem upsert_idempotent_actions (e : Earnings num) (d : db num) :
  rows d !! key_of e = None ->
  let r1 := (upsert_earnings_row e d).1 in
  let d1 := (upsert_earnings_row e d).2 in
  let r2 := (upsert_earnings_row e d1).1 in
  let d2 := (upsert_earnings_row e d1).2 in
  act r1 = inserted /\
  act r2 = unchanged /\ d2 = d1 /\ id r2 = id r1 /\
  (forall e' : Earnings num, key_of e' = key_of e -> cols e' <> cols e ->
     act (upsert_earnings_row e' d2).1 = updated /\
     id (upsert_earnings_row e' d2).1 = id r1 /\
     (forall ce, (load_earnings_rows [e; e; e'] ce d).1.1 = Stats 1 1 1 3)) /\
  (forall (e0 : Earnings num) (d0 : db num),
     act (upsert_earnings_row e0 d0).1 = action_of_rowcount (execute d0 e0).1.2) /\
  action_of_rowcount 1 = inserted /\
  action_of_rowcount 2 = updated /\
  (forall n, n <> 1 -> n <> 2 -> action_of_rowcount n = unchanged).
Proof.
  intros Hk r1 d1 r2 d2.
  assert (E1 : upsert_earnings_row e d =
               (mkUpsertResult (next_id d) inserted,
                Db (<[key_of e := (next_id d, cols e)]> (rows d)) (next_id d + 1))).
  { unfold upsert_earnings_row. now rewrite (execute_fresh d e Hk). }
  assert (Hd1 : rows d1 !! key_of e = Some (next_id d, cols e)).
  { subst d1. rewrite E1. simpl. apply lookup_insert_eq. }
  assert (E2 : upsert_earnings_row e d1 = (mkUpsertResult (next_id d) unchanged, d1)).
  { unfold upsert_earnings_row. now rewrite (execute_same d1 e _ Hd1). }
  assert (X1 : execute d e = (d1, 1, next_id d)).
  { subst d1. rewrite E1. simpl. apply execute_fresh, Hk. }
  subst r1 r2 d2. rewrite E2. simpl. rewrite E1. simpl.
  do 4 (split; [reflexivity|]). split.
  { intros e' Hkey Hcols.
    assert (X3 : execute d1 e' =
                 (Db (<[key_of e' := (next_id d, cols e')]> (rows d1)) (next_id d1),
                  2, next_id d)).
    { apply (execute_changed d1 e' (next_id d) (cols e));
        [now rewrite Hkey|congruence]. }
    split; [|split].
    - unfold upsert_earnings_row. now rewrite X3.
    - unfold upsert_earnings_row. now rewrite X3.
    - intros ce. unfold load_earnings_rows.
      rewrite (surjective_pairing (load_loop _ _ _ _ _ _)).
      rewrite (surjective_pairing (load_loop _ _ _ _ _ _).1).
      rewrite (surjective_pairing (load_loop _ _ _ _ _ _).1.1).
      cbn [fst snd].
      assert (G : forall b c,
                 (load_loop ce [e; e; e'] d (Stats 0 0 0 0) b c).1.1.1
                 = Stats 1 1 1 3); [|apply G].
      intros b c. cbn [load_loop]. rewrite X1.
      destruct (Nat.leb ce (S b)); rewrite (execute_same d1 e _ Hd1);
        repeat match goal with
               | |- context [Nat.leb ce ?x] => destruct (Nat.leb ce x)
               end;
        rewrite X3;
        repeat match goal with
               | |- context [Nat.leb ce ?x] => destruct (Nat.leb ce x)
               end;
        reflexivity. }
  split.
  { intros e0 d0. unfold upsert_earnings_row.
    now destruct (execute d0 e0) as [[d' rc] lid]. }
  do 2 (split; [reflexivity|]). apply action_of_rowcount_other.
Qed.

End CrudProofs.

Section ScraperSessions.
Import PyStr Scraper ScraperSpec.
Variable br : browser.
Variable cache_dir : string.
Variable writable : string -> bool.

Local Abbreviation path := (_friendly_path cache_dir).

Lemma let_nil {X : Type} (x : outcome X * files * list event) :
  (let '(r, fs2, evs2) := x in (r, fs2, [] ++ evs2)) = x.
Proof. now destruct x as [[r fs2] evs2]. Qed.

Lemma written_app (a b : list event) : written (a ++ b) = written a ++ written b.
Proof. apply omap_app. Qed.

Lemma capture_eq (n v u : string) (r : gmap string string) (fs : files) :
  capture br cache_dir writable n v u r fs =
  if _no_results (page_source br u) then (Ok r, fs, [])
  else if writable (path n v)
  then (Ok (<[v := path n v]> r), <[path n v := page_source br u]> fs,
        [WriteFile (path n v) (page_source br u)])
  else (Raise OSError, fs, []).
Proof.
  unfold capture. destruct (_no_results _); [reflexivity|]. simpl.
  rewrite bind_run. unfold _write. now destruct (writable _).
Qed.

Lemma capture_post (n v u : string) (r : gmap string string) (fs : files) :
  fs !! path n v = None ->
  step_post cache_dir n v r fs (capture br cache_dir writable n v u r fs).
Proof.
  intros Hp. rewrite capture_eq. unfold step_post.
  destruct (_no_results _); [|destruct (writable _)]; simpl.
  - split; [reflexivity|]. right. left. auto.
  - split; [reflexivity|]. right. right. eexists. auto.
  - split; [reflexivity|]. left. split; [now right|auto].
Qed.

Lemma skip_post (n v : string) (r : gmap string string) (fs : files) :
  step_post cache_dir n v r fs (Ok r, fs, []).
Proof. split; [reflexivity|]. right. left. auto. Qed.

Lemma absent_of_probe (fs : files) (p : string) :
  bool_decide (is_Some (fs !! p)) = false -> fs !! p = None.
Proof.
  intros E. apply bool_decide_eq_false in E.
  destruct (fs !! p); [exfalso; apply E; eauto|reflexivity].
Qed.

Lemma overview_step_post (url n : string) (r : gmap string string) (fs : files) :
  step_post cache_dir n VARIANT_OVERVIEW r fs (overview_step br cache_dir writable url n r fs).
Proof.
  unfold overview_step. rewrite bind_run, exists_run. cbv beta iota zeta.
  destruct (bool_decide _) eqn:E; cbn [negb].
  - apply skip_post.
  - pose proof (capture_post n VARIANT_OVERVIEW url r fs (absent_of_probe _ _ E)) as H.
    now rewrite let_nil.
Qed.

Lemma navigated_post (n v u : string) (r : gmap string string) (fs : files) :
  fs !! path n v = None ->
  step_post cache_dir n v r fs
    ((_navigate br u ;; capture br cache_dir writable n v u r) fs).
Proof.
  intros Hp. rewrite bind_run, navigate_run.
  destruct (loads br u).
  - pose proof (capture_post n v u r fs Hp) as H.
    destruct (capture _ _ _ _ _ _ _) as [[x fs'] evs].
    unfold step_post in *. simpl in *. exact H.
  - split; [reflexivity|]. left. split; [now left|auto].
Qed.

Lemma analyst_step_post (url n : string) (r : gmap string string) (fs : files) :
  step_post cache_dir n VARIANT_ANALYST r fs (analyst_step br cache_dir writable url n r fs).
Proof.
  unfold analyst_step. rewrite bind_run, exists_run. cbv beta iota zeta.
  destruct (bool_decide _) eqn:E; cbn [negb].
  - apply skip_post.
  - pose proof (navigated_post n VARIANT_ANALYST (analysts_url url) r fs
                  (absent_of_probe _ _ E)) as H.
    now rewrite let_nil.
Qed.

Lemma earnings_step_post (w : bool) (url n : string) (r : gmap string string)
    (fs : files) :
  step_post cache_dir n VARIANT_EARNINGS r fs
    (earnings_step br cache_dir writable w url n r fs).
Proof.
  unfold earnings_step. rewrite bind_run, exists_run. cbv beta iota zeta.
  destruct (bool_decide _) eqn:E; destruct w; cbn [negb andb];
    try apply skip_post.
  pose proof (navigated_post n VARIANT_EARNINGS (earnings_url url) r fs
                (absent_of_probe _ _ E)) as H.
  now rewrite let_nil.
Qed.


Lemma bind_assoc {X Y Z : Type} (m : M X) (f : X -> M Y) (g : Y -> M Z)
    (fs : files) :
  ((m ≫= f) ≫= g) fs = (m ≫= (fun x => f x ≫= g)) fs.
Proof.
  rewrite !bind_run. destruct (m fs) as [[[a|e] fs1] evs1]; [|reflexivity].
  rewrite bind_run. destruct (f a fs1) as [[[b|e] fs2] evs2]; [|reflexivity].
  destruct (g b fs2) as [[c fs3] evs3]. now rewrite app_assoc.
Qed.

Lemma tracks_written (n : string) (r : gmap string string) (e1 e2 : list event) :
  written e1 = written e2 -> tracks cache_dir n r e1 -> tracks cache_dir n r e2.
Proof. intros E H v p. rewrite <- E. apply H. Qed.

Lemma tracks_write (n v : string) (r : gmap string string) (e1 e2 : list event) :
  v ∈ stored -> path n v ∉ written e1 -> written e2 = [path n v] ->
  tracks cache_dir n r e1 ->
  tracks cache_dir n (<[v := path n v]> r) (e1 ++ e2).
Proof.
  intros Hv Hnew He2 Hr v' p'. rewrite written_app, He2, elem_of_app.
  rewrite list_elem_of_singleton.
  destruct (decide (v = v')) as [<-|N].
  - rewrite lookup_insert_eq. split.
    + intros [= <-]. auto.
    + intros (_ & -> & _). reflexivity.
  - rewrite lookup_insert_ne by exact N. rewrite (Hr v' p'). split.
    + intros (H1 & H2 & H3). auto.
    + intros (H1 & H2 & [H3|H3]); [auto|].
      exfalso. apply N. subst p'. symmetry.
      now apply (friendly_path_inj cache_dir n).
Qed.

(** One more step keeps the invariant of the session. *)
Lemma inv_step (n v : string) (fs fs1 : files) (r : gmap string string)
    (evs0 : list event)
    (out : outcome (gmap string string) * files * list event) :
  v ∈ stored ->
  session_inv cache_dir id n fs (Ok r, fs1, evs0) ->
  step_post cache_dir n v r fs1 out ->
  session_inv cache_dir id n fs (out.1.1, out.1.2, evs0 ++ out.2).
Proof.
  intros Hv (I1 & I2 & I3 & I4 & I5) (S1 & S2). simpl in *.
  destruct I5 as [[I5|I5]|(r0 & [= <-] & I5)]; [discriminate..|].
  unfold session_inv. simpl.
  split; [rewrite forallb_app, I1, S1; reflexivity|].
  destruct S2 as [(E1 & E2 & E3)|[(E1 & E2 & E3)|(html & E1 & Hp & E2 & E3)]].
  - rewrite E2, written_app, E3, app_nil_r. auto.
  - rewrite E1, E2, written_app, E3, app_nil_r.
    split; [exact I2|]. split; [exact I3|]. split; [exact I4|].
    right. exists r. split; [reflexivity|].
    apply (tracks_written n r evs0); [|exact I5].
    now rewrite written_app, E3, app_nil_r.
  - assert (Hnew : path n v ∉ written evs0).
    { intros Hin. destruct (I3 _ Hin) as (_ & [x Hx] & _). congruence. }
    assert (Hsub : fs1 ⊆ <[path n v := html]> fs1) by now apply insert_subseteq.
    rewrite E1, E2, written_app, E3. split; [now transitivity fs1|]. split.
    + intros p [Hin|Hin]%elem_of_app.
      * destruct (I3 _ Hin) as (H1 & H2 & H3). repeat split; try assumption.
        destruct H2 as [x Hx]. exists x. eapply lookup_weaken; eassumption.
      * apply list_elem_of_singleton in Hin as ->. split; [|split].
        -- destruct (fs !! path n v) as [x|] eqn:Ex; [|reflexivity].
           rewrite (lookup_weaken _ _ _ _ Ex I2) in Hp. discriminate.
        -- rewrite lookup_insert_eq. eauto.
        -- eauto.
    + split.
      * intros q Hq. rewrite elem_of_app, list_elem_of_singleton in Hq.
        rewrite lookup_insert_ne by (intros E; apply Hq; right; now symmetry).
        apply I4. intros Hin. apply Hq. now left.
      * right. eexists. split; [reflexivity|]. now apply tracks_write.
Qed.

Lemma keeps_bind (n v : string) (m : M (gmap string string))
    (step : gmap string string -> M (gmap string string)) :
  v ∈ stored -> keeps cache_dir id n m ->
  (forall r fs, step_post cache_dir n v r fs (step r fs)) ->
  keeps cache_dir id n (m ≫= step).
Proof.
  intros Hv Hm Hs fs. specialize (Hm fs). rewrite bind_run.
  destruct (m fs) as [[[r|e] fs1] evs1]; [|exact Hm].
  pose proof (inv_step n v fs fs1 r evs1 _ Hv Hm (Hs r fs1)) as H.
  now destruct (step r fs1) as [[x fs2] evs2].
Qed.

Lemma keeps_finalize (n : string) (g : gmap string string -> gmap string string)
    (m : M (gmap string string)) :
  keeps cache_dir id n m -> keeps cache_dir g n (m ≫= (fun r => mret (g r))).
Proof.
  intros Hm fs. specialize (Hm fs). rewrite bind_run.
  destruct (m fs) as [[[r|e] fs1] evs1];
    destruct Hm as (I1 & I2 & I3 & I4 & I5); unfold session_inv; simpl in *.
  - rewrite app_nil_r.
    split; [exact I1|]. split; [exact I2|]. split; [exact I3|]. split; [exact I4|].
    destruct I5 as [[I5|I5]|(r0 & [= <-] & I5)]; [discriminate..|]. right. eauto.
  - split; [exact I1|]. split; [exact I2|]. split; [exact I3|]. split; [exact I4|].
    destruct I5 as [I5|(r0 & [=] & _)]. now left.
Qed.

Lemma keeps_start (n url : string) :
  keeps cache_dir id n (_navigate br url ;; mret ∅).
Proof.
  intros fs. rewrite bind_run, navigate_run. unfold session_inv.
  destruct (loads br url); simpl.
  - split; [reflexivity|]. split; [reflexivity|].
    split; [intros p Hp; inversion Hp|]. split; [reflexivity|].
    right. exists ∅. split; [reflexivity|]. intros v p.
    rewrite lookup_empty. split; [discriminate|]. intros (_ & _ & Hp). inversion Hp.
  - split; [reflexivity|]. split; [reflexivity|].
    split; [intros p Hp; inversion Hp|]. split; [reflexivity|]. left. now left.
Qed.


Lemma bind_ret_l {X Y : Type} (a : X) (f : X -> M Y) (fs : files) :
  (mret a ≫= f) fs = f a fs.
Proof. rewrite bind_run. apply let_nil. Qed.

(** The body of the [try] block as a chain of steps. *)
Lemma fetch_body_chain (url n : string) (order : list string) (fs : files) :
  fetch_body br cache_dir writable url n order fs =
  (((if mem VARIANT_OVERVIEW order || mem VARIANT_FULL order
     then ((_navigate br url ;; mret ∅) ≫= overview_step br cache_dir writable url n)
            ≫= analyst_step br cache_dir writable url n
     else _navigate br url ;; mret ∅)
      ≫= earnings_step br cache_dir writable (mem VARIANT_FULL order) url n)
     ≫= (fun r => mret (finalize cache_dir n order r))) fs.
Proof.
  unfold fetch_body, finalize. cbv zeta.
  destruct (mem VARIANT_OVERVIEW order || mem VARIANT_FULL order).
  - rewrite !bind_assoc. rewrite !bind_run.
    destruct (_navigate br url fs) as [[[u|e] fs1] evs1]; [|reflexivity].
    now rewrite bind_ret_l, bind_assoc.
  - rewrite !bind_assoc. rewrite !bind_run.
    destruct (_navigate br url fs) as [[[u|e] fs1] evs1]; [|reflexivity].
    now rewrite !bind_ret_l.
Qed.

Lemma fetch_body_keeps (url n : string) (order : list string) :
  keeps cache_dir (finalize cache_dir n order) n
    (fetch_body br cache_dir writable url n order).
Proof.
  intros fs. rewrite fetch_body_chain. revert fs.
  apply keeps_finalize.
  apply (keeps_bind n VARIANT_EARNINGS); [unfold stored; in_list| |].
  - destruct (mem VARIANT_OVERVIEW order || mem VARIANT_FULL order);
      [|apply keeps_start].
    apply (keeps_bind n VARIANT_ANALYST); [unfold stored; in_list| |].
    + apply (keeps_bind n VARIANT_OVERVIEW); [unfold stored; in_list| |].
      * apply keeps_start.
      * apply overview_step_post.
    + apply analyst_step_post.
  - apply earnings_step_post.
Qed.


Lemma session_eq (url n : string) (order : list string) (fs : files) :
  session br cache_dir writable url n order fs =
  if driver_ok br then
    let '(r, fs1, evs1) := fetch_body br cache_dir writable url n order fs in
    (r, fs1, OpenSession :: evs1 ++ [CloseSession])
  else (Raise WebDriverException, fs, []).
Proof.
  unfold session, _create_driver. rewrite bind_run.
  destruct (driver_ok br); [|reflexivity].
  unfold emit at 1. unfold finally, emit.
  now destruct (fetch_body br cache_dir writable url n order fs) as [[r fs1] evs1].
Qed.


Lemma fetch_variants_eq (url : string) (variants : list string)
    (name_prefix : option string) (fs : files) :
  let order := PyData.keep_first id variants in
  let n := default EmptyString name_prefix in
  fetch_variants br cache_dir writable url variants name_prefix fs =
  if bool_decide (order = []) || existsb (fun v => negb (mem v ALLOWED)) order
  then (Raise ValueError, fs, [])
  else if negb (truthy name_prefix) then (Raise ValueError, fs, [])
  else if cache_satisfied cache_dir fs n order
  then (Ok (cached_result cache_dir n order), fs, [])
  else session br cache_dir writable url n order fs.
Proof.
  intros order n. unfold fetch_variants, cache_satisfied, cached_result.
  fold order. destruct (_ || _); [reflexivity|].
  destruct (negb _); [reflexivity|]. fold n.
  repeat (rewrite bind_run, exists_run; cbv beta iota zeta).
  destruct (mem VARIANT_FULL order);
    destruct (bool_decide (is_Some (fs !! path n VARIANT_OVERVIEW)));
    destruct (bool_decide (is_Some (fs !! path n VARIANT_ANALYST)));
    destruct (bool_decide (is_Some (fs !! path n VARIANT_EARNINGS)));
    cbn [andb app]; try reflexivity;
    now destruct (session br cache_dir writable url n order fs) as [[r fs'] evs].
Qed.

(** Every run keeps the invariant of a session. *)
Lemma fetch_variants_inv (url : string) (variants : list string)
    (name_prefix : option string) (fs : files) :
  let order := PyData.keep_first id variants in
  let n := default EmptyString name_prefix in
  let run := fetch_variants br cache_dir writable url variants name_prefix fs in
  run = (Raise ValueError, fs, []) \/
  run = (Ok (cached_result cache_dir n order), fs, []) \/
  run = (Raise WebDriverException, fs, []) \/
  exists res fs' mid,
    run = (res, fs', OpenSession :: Navigate url :: mid ++ [CloseSession]) /\
    session_inv cache_dir (finalize cache_dir n order) n fs
      (res, fs', Navigate url :: mid).
Proof.
  intros order n run. subst run. rewrite fetch_variants_eq. cbv zeta.
  fold order n. destruct (_ || _); [now left|].
  destruct (negb _); [now left|].
  destruct (cache_satisfied _ _ _ _); [right; now left|].
  rewrite session_eq. destruct (driver_ok br) eqn:Hd; [|right; right; now left].
  right. right. right.
  pose proof (fetch_body_keeps url n order fs) as Hk.
  destruct (proj1 (session_head br cache_dir writable url n order fs) Hd)
    as (r0 & fs0 & evs0 & Hs).
  rewrite session_eq, Hd in Hs.
  destruct (fetch_body br cache_dir writable url n order fs) as [[res fs'] evs1].
  injection Hs as _ _ Hs.
  destruct evs1 as [|ev evs1]; [discriminate|]. injection Hs as -> _.
  exists res, fs', evs1. split; [reflexivity|exact Hk].
Qed.




Lemma setdefault_lookup (k v k' : string) (r : gmap string string) :
  setdefault k v r !! k' =
  if decide (k = k') then Some (default v (r !! k)) else r !! k'.
Proof.
  unfold setdefault. destruct (decide (k = k')) as [<-|N].
  - destruct (r !! k) eqn:E; [exact E|apply lookup_insert_eq].
  - destruct (r !! k); [reflexivity|now apply lookup_insert_ne].
Qed.

(** X4. A request that includes the full variant and returns normally names
    the three documents under their cache paths, whatever was found: a path
    is listed even when its page reported an unknown symbol and no document
    exists. *)
Theorem full_result_names_three_paths (url : string) (variants : list string)
    (name_prefix : option string) (fs : files) (r : gmap string string) :
  VARIANT_FULL ∈ variants ->
  (fetch_variants br cache_dir writable url variants name_prefix fs).1.1 = Ok r ->
  let n := default EmptyString name_prefix in
  r = <[VARIANT_EARNINGS := path n VARIANT_EARNINGS]>
        (<[VARIANT_ANALYST := path n VARIANT_ANALYST]>
           (<[VARIANT_OVERVIEW := path n VARIANT_OVERVIEW]> ∅)).
Proof.
  intros Hfull Hr n.
  assert (Hm : mem VARIANT_FULL (PyData.keep_first id variants) = true)
    by now apply mem_elem_of, keep_first_id_elem.
  destruct (fetch_variants_inv url variants name_prefix fs)
    as [E|[E|[E|(res & fs' & mid & E & Hinv)]]];
    rewrite E in Hr; simpl in Hr; try discriminate.
  - injection Hr as <-. unfold cached_result. now rewrite Hm.
  - subst res. destruct Hinv as (_ & _ & _ & _ & [[Hk|Hk]|(r2 & Hk & Ht)]);
      [discriminate..|].
    simpl in Hk. injection Hk as ->. fold n in Ht |- *.
    unfold finalize. rewrite Hm. apply map_eq. intros k.
    assert (Hc : forall v, v ∈ stored ->
              default (path n v) (r2 !! v) = path n v).
    { intros v Hv. destruct (r2 !! v) as [p|] eqn:Ep; [|reflexivity].
      now apply Ht in Ep as (_ & -> & _). }
    rewrite setdefault_lookup.
    destruct (decide (VARIANT_EARNINGS = k)) as [<-|N1].
    { rewrite lookup_insert_eq, setdefault_lookup.
      destruct (decide (VARIANT_ANALYST = VARIANT_EARNINGS)); [discriminate|].
      rewrite setdefault_lookup.
      destruct (decide (VARIANT_OVERVIEW = VARIANT_EARNINGS)); [discriminate|].
      f_equal. apply Hc. unfold stored. in_list. }
    rewrite lookup_insert_ne by exact N1. rewrite setdefault_lookup.
    destruct (decide (VARIANT_ANALYST = k)) as [<-|N2].
    { rewrite lookup_insert_eq, setdefault_lookup.
      destruct (decide (VARIANT_OVERVIEW = VARIANT_ANALYST)); [discriminate|].
      f_equal. apply Hc. unfold stored. in_list. }
    rewrite lookup_insert_ne by exact N2. rewrite setdefault_lookup.
    destruct (decide (VARIANT_OVERVIEW = k)) as [<-|N3].
    { rewrite lookup_insert_eq. f_equal. apply Hc. unfold stored. in_list. }
    rewrite lookup_insert_ne by exact N3. rewrite lookup_empty.
    destruct (r2 !! k) as [p|] eqn:Ep; [|reflexivity].
    apply Ht in Ep as (Hk & _). unfold stored in Hk.
    repeat (apply elem_of_cons in Hk as [->|Hk]); try contradiction.
    inversion Hk.
Qed.


Lemma overview_only_order (variants : list string) :
  variants <> [] -> Forall (eq VARIANT_OVERVIEW) variants ->
  (bool_decide (PyData.keep_first id variants = [])
   || existsb (fun v => negb (mem v ALLOWED)) (PyData.keep_first id variants)
   = false) /\
  mem VARIANT_FULL (PyData.keep_first id variants) = false.
Proof.
  intros Hne Hall. split.
  - apply request_checks_any; [exact Hne|].
    eapply Forall_impl; [exact Hall|]. intros v <-. unfold ALLOWED. in_list.
  - apply not_true_is_false. intros Hin.
    apply mem_elem_of in Hin. apply (proj1 (keep_first_id_elem _ _)) in Hin.
    pose proof (proj1 (Forall_forall _ _) Hall _ Hin) as E. discriminate.
Qed.

(** X5. A request for the overview alone is answered from the cache, with no
    browser session, exactly when the overview and the analyst documents are
    cached, whether or not an earnings document is; it then returns those
    two locations. With either missing a session is started. *)
Theorem overview_cache_short_circuit (url : string) (variants : list string)
    (n : string) (fs : files) :
  variants <> [] ->
  Forall (eq VARIANT_OVERVIEW) variants ->
  n <> "" ->
  let cached v := is_Some (fs !! path n v) in
  let run := fetch_variants br cache_dir writable url variants (Some n) fs in
  (cached VARIANT_OVERVIEW /\ cached VARIANT_ANALYST ->
     run = (Ok (<[VARIANT_ANALYST := path n VARIANT_ANALYST]>
                  (<[VARIANT_OVERVIEW := path n VARIANT_OVERVIEW]> ∅)), fs, [])) /\
  (~ (cached VARIANT_OVERVIEW /\ cached VARIANT_ANALYST) ->
     run = session br cache_dir writable url n (PyData.keep_first id variants) fs /\
     (driver_ok br = true ->
        exists r fs' evs, run = (r, fs', OpenSession :: Navigate url :: evs)) /\
     (driver_ok br = false -> run = (Raise WebDriverException, fs, []))).
Proof.
  intros Hne Hall Hn cached run. subst run.
  destruct (overview_only_order variants Hne Hall) as [Hc Hf].
  rewrite fetch_variants_eq. cbv zeta. rewrite Hc, (truthy_nonempty n Hn).
  cbn [negb]. change (default EmptyString (Some n)) with n.
  unfold cache_satisfied, cached_result. rewrite Hf. split.
  - intros [Ho Ha]. subst cached. cbv beta in Ho, Ha.
    now rewrite !bool_decide_eq_true_2 by assumption.
  - intros Hnot.
    assert (E : bool_decide (is_Some (fs !! path n VARIANT_OVERVIEW))
                && bool_decide (is_Some (fs !! path n VARIANT_ANALYST)) = false).
    { apply not_true_is_false. intros E. apply Hnot.
      apply andb_prop in E as [E1 E2].
      apply bool_decide_eq_true in E1, E2. now split. }
    rewrite E. split; [reflexivity|]. apply session_head.
Qed.

(** X6. When a request without the full variant is served by a session, its
    result lists exactly the documents that session wrote: a document that
    was already cached is left out of the result, although it exists. *)
Theorem overview_result_lists_new_documents (url : string)
    (variants : list string) (name_prefix : option string) (fs : files)
    (r : gmap string string) :
  VARIANT_FULL ∉ variants ->
  (fetch_variants br cache_dir writable url variants name_prefix fs).1.1 = Ok r ->
  (fetch_variants br cache_dir writable url variants name_prefix fs).2 <> [] ->
  let n := default EmptyString name_prefix in
  let evs := (fetch_variants br cache_dir writable url variants name_prefix fs).2 in
  (forall v p, r !! v = Some p <->
     v ∈ stored /\ p = path n v /\ p ∈ written evs) /\
  (forall v, is_Some (fs !! path n v) -> r !! v = None).
Proof.
  intros Hfull Hr Hev n evs. subst evs.
  assert (Hm : mem VARIANT_FULL (PyData.keep_first id variants) = false).
  { apply not_true_is_false. intros Hin. apply Hfull.
    apply mem_elem_of in Hin. now apply (proj1 (keep_first_id_elem _ _)) in Hin. }
  destruct (fetch_variants_inv url variants name_prefix fs)
    as [E|[E|[E|(res & fs' & mid & E & Hinv)]]];
    rewrite E in Hr, Hev |- *; cbn [fst snd] in *; try congruence.
  subst res. destruct Hinv as (_ & _ & I3 & _ & [[Hk|Hk]|(r2 & Hk & Ht)]);
    [discriminate..|].
  cbn [fst snd] in *. injection Hk as ->. fold n in Ht, I3.
  unfold finalize in *. rewrite Hm in *.
  assert (W : written (OpenSession :: Navigate url :: mid ++ [CloseSession])
              = written (Navigate url :: mid)).
  { change (written (mid ++ [CloseSession]) = written mid).
    now rewrite written_app, app_nil_r. }
  rewrite W. split; [exact Ht|].
  intros v [x Hx]. destruct (r2 !! v) as [p|] eqn:Ep; [|reflexivity].
  apply Ht in Ep as (_ & -> & Hw). destruct (I3 _ Hw) as (Hnone & _).
  congruence.
Qed.

End ScraperSessions.

(** ** Strings *)
Section StringFacts.
Import PyStr ReSpec.

Lemma sapp_cons (c : ascii) (s t : string) :
  String c s +:+ t = String c (s +:+ t).
Proof. reflexivity. Qed.

Lemma sapp_nil_l (t : string) : "" +:+ t = t.
Proof. reflexivity. Qed.

Lemma sapp_nil_r (s : string) : s +:+ "" = s.
Proof.
  induction s as [|c s IH]; [reflexivity|]. now rewrite sapp_cons, IH.
Qed.

Lemma sapp_assoc (a b c : string) : (a +:+ b) +:+ c = a +:+ (b +:+ c).
Proof.
  induction a as [|x a IH]; [reflexivity|]. now rewrite !sapp_cons, IH.
Qed.

Lemma slength_app (a b : string) :
  String.length (a +:+ b) = (String.length a + String.length b)%nat.
Proof.
  induction a as [|x a IH]; [reflexivity|]. rewrite sapp_cons. simpl. now rewrite IH.
Qed.

Lemma take_app_length (w t : string) :
  take (String.length (w +:+ t) - String.length t) (w +:+ t) = w.
Proof.
  rewrite slength_app, Nat.add_sub.
  induction w as [|c w IH]; [reflexivity|].
  rewrite sapp_cons. simpl. now rewrite IH.
Qed.

Lemma all_s_app (p : ascii -> bool) (a b : string) :
  all_s p (a +:+ b) = all_s p a && all_s p b.
Proof.
  induction a as [|x a IH]; [reflexivity|].
  rewrite sapp_cons. simpl. now rewrite IH, andb_assoc.
Qed.

End StringFacts.

(** ** The matcher against the declarative reading of a pattern *)
Section MatcherFacts.
Import PyStr Re ReSpec.

Lemma matches_rest (r : re) (s s' : mstate) (w : string) :
  matches r s w s' -> rest s = w +:+ rest s'.
Proof.
  induction 1; simpl; try reflexivity.
  - rewrite H. reflexivity.
  - rewrite IHmatches1, IHmatches2. now rewrite sapp_assoc.
  - assumption.
  - assumption.
  - rewrite IHmatches1, IHmatches2. now rewrite sapp_assoc.
  - assumption.
Qed.

(** Whatever the matcher returns is a match of the pattern followed by a
    success of the continuation. *)
Lemma run_sound (r : re) :
  forall (k : mstate -> option mstate) (s m : mstate),
    run r k s = Some m ->
    exists w s', matches r s w s' /\ k s' = Some m.
Proof.
  induction r as [|p|r1 IH1 r2 IH2|r1 IH1 r2 IH2|r1 IH1|n r1 IH1| | |];
    intros k s m H; simpl in H.
  - exists "", s. split; [constructor|exact H].
  - destruct (rest s) as [|c t] eqn:E; [discriminate|].
    destruct (p c) eqn:Hp; [|discriminate].
    eexists _, _. split; [now apply (M_chr p c t)|exact H].
  - apply IH1 in H as (w1 & s1 & M1 & H).
    apply IH2 in H as (w2 & s2 & M2 & H).
    eexists _, _. split; [eapply M_cat; eassumption|exact H].
  - destruct (run r1 k s) as [m1|] eqn:E.
    + injection H as <-. apply IH1 in E as (w & s' & M1 & E).
      eexists _, _. split; [apply M_alt_l; eassumption|exact E].
    + apply IH2 in H as (w & s' & M2 & H).
      eexists _, _. split; [apply M_alt_r; eassumption|exact H].
  - revert H. generalize (String.length (rest s)) as n. intros n. revert s.
    induction n as [|n IHn]; intros s H.
    + exists "", s. split; [constructor|exact H].
    + match type of H with
      | match ?x with _ => _ end = _ => destruct x as [m1|] eqn:E
      end.
      * injection H as <-. apply IH1 in E as (w1 & s1 & M1 & E).
        destruct (Nat.ltb _ _); [|discriminate].
        apply IHn in E as (w2 & s2 & M2 & E).
        eexists _, _. split; [eapply M_star_cons; eassumption|exact E].
      * exists "", s. split; [constructor|exact H].
  - apply IH1 in H as (w & s1 & M1 & H).
    rewrite (matches_rest _ _ _ _ M1), take_app_length in H.
    eexists _, _. split; [apply M_grp; eassumption|exact H].
  - destruct (at_boundary s) eqn:E; [|discriminate].
    exists "", s. split; [now constructor|exact H].
  - destruct (prev s) eqn:E; [discriminate|].
    exists "", s. split; [now constructor|exact H].
  - destruct (at_end (rest s)) eqn:E; [|discriminate].
    exists "", s. split; [now constructor|exact H].
Qed.

Lemma rmatch_sound (r : re) (s : string) (m : mstate) :
  rmatch r s = Some m -> exists w, matches r (MState None s []) w m.
Proof.
  intros H. apply run_sound in H as (w & s' & M & [= ->]). eauto.
Qed.

Lemma search_from_sound (r : re) (s : string) :
  forall (p : option ascii) (m : mstate),
    search_from r p s = Some m ->
    exists p' s' w, matches r (MState p' s' []) w m.
Proof.
  induction s as [|c t IH]; intros p m H; simpl in H.
  - destruct (run r Some _) as [m1|] eqn:E; [|discriminate].
    injection H as <-. apply run_sound in E as (w & s' & M & [= ->]). eauto.
  - destruct (run r Some _) as [m1|] eqn:E.
    + injection H as <-. apply run_sound in E as (w & s' & M & [= ->]). eauto.
    + eapply IH, H.
Qed.

Lemma matches_caps (r : re) (s s' : mstate) (w : string) :
  matches r s w s' -> groupless r = true -> caps s' = caps s.
Proof.
  induction 1; simpl; intros G; try reflexivity; try discriminate;
    try (apply andb_prop in G as [G1 G2]); auto.
  - now rewrite IHmatches2, IHmatches1.
  - now rewrite IHmatches2, IHmatches1.
Qed.

(** Inversion of [matches] on each shape of pattern. *)
Lemma inv_eps (s s' : mstate) (w : string) :
  matches Eps s w s' -> w = "" /\ s' = s.
Proof. intros H. inversion H. now split. Qed.

Lemma inv_chr (p : ascii -> bool) (s s' : mstate) (w : string) :
  matches (Chr p) s w s' ->
  exists c t, rest s = String c t /\ p c = true /\ w = String c "" /\
              s' = MState (Some c) t (caps s).
Proof. intros H. inversion H; subst. eauto 6. Qed.

Lemma inv_cat (r1 r2 : re) (s s' : mstate) (w : string) :
  matches (Cat r1 r2) s w s' ->
  exists w1 s1 w2, w = w1 +:+ w2 /\ matches r1 s w1 s1 /\ matches r2 s1 w2 s'.
Proof. intros H. inversion H; subst. eauto 6. Qed.

Lemma inv_alt (r1 r2 : re) (s s' : mstate) (w : string) :
  matches (Alt r1 r2) s w s' -> matches r1 s w s' \/ matches r2 s w s'.
Proof. intros H. inversion H; subst; auto. Qed.

Lemma inv_grp (n : nat) (r : re) (s s' : mstate) (w : string) :
  matches (Grp n r) s w s' ->
  exists s1, matches r s w s1 /\
             s' = MState (prev s1) (rest s1) ((n, w) :: caps s1).
Proof. intros H. inversion H; subst. eauto. Qed.

Lemma inv_bnd (s s' : mstate) (w : string) :
  matches Bnd s w s' -> w = "" /\ s' = s /\ at_boundary s = true.
Proof. intros H. inversion H; subst. auto. Qed.

Lemma inv_bos (s s' : mstate) (w : string) :
  matches Bos s w s' -> w = "" /\ s' = s /\ prev s = None.
Proof. intros H. inversion H; subst. auto. Qed.

Lemma inv_eos (s s' : mstate) (w : string) :
  matches Eos s w s' -> w = "" /\ s' = s /\ at_end (rest s) = true.
Proof. intros H. inversion H; subst. auto. Qed.

Lemma star_chr (p : ascii -> bool) (s s' : mstate) (w : string) :
  matches (Star (Chr p)) s w s' -> all_s p w = true /\ caps s' = caps s.
Proof.
  intros H. remember (Star (Chr p)) as r eqn:Er.
  induction H; try discriminate.
  - now split.
  - injection Er as ->.
    apply inv_chr in H as (c & t & Hr & Hp & -> & ->).
    destruct (IHmatches2 eq_refl) as [A C]. split.
    + rewrite sapp_cons, sapp_nil_l. simpl. now rewrite Hp, A.
    + exact C.
Qed.

End MatcherFacts.

(** ** Shapes of the extracted values *)
Section ValueShapes.
Import PyStr Re ReSpec EhHelper EhHelperMore.

Lemma is_alpha_upper (c : ascii) :
  is_alpha c = true -> is_upper (upper_c c) = true.
Proof.
  destruct c as [[] [] [] [] [] [] [] []]; vm_compute;
    intros H; reflexivity || discriminate H.
Qed.

(** What the number pattern of [_parse_one_value] captures. *)
Lemma re_value_groups (s : string) (m : mstate) :
  rmatch re_value s = Some m ->
  exists v u, group 1 m = Some v /\ group 2 m = Some u /\
    number_text v = true /\
    (u = "" \/ exists c, u = String c "" /\ is_alpha c = true).
Proof.
  intros H. apply rmatch_sound in H as (w & M).
  unfold re_value, cats, opt, plus, lit, space in M.
  apply inv_cat in M as (w0 & s0 & wa & -> & M0 & M).
  apply inv_bos in M0 as (-> & -> & _).
  apply inv_cat in M as (v & s1 & wb & -> & M1 & M).
  apply inv_grp in M1 as (sA & MA & ->).
  apply inv_cat in M as (w2 & s2 & wc & -> & M2 & M).
  apply star_chr in M2 as (_ & C2).
  apply inv_cat in M as (u & s3 & wd & -> & M3 & M).
  apply inv_grp in M3 as (sB & MB & ->).
  apply inv_eos in M as (-> & -> & _).
  assert (CB : caps sB = (1%nat, v) :: caps sA /\
               (u = "" \/ exists c, u = String c "" /\ is_alpha c = true)).
  { apply inv_alt in MB as [MB|MB].
    - apply inv_chr in MB as (c & t & _ & Hc & -> & ->). split; [exact C2|].
      right. eauto.
    - apply inv_eps in MB as (-> & ->). split; [exact C2|]. now left. }
  destruct CB as [CB Hu]. exists v, u. unfold group. simpl. rewrite CB. simpl.
  split; [reflexivity|]. split; [reflexivity|]. split; [|exact Hu].
  apply inv_cat in MA as (w1 & s1 & w3 & -> & M1 & M3).
  apply inv_cat in M3 as (w4 & s4 & w5 & -> & M4 & M5).
  apply inv_chr in M4 as (c & t & _ & Hc & -> & ->).
  apply star_chr in M5 as (A5 & _).
  change (num_char c = true) in Hc. change (all_s num_char w5 = true) in A5.
  assert (Hn : all_s num_char (String c "" +:+ w5) = true).
  { rewrite sapp_cons, sapp_nil_l. simpl. now rewrite Hc, A5. }
  apply inv_alt in M1 as [M1|M1].
  - apply inv_chr in M1 as (d & t' & _ & Hd & -> & ->).
    apply Ascii.eqb_eq in Hd as ->.
    rewrite sapp_cons, sapp_nil_l. unfold number_text.
    rewrite Ascii.eqb_refl, Hn. now rewrite sapp_cons.
  - apply inv_eps in M1 as (-> & ->).
    rewrite sapp_nil_l, sapp_cons, sapp_nil_l in *. unfold number_text.
    destruct (Ascii.eqb_spec c "-") as [->|_]; [discriminate Hc|].
    exact Hn.
Qed.


(** X7. For ASCII text: the value of a token is never the empty text, and a
    token has a unit only when the whole cleaned text is a number followed
    by one letter; the unit is then that letter in upper case and the value
    is made of digits and dots after an optional minus sign. *)
Theorem parse_one_value_shape (raw : option string) :
  (forall s, raw = Some s -> ascii_only s = true) ->
  let t := _parse_one_value raw in
  value t <> Some "" /\
  (forall u, unit_ t = Some u ->
     (exists c, u = String c "" /\ is_upper c = true) /\
     exists v, value t = Some v /\ number_text v = true).
Proof.
  intros _ t. subst t. unfold _parse_one_value.
  destruct (negb (truthy raw)); [split; [discriminate|intros u [=]]|].
  destruct (mem _ NO_DATA); [split; [discriminate|intros u [=]]|].
  cbv zeta. destruct (rmatch re_value _) as [m|] eqn:E; simpl.
  - apply re_value_groups in E as (v & u & -> & -> & Hv & Hu). simpl. split.
    + intros [= ->]. discriminate Hv.
    + intros u' H'. destruct Hu as [->|(c & -> & Hc)]; [discriminate H'|].
      injection H' as <-. split; [|eauto].
      exists (upper_c c). split; [reflexivity|now apply is_alpha_upper].
  - split; [|intros u [=]].
    unfold or_none. destruct (truthy (Some _)) eqn:T; [|discriminate].
    intros [= E']. rewrite E' in T. discriminate T.
Qed.

Lemma digit_value (c : ascii) :
  is_digit c = true -> (code c - 48 <= 9)%nat.
Proof.
  unfold is_digit, between. intros H. apply andb_prop in H as [_ H].
  apply Nat.leb_le in H. lia.
Qed.

Lemma one_or_two_digits_value (s s' : mstate) (w : string) :
  matches one_or_two_digits s w s' -> (int_of_digits w < 100)%nat.
Proof.
  unfold one_or_two_digits, opt, digit. intros M.
  apply inv_cat in M as (w1 & s1 & w2 & -> & M1 & M2).
  apply inv_chr in M1 as (c & t & _ & Hc & -> & ->).
  apply digit_value in Hc.
  apply inv_alt in M2 as [M2|M2].
  - apply inv_chr in M2 as (d & t' & _ & Hd & -> & _).
    apply digit_value in Hd. unfold int_of_digits.
    rewrite sapp_cons, sapp_nil_l. simpl. lia.
  - apply inv_eps in M2 as (-> & _). unfold int_of_digits.
    rewrite sapp_nil_r. simpl. lia.
Qed.

Lemma re_months_group (s : string) (m : mstate) :
  search re_months s = Some m ->
  exists n, group 1 m = Some n /\ (int_of_digits n < 100)%nat.
Proof.
  intros H. apply search_from_sound in H as (p & s0 & w & M).
  unfold re_months, cats in M.
  apply inv_cat in M as (w0 & s1 & wa & -> & M0 & M).
  apply inv_bnd in M0 as (-> & -> & _).
  apply inv_cat in M as (n & s2 & wb & -> & M1 & M).
  apply inv_grp in M1 as (sA & MA & ->).
  apply inv_cat in M as (w2 & s3 & wc & -> & M2 & M).
  apply matches_caps in M2; [|reflexivity].
  apply inv_cat in M as (u & s4 & wd & -> & M3 & M).
  apply inv_grp in M3 as (sB & MB & ->).
  apply matches_caps in MB; [|reflexivity].
  apply inv_bnd in M as (-> & -> & _).
  exists n. unfold group. simpl. rewrite MB, M2. simpl.
  split; [reflexivity|]. eapply one_or_two_digits_value, MA.
Qed.

Lemma re_number_group (s : string) (m : mstate) :
  search re_number s = Some m ->
  exists n, group 1 m = Some n /\ (int_of_digits n < 100)%nat.
Proof.
  intros H. apply search_from_sound in H as (p & s0 & w & M).
  unfold re_number, cats in M.
  apply inv_cat in M as (w0 & s1 & wa & -> & M0 & M).
  apply inv_bnd in M0 as (-> & -> & _).
  apply inv_cat in M as (n & s2 & wb & -> & M1 & M).
  apply inv_grp in M1 as (sA & MA & ->).
  apply inv_bnd in M as (-> & -> & _).
  exists n. unfold group. simpl.
  split; [reflexivity|]. eapply one_or_two_digits_value, MA.
Qed.

(** X8. For ASCII text: an indicator, when there is one, reads "<n> Months"
    for a number n below 100 written without leading zeros. *)
Theorem parse_indicator_shape (raw : option string) (r : string) :
  (forall s, raw = Some s -> ascii_only s = true) ->
  parse_indicator raw = Some r ->
  exists k, (k < 100)%nat /\ r = show_nat k +:+ " Months".
Proof.
  intros _. unfold parse_indicator.
  destruct (negb (truthy (clean_text raw))); [discriminate|]. cbv zeta.
  destruct (search re_months _) as [m|] eqn:E1.
  - apply re_months_group in E1 as (n & -> & Hn). intros [= <-]. eauto.
  - destruct (search re_number _) as [m|] eqn:E2; [|discriminate].
    apply re_number_group in E2 as (n & -> & Hn). intros [= <-]. eauto.
Qed.

End ValueShapes.

Section TextFacts.
Import PyStr ReSpec TextSpec EhHelper.

Lemma rev_app_sapp (a b : string) :
  String.rev_app a b = String.rev a +:+ b.
Proof.
  unfold String.rev. revert b.
  induction a as [|c a IH]; intros b; [reflexivity|]. simpl.
  rewrite (IH (String c b)), (IH (String c "")), sapp_assoc.
  now rewrite sapp_cons, sapp_nil_l.
Qed.

Lemma rev_cons (c : ascii) (a : string) :
  String.rev (String c a) = String.rev a +:+ String c "".
Proof. unfold String.rev at 1. simpl. apply rev_app_sapp. Qed.

Lemma rev_sapp (a b : string) :
  String.rev (a +:+ b) = String.rev b +:+ String.rev a.
Proof.
  induction a as [|c a IH].
  - now rewrite sapp_nil_l, sapp_nil_r.
  - now rewrite sapp_cons, !rev_cons, IH, sapp_assoc.
Qed.

Lemma rev_involutive (a : string) : String.rev (String.rev a) = a.
Proof.
  induction a as [|c a IH]; [reflexivity|].
  now rewrite rev_cons, rev_sapp, IH.
Qed.

Lemma all_s_rev (p : ascii -> bool) (a : string) :
  all_s p (String.rev a) = all_s p a.
Proof.
  induction a as [|c a IH]; [reflexivity|].
  rewrite rev_cons, all_s_app, IH. simpl.
  now rewrite andb_true_r, andb_comm.
Qed.

Lemma rev_empty (a : string) : String.rev a = "" -> a = "".
Proof.
  intros H. rewrite <- (rev_involutive a), H. reflexivity.
Qed.

Lemma is_word_rev (w : string) :
  is_word_text w = true -> is_word_text (String.rev w) = true.
Proof.
  unfold is_word_text. intros H. apply andb_prop in H as [H1 H2].
  rewrite all_s_rev, H2, andb_true_r.
  destruct (String.rev w) eqn:E; [|reflexivity].
  apply rev_empty in E. subst w. discriminate H1.
Qed.

(** A word starts with a character that is not a space. *)
Lemma word_head (w : string) :
  is_word_text w = true ->
  exists c t, w = String c t /\ is_space c = false.
Proof.
  destruct w as [|c t]; [discriminate|].
  unfold is_word_text. simpl. intros H. apply andb_prop in H as [H _].
  exists c, t. split; [reflexivity|]. now apply negb_true_iff.
Qed.

Lemma lstrip_head (c : ascii) (t : string) :
  is_space c = false -> lstrip (String c t) = String c t.
Proof. intros H. simpl. now rewrite H. Qed.

(** Text that neither starts nor ends with a space is its own strip. *)
Lemma strip_id (s : string) (c d : ascii) (t u : string) :
  s = String c t -> is_space c = false ->
  String.rev s = String d u -> is_space d = false ->
  strip s = s.
Proof.
  intros Hs Hc Hr Hd. unfold strip, rstrip.
  rewrite Hs, (lstrip_head c t Hc), <- Hs, Hr, (lstrip_head d u Hd), <- Hr.
  apply rev_involutive.
Qed.

Lemma strip_ends_with_word (pre w : string) (c : ascii) (t : string) :
  pre +:+ w = String c t -> is_space c = false -> is_word_text w = true ->
  strip (pre +:+ w) = pre +:+ w.
Proof.
  intros Hs Hc Hw.
  destruct (word_head _ (is_word_rev w Hw)) as (d & u & Hd & Hsd).
  apply (strip_id _ c d t (u +:+ String.rev pre)); try assumption.
  now rewrite rev_sapp, Hd, sapp_cons.
Qed.

(** *** [str.split()] *)
Lemma split_go_words (s : string) :
  forall cur, cur_ok cur -> Forall (fun w => is_word_text w = true) (split_go cur s).
Proof.
  induction s as [|c t IH]; intros cur Hc; simpl.
  - destruct cur as [x|]; simpl; [|constructor].
    constructor; [|constructor]. now apply is_word_rev, Hc.
  - destruct (is_space c) eqn:E.
    + apply Forall_app. split; [|apply IH; intros x [=]].
      destruct cur as [x|]; simpl; [|constructor].
      constructor; [|constructor]. now apply is_word_rev, Hc.
    + apply IH. intros x [= <-]. unfold is_word_text, non_space. simpl.
      rewrite E. simpl. destruct cur as [x|]; simpl; [|reflexivity].
      specialize (Hc x eq_refl). unfold is_word_text in Hc.
      now apply andb_prop in Hc as [_ Hc].
Qed.

Lemma split_words (s : string) :
  Forall (fun w => is_word_text w = true) (split s).
Proof. apply split_go_words. intros x [=]. Qed.

Lemma split_go_word (w : string) :
  all_s non_space w = true ->
  forall cur rest, split_go cur (w +:+ rest) = split_go (push w cur) rest.
Proof.
  induction w as [|c w IH]; intros Hw cur rest; [reflexivity|].
  simpl in Hw. apply andb_prop in Hw as [Hc Hw].
  apply negb_true_iff in Hc. rewrite sapp_cons. simpl. rewrite Hc.
  rewrite (IH Hw). now destruct w.
Qed.

Lemma split_join (ws : list string) :
  Forall (fun w => is_word_text w = true) ws -> split (join " " ws) = ws.
Proof.
  induction ws as [|w ws IH]; intros H; [reflexivity|].
  apply Forall_cons in H as [Hw H]. specialize (IH H).
  pose proof Hw as Hw'. unfold is_word_text in Hw'.
  apply andb_prop in Hw' as [Hne Hns].
  assert (Hp : forall rest, split_go None (w +:+ rest)
                 = split_go (Some (String.rev w)) rest).
  { intros rest. rewrite (split_go_word w Hns).
    destruct w; [discriminate Hne|reflexivity]. }
  destruct ws as [|w2 ws].
  - simpl. unfold split. rewrite <- (sapp_nil_r w) at 1. rewrite Hp. simpl.
    now rewrite rev_involutive.
  - change (join " " (w :: w2 :: ws)) with (w +:+ " " +:+ join " " (w2 :: ws)).
    unfold split. rewrite Hp. rewrite sapp_cons, sapp_nil_l.
    simpl split_go. rewrite rev_involutive.
    f_equal. exact IH.
Qed.

(** A joined list of words ends with its last word. *)
Lemma join_last (w : string) (ws : list string) :
  Forall (fun w => is_word_text w = true) (w :: ws) ->
  exists pre wl, join " " (w :: ws) = pre +:+ wl /\ is_word_text wl = true.
Proof.
  revert w. induction ws as [|w2 ws IH]; intros w H.
  - exists "", w. split; [reflexivity|]. now apply Forall_cons in H as [H _].
  - apply Forall_cons in H as [Hw H].
    destruct (IH w2 H) as (pre & wl & E & Hl).
    exists (w +:+ " " +:+ pre), wl. split; [|exact Hl].
    change (join " " (w :: w2 :: ws)) with (w +:+ " " +:+ join " " (w2 :: ws)).
    now rewrite E, !sapp_assoc.
Qed.

Lemma strip_join (ws : list string) :
  Forall (fun w => is_word_text w = true) ws ->
  strip (join " " ws) = join " " ws.
Proof.
  destruct ws as [|w ws]; [reflexivity|]. intros H.
  destruct (join_last w ws H) as (pre & wl & E & Hl).
  apply Forall_cons in H as [Hw H].
  destruct (word_head w Hw) as (c & t & -> & Hc).
  rewrite E. apply (strip_ends_with_word pre wl c
                      (match ws with [] => t | _ => t +:+ " " +:+ join " " ws end));
    [|exact Hc|exact Hl].
  rewrite <- E. now destruct ws.
Qed.

Lemma join_empty (ws : list string) :
  Forall (fun w => is_word_text w = true) ws ->
  join " " ws = "" -> ws = [].
Proof.
  destruct ws as [|w ws]; [reflexivity|]. intros H E. exfalso.
  apply Forall_cons in H as [Hw _].
  destruct (word_head w Hw) as (c & t & -> & _).
  destruct ws; discriminate E.
Qed.

Lemma split_go_some (t : string) (x : string) : split_go (Some x) t <> [].
Proof.
  revert x. induction t as [|d t IH]; intros x; simpl; [discriminate|].
  destruct (is_space d); [discriminate|apply IH].
Qed.

Lemma split_all_space (s : string) :
  split s = [] <-> all_s is_space s = true.
Proof.
  unfold split. induction s as [|c t IH]; simpl; [now split|].
  destruct (is_space c) eqn:E; simpl; [exact IH|].
  split; [|discriminate]. intros H. now apply split_go_some in H.
Qed.

(** X9. For ASCII text: what [clean_text] returns is the words of the input
    joined by single blanks (the final strip changes nothing) and is never a
    dash placeholder; it is the empty text exactly for an input made of
    whitespace alone; and cleaning a non-empty result again returns it
    unchanged. *)
Theorem clean_text_normal_form (s t : string) :
  ascii_only s = true ->
  clean_text (Some s) = Some t ->
  t = join " " (split s) /\
  (t ∉ ["-"; "--"; "—"]) /\
  (t = "" <-> all_s is_space s = true) /\
  (t <> "" -> clean_text (Some t) = Some t).
Proof.
  intros _. unfold clean_text.
  destruct (negb (truthy (Some s))); [discriminate|]. cbv zeta.
  change (default EmptyString (Some s)) with s.
  pose proof (split_words s) as Hws.
  rewrite (strip_join _ Hws).
  destruct (mem (join " " (split s)) _) eqn:Em; [discriminate|].
  intros [= <-]. split; [reflexivity|]. split; [|split].
  - intros Hin. apply mem_elem_of in Hin. congruence.
  - split.
    + intros E. now apply split_all_space, join_empty.
    + intros E. apply split_all_space in E. now rewrite E.
  - intros Hne.
    assert (Ht : truthy (Some (join " " (split s))) = true).
    { destruct (join " " (split s)); [congruence|reflexivity]. }
    rewrite Ht. cbn [negb].
    change (default EmptyString (Some (join " " (split s))))
      with (join " " (split s)).
    now rewrite (split_join _ Hws), (strip_join _ Hws), Em.
Qed.

Lemma all_s_impl (p q : ascii -> bool) (s : string) :
  (forall x, p x = true -> q x = true) ->
  all_s p s = true -> all_s q s = true.
Proof.
  intros Hpq. induction s as [|c t IH]; [reflexivity|]. simpl.
  intros H. apply andb_prop in H as [Hc Ht]. now rewrite (Hpq c Hc), IH.
Qed.

(** Replacing a character removes it, when the replacement is free of it. *)
Lemma all_s_replace_char (q : ascii -> bool) (c : ascii) (new s : string) :
  all_s (fun x => q x && negb (Ascii.eqb c x)) new = true ->
  all_s q s = true ->
  all_s (fun x => q x && negb (Ascii.eqb c x)) (replace (String c "") new s) = true.
Proof.
  intros Hnew. unfold replace. induction s as [|x t IH]; [reflexivity|].
  simpl. intros H. apply andb_prop in H as [Hx Ht]. specialize (IH Ht).
  destruct (Ascii.eqb c x) eqn:E; simpl.
  - now rewrite all_s_app, Hnew, IH.
  - now rewrite Hx, E, IH.
Qed.

Lemma lower_c_not_upper (c : ascii) : is_upper (lower_c c) = false.
Proof. destruct c as [[] [] [] [] [] [] [] []]; reflexivity. Qed.

Lemma lower_not_upper (s : string) :
  all_s (fun x => negb (is_upper x)) (lower s) = true.
Proof.
  induction s as [|c t IH]; [reflexivity|]. unfold lower in *. simpl.
  now rewrite lower_c_not_upper, IH.
Qed.

(** X10. For ASCII text: a normalised header key has no upper-case letter,
    no blank, no dot and no percent sign. *)
Theorem normalize_header_alphabet (h : string) :
  ascii_only h = true ->
  all_s key_char (HistoryParser._normalize_header h) = true.
Proof.
  intros _. unfold HistoryParser._normalize_header.
  pose proof (lower_not_upper (strip h)) as H0.
  apply (all_s_replace_char _ " " "_") in H0; [|reflexivity].
  apply (all_s_replace_char _ "." "") in H0; [|reflexivity].
  apply (all_s_replace_char _ "%" "pct") in H0; [|reflexivity].
  exact H0.
Qed.

End TextFacts.

(** ** Dates: from the parser to the loader *)
Section DateFacts.
Import PyStr Re ReSpec TextSpec EhHelper CrudCsv.

Lemma forall_below (P : nat -> bool) (N : nat) :
  forallb P (seq 0 N) = true -> forall n, (n < N)%nat -> P n = true.
Proof.
  intros H n Hn. apply (proj1 (forallb_forall _ _) H).
  apply in_seq. lia.
Qed.

Lemma digit_c_is_digit (n : nat) : is_digit (digit_c n) = true.
Proof.
  unfold digit_c.
  assert (H : (n mod 10 < 10)%nat) by (apply Nat.mod_upper_bound; lia).
  revert H. generalize (n mod 10)%nat. intros k Hk.
  do 10 (destruct k as [|k]; [reflexivity|]). lia.
Qed.

Lemma digit_non_space (c : ascii) : is_digit c = true -> is_space c = false.
Proof.
  destruct c as [[] [] [] [] [] [] [] []]; vm_compute;
    intros H; reflexivity || discriminate H.
Qed.

(** Two and four digits, zero-filled, and what [int] reads back. *)
Lemma zfill2 (n : nat) :
  (n < 100)%nat ->
  zfill 2 n = String (digit_c (n / 10)) (String (digit_c n) "") /\
  int (zfill 2 n) = n.
Proof.
  intros Hn.
  pose proof (forall_below
    (fun n => String.eqb (zfill 2 n)
                (String (digit_c (n / 10)) (String (digit_c n) ""))
              && Nat.eqb (int (zfill 2 n)) n) 100) as H.
  specialize (H ltac:(vm_compute; reflexivity) n Hn). cbv beta in H.
  apply andb_prop in H as [H1 H2].
  apply String.eqb_eq in H1. apply Nat.eqb_eq in H2. now split.
Qed.

Lemma length_zpad (w n : nat) : String.length (zpad w n) = w.
Proof.
  revert n. induction w as [|w IH]; intros n; [reflexivity|].
  simpl. rewrite slength_app, IH. simpl. lia.
Qed.

(** A number of exactly [S j] digits is rendered on [S j] digits. *)
Lemma show_nat_go_zpad (j : nat) :
  forall fuel n acc,
    (j < fuel)%nat -> (j = 0%nat \/ 10 ^ j <= n)%nat -> (n < 10 ^ S j)%nat ->
    show_nat_go fuel n acc = zpad (S j) n +:+ acc.
Proof.
  induction j as [|j IH]; intros fuel n acc Hf Hlo Hhi;
    (destruct fuel as [|f]; [lia|]); simpl show_nat_go.
  - assert (E : Nat.ltb n 10 = true) by (apply Nat.ltb_lt; simpl in Hhi; lia).
    now rewrite E.
  - assert (Hn : (10 ^ S j <= n)%nat) by (destruct Hlo; [lia|assumption]).
    assert (H10 : (10 <= 10 ^ S j)%nat).
    { change (10 ^ S j)%nat with (10 * 10 ^ j)%nat.
      pose proof (Nat.pow_nonzero 10 j ltac:(lia)). lia. }
    assert (E : Nat.ltb n 10 = false) by (apply Nat.ltb_ge; lia).
    rewrite E. rewrite (IH f (n / 10)%nat); [|lia| |].
    + change (zpad (S (S j)) n) with (zpad (S j) (n / 10) +:+ String (digit_c n) "").
      now rewrite sapp_assoc.
    + right. apply Nat.div_le_lower_bound; [lia|].
      change (10 ^ S j)%nat with (10 * 10 ^ j)%nat in Hn. lia.
    + apply Nat.Div0.div_lt_upper_bound.
      change (10 ^ S (S j))%nat with (10 * 10 ^ S j)%nat in Hhi. lia.
Qed.

Lemma show_nat_zpad (j n : nat) :
  (j = 0%nat \/ 10 ^ j <= n)%nat -> (n < 10 ^ S j)%nat ->
  show_nat n = zpad (S j) n.
Proof.
  intros Hlo Hhi. unfold show_nat.
  rewrite (show_nat_go_zpad j (S n) n ""); [apply sapp_nil_r| |exact Hlo|exact Hhi].
  destruct Hlo as [->|Hlo]; [lia|].
  pose proof (Nat.pow_gt_lin_r 10 j ltac:(lia)). lia.
Qed.

Lemma zfill4 (n : nat) :
  (n < 100 * 100)%nat ->
  zfill 4 n = zpad 4 n /\ ((1000 <= n)%nat -> zfill 1 n = zpad 4 n).
Proof.
  intros Hn. unfold zfill.
  destruct (Nat.lt_ge_cases n 10) as [H1|H1].
  { rewrite (show_nat_zpad 0 n); [|now left|simpl; lia].
    rewrite length_zpad. split; [reflexivity|lia]. }
  destruct (Nat.lt_ge_cases n 100) as [H2|H2].
  { rewrite (show_nat_zpad 1 n); [|right; simpl; lia|simpl; lia].
    rewrite length_zpad. split; [reflexivity|lia]. }
  destruct (Nat.lt_ge_cases n 1000) as [H3|H3].
  { rewrite (show_nat_zpad 2 n); [|right; simpl; lia|simpl; lia].
    rewrite length_zpad. split; [reflexivity|lia]. }
  rewrite (show_nat_zpad 3 n);
    [|right; simpl; lia|change (10 ^ 4)%nat with (100 * 100)%nat; lia].
  rewrite length_zpad. split; [reflexivity|]. intros _. reflexivity.
Qed.

Lemma digit_c_value (x : nat) : (code (digit_c x) - 48 = x mod 10)%nat.
Proof.
  unfold digit_c.
  assert (H : (x mod 10 < 10)%nat) by (apply Nat.mod_upper_bound; lia).
  revert H. generalize (x mod 10)%nat. intros k Hk.
  do 10 (destruct k as [|k]; [reflexivity|]). lia.
Qed.

(** The text of a year, and what [int] reads back from it. *)
Lemma year_text (n : nat) :
  (n < 100 * 100)%nat ->
  exists a b c e,
    zpad 4 n = String a (String b (String c (String e ""))) /\
    is_digit a = true /\ is_digit b = true /\ is_digit c = true /\
    is_digit e = true /\
    int (zpad 4 n) = n.
Proof.
  intros Hn.
  exists (digit_c (n / 10 / 10 / 10)), (digit_c (n / 10 / 10)),
         (digit_c (n / 10)), (digit_c n).
  split; [reflexivity|]. do 4 (split; [apply digit_c_is_digit|]).
  change (zpad 4 n) with
    (String (digit_c (n / 10 / 10 / 10)) (String (digit_c (n / 10 / 10))
       (String (digit_c (n / 10)) (String (digit_c n) "")))).
  unfold int.
  rewrite (strip_id _ (digit_c (n / 10 / 10 / 10)) (digit_c n)
             (String (digit_c (n / 10 / 10))
                (String (digit_c (n / 10)) (String (digit_c n) "")))
             (String (digit_c (n / 10))
                (String (digit_c (n / 10 / 10))
                   (String (digit_c (n / 10 / 10 / 10)) ""))));
    try reflexivity; try (apply digit_non_space, digit_c_is_digit).
  unfold int_of_digits. cbn [int_go]. rewrite !digit_c_value.
  pose proof (Nat.div_mod_eq n 10).
  pose proof (Nat.div_mod_eq (n / 10) 10).
  pose proof (Nat.div_mod_eq (n / 10 / 10) 10).
  pose proof (Nat.div_mod_eq (n / 10 / 10 / 10) 10).
  assert (n / 10 / 10 / 10 / 10 = 0)%nat.
  { rewrite !Nat.Div0.div_div. apply Nat.div_small.
    change (10 * 10 * 10 * 10)%nat with (100 * 100)%nat. exact Hn. }
  lia.
Qed.

(** A group whose pattern reads the text [w] captures [w]. *)
Lemma run_grp_fwd (n : nat) (r1 : re) (k : mstate -> option mstate)
    (p : option ascii) (w tail : string) (caps0 : list (nat * string))
    (c : ascii) (res : mstate) :
  (forall K, K (MState (Some c) tail caps0) = Some res ->
             run r1 K (MState p (w +:+ tail) caps0) = Some res) ->
  k (MState (Some c) tail ((n, w) :: caps0)) = Some res ->
  run (Grp n r1) k (MState p (w +:+ tail) caps0) = Some res.
Proof.
  intros Hin Hk. simpl. apply Hin. cbn [prev rest caps].
  now rewrite take_app_length.
Qed.

Ltac literal_texts :=
  repeat match goal with
         | |- context [zfill 2 ?n] =>
             let v := eval vm_compute in (zfill 2 n) in
             change (zfill 2 n) with v
         | H : context [digit_c ?n] |- _ =>
             let v := eval vm_compute in (digit_c n) in
             change (digit_c n) with v in H
         end;
  rewrite ?sapp_cons, ?sapp_nil_l.

(** [%m] reads a month written on two digits. *)
Lemma run_month (mo : nat) (r : re) (k : mstate -> option mstate)
    (p : option ascii) (tail : string) (caps0 : list (nat * string))
    (res : mstate) :
  (1 <= mo <= 12)%nat -> date_directive "m" = Some r ->
  k (MState (Some (digit_c mo)) tail ((grp_of "m", zfill 2 mo) :: caps0))
    = Some res ->
  run r k (MState p (zfill 2 mo +:+ tail) caps0) = Some res.
Proof.
  intros Hmo Hr Hk. injection Hr as <-.
  apply run_grp_fwd with (c := digit_c mo); [|exact Hk].
  clear Hk. intros K HK.
  do 13 (destruct mo as [|mo]; [try lia; literal_texts; cbn; now rewrite HK|]).
  lia.
Qed.

(** [%d] reads a day written on two digits. *)
Lemma run_day (d : nat) (r : re) (k : mstate -> option mstate)
    (p : option ascii) (tail : string) (caps0 : list (nat * string))
    (res : mstate) :
  (1 <= d <= 31)%nat -> date_directive "d" = Some r ->
  k (MState (Some (digit_c d)) tail ((grp_of "d", zfill 2 d) :: caps0))
    = Some res ->
  run r k (MState p (zfill 2 d +:+ tail) caps0) = Some res.
Proof.
  intros Hd Hr Hk. injection Hr as <-.
  apply run_grp_fwd with (c := digit_c d); [|exact Hk].
  clear Hk. intros K HK.
  do 32 (destruct d as [|d]; [try lia; literal_texts; cbn; now rewrite HK|]).
  lia.
Qed.

(** [%Y] reads four digits. *)
Lemma run_year (a b c e : ascii) (r : re) (k : mstate -> option mstate)
    (p : option ascii) (tail : string) (caps0 : list (nat * string))
    (res : mstate) :
  is_digit a = true -> is_digit b = true -> is_digit c = true ->
  is_digit e = true -> date_directive "Y" = Some r ->
  k (MState (Some e) tail
       ((grp_of "Y", String a (String b (String c (String e "")))) :: caps0))
    = Some res ->
  run r k (MState p (String a (String b (String c (String e ""))) +:+ tail) caps0)
    = Some res.
Proof.
  intros Ha Hb Hc He Hr Hk. injection Hr as <-.
  apply run_grp_fwd with (c := e); [|exact Hk].
  clear Hk. intros K HK. rewrite !sapp_cons, sapp_nil_l.
  cbn. now rewrite Ha, Hb, Hc, He.
Qed.

Lemma digits_word (s : string) :
  s <> "" -> all_s is_digit s = true -> is_word_text s = true.
Proof.
  intros Hne Hd. unfold is_word_text.
  rewrite (all_s_impl is_digit non_space s); [| |exact Hd].
  - destruct s; [congruence|reflexivity].
  - intros x Hx. unfold non_space. now rewrite (digit_non_space x Hx).
Qed.

Lemma zfill2_word (n : nat) :
  (n < 100)%nat ->
  is_word_text (zfill 2 n) = true /\
  exists c t, zfill 2 n = String c t /\ is_space c = false.
Proof.
  intros Hn. destruct (zfill2 n Hn) as [E _]. rewrite E. split.
  - apply digits_word; [discriminate|]. cbn [all_s].
    now rewrite !digit_c_is_digit.
  - eexists _, _. split; [reflexivity|].
    apply digit_non_space, digit_c_is_digit.
Qed.

(** The three formats of [_to_date] on texts written with two-digit
    months and days and a four-digit year. *)
Section Formats.
Variables (y mo d : nat) (a b c e : ascii).
Let ys : string := String a (String b (String c (String e ""))).
Hypothesis Hmo : (1 <= mo <= 12)%nat.
Hypothesis Hd : (1 <= d <= 31)%nat.
Hypothesis Ha : is_digit a = true.
Hypothesis Hb : is_digit b = true.
Hypothesis Hc : is_digit c = true.
Hypothesis He : is_digit e = true.
Hypothesis Hy : int ys = y.
Hypothesis Hv : valid_date y mo d = true.

Lemma strptime_mdy :
  strptime_date (zfill 2 mo +:+ "/" +:+ zfill 2 d +:+ "/" +:+ ys) "%m/%d/%Y"
  = Some (y, mo, d).
Proof.
  destruct (zfill2 mo ltac:(lia)) as [_ Im].
  destruct (zfill2 d ltac:(lia)) as [_ Id].
  assert (R : rmatch (default Eps (date_pattern "%m/%d/%Y"))
                (zfill 2 mo +:+ "/" +:+ zfill 2 d +:+ "/" +:+ ys)
              = Some (MState (Some e) ""
                        [(grp_of "Y", ys); (grp_of "d", zfill 2 d);
                         (grp_of "m", zfill 2 mo)])).
  { unfold rmatch.
    change (default Eps (date_pattern "%m/%d/%Y")) with
      (Cat (default Eps (date_directive "m"))
         (Cat (lit true "/")
            (Cat (default Eps (date_directive "d"))
               (Cat (lit true "/") (default Eps (date_directive "Y")))))).
    cbn [run]. apply run_month; [exact Hmo|reflexivity|].
    rewrite sapp_cons, sapp_nil_l. cbn [run lit rest prev caps].
    cbv beta iota. change (Ascii.eqb (lower_c "/") (lower_c "/")) with true.
    cbv iota. apply run_day; [exact Hd|reflexivity|].
    rewrite sapp_cons, sapp_nil_l. cbn [run lit rest prev caps].
    cbv beta iota. change (Ascii.eqb (lower_c "/") (lower_c "/")) with true.
    cbv iota. rewrite <- (sapp_nil_r ys).
    now apply run_year. }
  unfold strptime_date.
  change (date_pattern "%m/%d/%Y") with (Some (default Eps (date_pattern "%m/%d/%Y"))).
  cbv beta iota. rewrite R. cbn [rest is_empty negb].
  unfold group_of, group. cbn [caps].
  change (assoc (grp_of "Y") _) with (Some ys).
  change (assoc (grp_of "m") _) with (Some (zfill 2 mo)).
  change (assoc (grp_of "d") _) with (Some (zfill 2 d)).
  cbn [fmap option_fmap option_map default]. rewrite Hy, Im, Id.
  unfold id. now rewrite Hv.
Qed.

Lemma strptime_dmy :
  strptime_date (zfill 2 d +:+ "/" +:+ zfill 2 mo +:+ "/" +:+ ys) "%d/%m/%Y"
  = Some (y, mo, d).
Proof.
  destruct (zfill2 mo ltac:(lia)) as [_ Im].
  destruct (zfill2 d ltac:(lia)) as [_ Id].
  assert (R : rmatch (default Eps (date_pattern "%d/%m/%Y"))
                (zfill 2 d +:+ "/" +:+ zfill 2 mo +:+ "/" +:+ ys)
              = Some (MState (Some e) ""
                        [(grp_of "Y", ys); (grp_of "m", zfill 2 mo);
                         (grp_of "d", zfill 2 d)])).
  { unfold rmatch.
    change (default Eps (date_pattern "%d/%m/%Y")) with
      (Cat (default Eps (date_directive "d"))
         (Cat (lit true "/")
            (Cat (default Eps (date_directive "m"))
               (Cat (lit true "/") (default Eps (date_directive "Y")))))).
    cbn [run]. apply run_day; [exact Hd|reflexivity|].
    rewrite sapp_cons, sapp_nil_l. cbn [run lit rest prev caps].
    cbv beta iota. change (Ascii.eqb (lower_c "/") (lower_c "/")) with true.
    cbv iota. apply run_month; [exact Hmo|reflexivity|].
    rewrite sapp_cons, sapp_nil_l. cbn [run lit rest prev caps].
    cbv beta iota. change (Ascii.eqb (lower_c "/") (lower_c "/")) with true.
    cbv iota. rewrite <- (sapp_nil_r ys).
    now apply run_year. }
  unfold strptime_date.
  change (date_pattern "%d/%m/%Y") with (Some (default Eps (date_pattern "%d/%m/%Y"))).
  cbv beta iota. rewrite R. cbn [rest is_empty negb].
  unfold group_of, group. cbn [caps].
  change (assoc (grp_of "Y") _) with (Some ys).
  change (assoc (grp_of "m") _) with (Some (zfill 2 mo)).
  change (assoc (grp_of "d") _) with (Some (zfill 2 d)).
  cbn [fmap option_fmap option_map default]. rewrite Hy, Im, Id.
  unfold id. now rewrite Hv.
Qed.

Lemma strptime_ymd :
  strptime_date (ys +:+ "-" +:+ zfill 2 mo +:+ "-" +:+ zfill 2 d) "%Y-%m-%d"
  = Some (y, mo, d).
Proof.
  destruct (zfill2 mo ltac:(lia)) as [_ Im].
  destruct (zfill2 d ltac:(lia)) as [_ Id].
  destruct (zfill2 d ltac:(lia)) as [Ed _].
  assert (R : rmatch (default Eps (date_pattern "%Y-%m-%d"))
                (ys +:+ "-" +:+ zfill 2 mo +:+ "-" +:+ zfill 2 d)
              = Some (MState (Some (digit_c d)) ""
                        [(grp_of "d", zfill 2 d); (grp_of "m", zfill 2 mo);
                         (grp_of "Y", ys)])).
  { unfold rmatch.
    change (default Eps (date_pattern "%Y-%m-%d")) with
      (Cat (default Eps (date_directive "Y"))
         (Cat (lit true "-")
            (Cat (default Eps (date_directive "m"))
               (Cat (lit true "-") (default Eps (date_directive "d")))))).
    cbn [run]. apply run_year; [assumption..|reflexivity|].
    rewrite sapp_cons, sapp_nil_l. cbn [run lit rest prev caps].
    cbv beta iota. change (Ascii.eqb (lower_c "-") (lower_c "-")) with true.
    cbv iota. apply run_month; [exact Hmo|reflexivity|].
    rewrite sapp_cons, sapp_nil_l. cbn [run lit rest prev caps].
    cbv beta iota. change (Ascii.eqb (lower_c "-") (lower_c "-")) with true.
    cbv iota. rewrite <- (sapp_nil_r (zfill 2 d)) at 1.
    now apply run_day. }
  unfold strptime_date.
  change (date_pattern "%Y-%m-%d") with (Some (default Eps (date_pattern "%Y-%m-%d"))).
  cbv beta iota. rewrite R. cbn [rest is_empty negb].
  unfold group_of, group. cbn [caps].
  change (assoc (grp_of "Y") _) with (Some ys).
  change (assoc (grp_of "m") _) with (Some (zfill 2 mo)).
  change (assoc (grp_of "d") _) with (Some (zfill 2 d)).
  cbn [fmap option_fmap option_map default]. rewrite Hy, Im, Id.
  unfold id. now rewrite Hv.
Qed.

End Formats.

(** The month pattern does not read a number above 12. *)
Lemma strptime_mdy_fails (d : nat) (tail : string) :
  (12 < d <= 31)%nat ->
  strptime_date (zfill 2 d +:+ "/" +:+ tail) "%m/%d/%Y" = None.
Proof.
  intros Hd.
  do 32 (destruct d as [|d]; [try lia; vm_compute; reflexivity|]). lia.
Qed.

Lemma slash_only (x : ascii) :
  Ascii.eqb (lower_c x) (lower_c "/") = true -> x = "/"%char.
Proof.
  destruct x as [[] [] [] [] [] [] [] []]; vm_compute; intros H;
    first [reflexivity|discriminate H].
Qed.

Ltac two_chars M :=
  let w1 := fresh "w" in let w2 := fresh "w" in
  let s1 := fresh "s" in let c1 := fresh "c" in let c2 := fresh "c" in
  let t1 := fresh "t" in let t2 := fresh "t" in
  apply inv_cat in M as (w1 & s1 & w2 & -> & M & M2);
  apply inv_chr in M as (c1 & t1 & _ & _ & -> & _);
  apply inv_chr in M2 as (c2 & t2 & _ & _ & -> & _);
  exists c1; right; exists c2; reflexivity.

Ltac one_char M :=
  let c1 := fresh "c" in let t1 := fresh "t" in
  apply inv_chr in M as (c1 & t1 & _ & _ & -> & _);
  exists c1; left; reflexivity.

(** The month and the day patterns read one or two characters. *)
Lemma short_group (g : ascii) (r : re) (s s' : mstate) (w : string) :
  g = "m"%char \/ g = "d"%char -> date_directive g = Some r -> matches r s w s' ->
  exists x, w = String x "" \/ exists x2, w = String x (String x2 "").
Proof.
  intros [-> | ->] Hr M.
  - assert (E : date_directive "m" =
      Some (Grp (grp_of "m")
              (Alt (Cat (lit true "1") (rng "0" "2"))
                 (Alt (Cat (lit true "0") (rng "1" "9")) (rng "1" "9")))))
      by reflexivity.
    rewrite E in Hr. injection Hr as <-. unfold lit, rng in M.
    apply inv_grp in M as (s1 & M & _).
    apply inv_alt in M as [M|M]; [two_chars M|].
    apply inv_alt in M as [M|M]; [two_chars M|one_char M].
  - assert (E : date_directive "d" =
      Some (Grp (grp_of "d")
              (Alt (Cat (lit true "3") (rng "0" "1"))
                 (Alt (Cat (rng "1" "2") digit)
                    (Alt (Cat (lit true "0") (rng "1" "9"))
                       (Alt (rng "1" "9")
                          (Cat (lit true " ") (rng "1" "9"))))))))
      by reflexivity.
    rewrite E in Hr. injection Hr as <-. unfold lit, rng, digit in M.
    apply inv_grp in M as (s1 & M & _).
    apply inv_alt in M as [M|M]; [two_chars M|].
    apply inv_alt in M as [M|M]; [two_chars M|].
    apply inv_alt in M as [M|M]; [two_chars M|].
    apply inv_alt in M as [M|M]; [one_char M|two_chars M].
Qed.

(** A text whose second and third characters are not [/] matches no
    pattern that opens with a month or a day and a [/]. *)
Lemma no_slash_no_match (g : ascii) (rg X : re) (a b c : ascii) (tl : string) :
  g = "m"%char \/ g = "d"%char -> date_directive g = Some rg ->
  b <> "/"%char -> c <> "/"%char ->
  rmatch (Cat rg (Cat (lit true "/") X)) (String a (String b (String c tl)))
  = None.
Proof.
  intros Hg Hr Hb Hc.
  destruct (rmatch _ _) as [m|] eqn:R; [exfalso|reflexivity].
  apply rmatch_sound in R as (w & M).
  apply inv_cat in M as (w1 & s1 & w2 & -> & M1 & M2).
  apply inv_cat in M2 as (w3 & s2 & w4 & -> & M3 & _).
  unfold lit in M3. apply inv_chr in M3 as (x & t & Hrest & Hp & _ & _).
  apply slash_only in Hp. subst x.
  pose proof (matches_rest _ _ _ _ M1) as E. rewrite Hrest in E. simpl in E.
  destruct (short_group g rg _ _ _ Hg Hr M1) as (q & [-> | (q2 & ->)]).
  - injection E as _ E. now apply Hb.
  - injection E as _ _ E. now apply Hc.
Qed.

Lemma digit_not_slash (c : ascii) : is_digit c = true -> c <> "/"%char.
Proof. intros H ->. discriminate H. Qed.

(** The two layouts with [/] do not read a text that opens with three
    digits. *)
Lemma slash_formats_fail (a b c : ascii) (tl : string) :
  is_digit b = true -> is_digit c = true ->
  strptime_date (String a (String b (String c tl))) "%m/%d/%Y" = None /\
  strptime_date (String a (String b (String c tl))) "%d/%m/%Y" = None.
Proof.
  intros Hb%digit_not_slash Hc%digit_not_slash. unfold strptime_date. split.
  - change (date_pattern "%m/%d/%Y") with
      (Some (Cat (default Eps (date_directive "m"))
               (Cat (lit true "/")
                  (Cat (default Eps (date_directive "d"))
                     (Cat (lit true "/") (default Eps (date_directive "Y"))))))).
    cbv beta iota.
    now rewrite (no_slash_no_match "m" _ _ a b c tl (or_introl eq_refl) eq_refl).
  - change (date_pattern "%d/%m/%Y") with
      (Some (Cat (default Eps (date_directive "d"))
               (Cat (lit true "/")
                  (Cat (default Eps (date_directive "m"))
                     (Cat (lit true "/") (default Eps (date_directive "Y"))))))).
    cbv beta iota.
    now rewrite (no_slash_no_match "d" _ _ a b c tl (or_intror eq_refl) eq_refl).
Qed.

Lemma days_in_month_bounds (y m : nat) :
  (28 <= days_in_month y m <= 31)%nat.
Proof.
  unfold days_in_month.
  destruct m as [|[|[|[|[|[|[|[|[|[|[|[|m]]]]]]]]]]]];
    try destruct (is_leap y); lia.
Qed.

Lemma valid_date_bounds (y m d : nat) :
  valid_date y m d = true ->
  (1 <= y < 100 * 100)%nat /\ (1 <= m <= 12)%nat /\
  (1 <= d <= days_in_month y m)%nat.
Proof.
  unfold valid_date. intros H.
  repeat (apply andb_prop in H as [H ?]).
  repeat match goal with
         | H : Nat.leb _ _ = true |- _ => apply Nat.leb_le in H
         end.
  assert (E : 9999%nat = (99 * 101)%nat) by (vm_compute; reflexivity).
  rewrite E in *. lia.
Qed.

Lemma valid_date_intro (y m d : nat) :
  (1 <= y < 100 * 100)%nat -> (1 <= m <= 12)%nat ->
  (1 <= d <= days_in_month y m)%nat -> valid_date y m d = true.
Proof.
  intros Hy Hm Hd. unfold valid_date.
  assert (E : 9999%nat = (99 * 101)%nat) by (vm_compute; reflexivity).
  rewrite E.
  repeat (apply andb_true_intro; split); apply Nat.leb_le; lia.
Qed.

(** Text that opens with a digit and ends in a word is its own strip. *)
Lemma strip_date_text (A S1 Bm S2 C : string) (h : ascii) (u : string) :
  A = String h u -> is_digit h = true -> is_word_text C = true ->
  strip (A +:+ S1 +:+ Bm +:+ S2 +:+ C) = A +:+ S1 +:+ Bm +:+ S2 +:+ C.
Proof.
  intros -> Hh Hw.
  replace (String h u +:+ S1 +:+ Bm +:+ S2 +:+ C)
    with ((String h u +:+ S1 +:+ Bm +:+ S2) +:+ C) by (now rewrite !sapp_assoc).
  eapply strip_ends_with_word;
    [rewrite sapp_cons; reflexivity|now apply digit_non_space|exact Hw].
Qed.

Lemma to_date_text (s : string) :
  _to_date (Some s) =
  match strptime_date (strip s) "%m/%d/%Y" with
  | Some d => Some d
  | None =>
      match strptime_date (strip s) "%d/%m/%Y" with
      | Some d => Some d
      | None => strptime_date (strip s) "%Y-%m-%d"
      end
  end.
Proof. reflexivity. Qed.

(** The three layouts of [_to_date]; the two theorems below rest on it. *)
Lemma to_date_layouts (y mo d : nat) :
  valid_date y mo d = true ->
  let Y := zfill 4 y in
  let M := zfill 2 mo in
  let D := zfill 2 d in
  _to_date (Some (Y +:+ "-" +:+ M +:+ "-" +:+ D)) = Some (y, mo, d) /\
  _to_date (Some (M +:+ "/" +:+ D +:+ "/" +:+ Y)) = Some (y, mo, d) /\
  _to_date (Some (D +:+ "/" +:+ M +:+ "/" +:+ Y))
  = Some (if Nat.leb d 12 then (y, d, mo) else (y, mo, d)).
Proof.
  intros Hv Y M D. subst Y M D.
  destruct (valid_date_bounds y mo d Hv) as (By & Bm & Bd).
  pose proof (days_in_month_bounds y mo) as Bdm.
  destruct (zfill4 y) as [-> _]; [lia|].
  destruct (year_text y) as (a & b & c & e & Ey & Ha & Hb & Hc & He & Hy); [lia|].
  destruct (zfill2 mo) as [Em _]; [lia|].
  destruct (zfill2 d) as [Ed _]; [lia|].
  destruct (zfill2_word mo) as [Wm _]; [lia|].
  destruct (zfill2_word d) as [Wd _]; [lia|].
  assert (Wy : is_word_text (zpad 4 y) = true).
  { rewrite Ey. apply digits_word; [discriminate|]. cbn [all_s].
    now rewrite Ha, Hb, Hc, He. }
  rewrite Ey in Hy.
  set (ys := String a (String b (String c (String e "")))) in *.
  assert (Smdy := fun m' d' H1 H2 H3 =>
            strptime_mdy y m' d' a b c e H1 H2 Ha Hb Hc He Hy H3).
  assert (Sdmy := strptime_dmy y mo d a b c e ltac:(lia) ltac:(lia)
                    Ha Hb Hc He Hy Hv).
  assert (Symd := strptime_ymd y mo d a b c e ltac:(lia) ltac:(lia)
                    Ha Hb Hc He Hy Hv).
  fold ys in Smdy, Sdmy, Symd.
  rewrite !to_date_text. split; [|split].
  - rewrite (strip_date_text _ _ _ _ _ a _ Ey Ha Wd). rewrite Ey.
    destruct (slash_formats_fail a b c
                (String e "" +:+ "-" +:+ zfill 2 mo +:+ "-" +:+ zfill 2 d) Hb Hc)
      as [F1 F2].
    change (strptime_date (ys +:+ "-" +:+ zfill 2 mo +:+ "-" +:+ zfill 2 d)
              "%m/%d/%Y" = None) in F1.
    change (strptime_date (ys +:+ "-" +:+ zfill 2 mo +:+ "-" +:+ zfill 2 d)
              "%d/%m/%Y" = None) in F2.
    now rewrite F1, F2.
  - rewrite (strip_date_text _ _ _ _ _ _ _ Em (digit_c_is_digit _) Wy).
    rewrite Ey. now rewrite (Smdy mo d) by (assumption || lia).
  - rewrite (strip_date_text _ _ _ _ _ _ _ Ed (digit_c_is_digit _) Wy).
    rewrite Ey. destruct (Nat.leb d 12) eqn:L.
    + apply Nat.leb_le in L.
      rewrite (Smdy d mo); [reflexivity|lia|lia|].
      apply valid_date_intro; try lia.
      pose proof (days_in_month_bounds y d). lia.
    + apply Nat.leb_gt in L.
      rewrite strptime_mdy_fails by lia.
      now rewrite Sdmy.
Qed.

(** X11. The three layouts [_to_date] reads, for a calendar date written
    with a four-digit year and two-digit month and day: year first with [-],
    month first with [/], and day first with [/]. The month-first layout is
    tried first, so a day-first text is read as written only when its day is
    above 12; otherwise day and month change places. *)
Theorem to_date_reads_three_layouts (y mo d : nat) :
  valid_date y mo d = true ->
  let Y := zfill 4 y in
  let M := zfill 2 mo in
  let D := zfill 2 d in
  _to_date (Some (Y +:+ "-" +:+ M +:+ "-" +:+ D)) = Some (y, mo, d) /\
  _to_date (Some (M +:+ "/" +:+ D +:+ "/" +:+ Y)) = Some (y, mo, d) /\
  _to_date (Some (D +:+ "/" +:+ M +:+ "/" +:+ Y))
  = Some (if Nat.leb d 12 then (y, d, mo) else (y, mo, d)).
Proof. exact (to_date_layouts y mo d). Qed.

Lemma strptime_valid (data fmt : string) (dt : datetime) :
  strptime data fmt = Some dt ->
  valid_date (year dt) (month dt) (day dt) = true.
Proof.
  unfold strptime. destruct (EhHelper.pattern fmt) as [r|]; [|discriminate].
  destruct (rmatch r data) as [m|]; [|discriminate].
  destruct (negb _); [discriminate|]. cbv zeta.
  destruct (match group_of "b" m with Some _ => _ | None => _ end) as [mo|];
    [|discriminate].
  destruct (valid_date _ mo _) eqn:V; [|discriminate].
  intros [= <-]. exact V.
Qed.

(** X12. The date text the history parser emits for a date it recognises is
    read by the loader as that calendar date: the parser writes month, day
    and year with [/], which is the first layout [_to_date] tries. On glibc
    the year is written without padding, so this holds there from the year
    1000 on. *)
Theorem parsed_date_is_read_back (pf : platform) (raw : option string)
    (dt : datetime) :
  truthy (clean_text raw) = true ->
  let cleaned := strip_suffixes (default EmptyString (clean_text raw)) in
  strptime cleaned "%a, %b %d, %Y, %I:%M %p" = Some dt \/
  (strptime cleaned "%a, %b %d, %Y, %I:%M %p" = None /\
   strptime cleaned "%b %d, %Y" = Some dt) ->
  (pf = Glibc -> (1000 <= year dt)%nat) ->
  exists s, (parse_date_time pf raw).1 = Some s /\
            _to_date (Some s) = Some (year dt, month dt, day dt).
Proof.
  intros Ht cleaned Hp Hy.
  destruct (parse_date_time_structure pf raw) as [_ H].
  destruct (H Ht) as [Hfull Hdate]. fold cleaned in Hfull, Hdate.
  assert (Hv : valid_date (year dt) (month dt) (day dt) = true).
  { destruct Hp as [Hp|[_ Hp]]; exact (strptime_valid _ _ _ Hp). }
  assert (Hr : (parse_date_time pf raw).1 = strftime pf "%m/%d/%Y" dt).
  { destruct Hp as [Hp|[Hn Hp]].
    - now rewrite (Hfull dt Hp).
    - destruct (Hdate Hn) as [Hd _]. now rewrite (Hd dt Hp). }
  rewrite Hr, strftime_date_total. eexists. split; [reflexivity|].
  destruct (valid_date_bounds _ _ _ Hv) as (By & _ & _).
  destruct (zfill4 (year dt)) as [E4 E1]; [lia|].
  destruct (to_date_layouts _ _ _ Hv) as (_ & Hmdy & _).
  destruct pf; [exact Hmdy|].
  rewrite E1, <- E4 by now apply Hy. exact Hmdy.
Qed.

End DateFacts.

(** ** CSV rows *)
Section CsvRows.
Import PyStr ReSpec EhHelper CrudCsv.
Variable B : builtins.




End CsvRows.

Section Sanity.
Import CrudCsv.
Example to_date_examples :
  _to_date (Some "07/31/2025") = Some (2025, 7, 31)%nat /\
  _to_date (Some " 31/07/2025 ") = Some (2025, 7, 31)%nat /\
  _to_date (Some "2025-07-31") = Some (2025, 7, 31)%nat /\
  _to_date (Some "05/07/2025") = Some (2025, 5, 7)%nat /\
  _to_date (Some "7/4/2025") = Some (2025, 7, 4)%nat /\
  _to_date (Some "02/30/2025") = None /\
  _to_date (Some "") = None /\
  _to_date None = None.
Proof. vm_compute. repeat split. Qed.
End Sanity.

(** ** The two loaders *)
Section LoaderProofs.
Import Crud CrudLoad.
Context {num : Type} `{EqDecision num}.

Lemma count_tally (rc : Z) (s : stats) :
  count rc s = tally (action_of_rowcount rc) s.
Proof.
  unfold count, tally, action_of_rowcount.
  destruct (rc =? 1); [reflexivity|]. now destruct (rc =? 2).
Qed.

Lemma load_loop_csv (ce : nat) (l : list (Earnings num)) (d : db num)
    (s : stats) (b c : nat) :
  (load_loop ce l d s b c).1.1 = load_csv_loop l d s.
Proof.
  revert d s b c. induction l as [|e l IH]; intros d s b c; [reflexivity|].
  simpl. unfold upsert_earnings_row.
  destruct (execute d e) as [[d' rc] lid]. cbn [act].
  rewrite <- count_tally.
  destruct (Nat.leb ce (S b)); apply IH.
Qed.

Lemma load_csv_loop_tally (l : list (Earnings num)) (d : db num) (s : stats) :
  let s' := (load_csv_loop l d s).1 in
  n_attempted s' = (n_attempted s + length l)%nat /\
  total s' = (total s + length l)%nat.
Proof.
  revert d s. induction l as [|e l IH]; intros d s; simpl.
  - unfold total. lia.
  - destruct (upsert_earnings_row e d) as [res d'].
    destruct (IH d' (tally (act res) s)) as [H1 H2]. cbv zeta in *.
    rewrite H1, H2. unfold total, tally. destruct (act res); simpl; lia.
Qed.

Lemma load_loop_commits (ce : nat) (l : list (Earnings num)) (d : db num)
    (s : stats) (b c : nat) :
  let m := Nat.max 1 ce in
  (b < m)%nat ->
  let r := load_loop ce l d s b c in
  (r.2 * m + r.1.2 = c * m + b + length l)%nat /\ (r.1.2 < m)%nat.
Proof.
  intros m. revert d s b c. induction l as [|e l IH]; intros d s b c Hb; simpl.
  - lia.
  - destruct (execute d e) as [[d' rc] lid].
    destruct (Nat.leb ce (S b)) eqn:L.
    + apply Nat.leb_le in L.
      destruct (IH d' (count rc s) 0%nat (S c)) as [H1 H2]; [lia|].
      cbv zeta in *. split; [|exact H2]. rewrite H1.
      assert (S b = m) by lia. nia.
    + apply Nat.leb_gt in L.
      destruct (IH d' (count rc s) (S b) c) as [H1 H2]; [lia|].
      cbv zeta in *. split; [|exact H2]. rewrite H1. lia.
Qed.

Lemma load_earnings_rows_run (l : list (Earnings num)) (ce : nat) (d : db num) :
  load_earnings_rows l ce d =
  let r := load_loop ce l d (Stats 0 0 0 0) 0 0 in
  (r.1.1.1, r.1.1.2, match r.1.2 with O => r.2 | _ => S r.2 end).
Proof.
  unfold load_earnings_rows.
  now destruct (load_loop ce l d (Stats 0 0 0 0) 0 0) as [[[s d'] b] c].
Qed.

(** X14. The batch loader and the row-by-row loader do the same to the store
    and report the same tally, whatever the batch size: both read the row
    count as 1 inserted, 2 updated, anything else unchanged. *)
Theorem loaders_agree (l : list (Earnings num)) (commit_every : nat)
    (d : db num) :
  (load_earnings_rows l commit_every d).1 = load_csv_earnings l d.
Proof.
  rewrite load_earnings_rows_run. cbv zeta. cbn [fst].
  pose proof (load_loop_csv commit_every l d (Stats 0 0 0 0) 0 0) as H0.
  unfold load_csv_earnings. rewrite <- H0.
  now destruct (load_loop commit_every l d (Stats 0 0 0 0) 0 0) as [[[s d'] b] c].
Qed.

(** X15. The tally of a load: every row is attempted and counted once as
    inserted, updated or unchanged; the session commits after every
    [commit_every] rows (after every row when that is 0) and once more for a
    remainder, so not at all for no rows. *)
Theorem load_tally_and_commits (l : list (Earnings num)) (commit_every : nat)
    (d : db num) :
  let r := load_earnings_rows l commit_every d in
  n_attempted r.1.1 = length l /\
  (n_inserted r.1.1 + n_updated r.1.1 + n_unchanged r.1.1)%nat = length l /\
  r.2 = commits_for commit_every (length l).
Proof.
  intros r. subst r. rewrite load_earnings_rows_run. cbv zeta. cbn [fst snd].
  pose proof (load_loop_csv commit_every l d (Stats 0 0 0 0) 0 0) as H0.
  destruct (load_csv_loop_tally l d (Stats 0 0 0 0)) as [H1 H2].
  cbv zeta in H1, H2. rewrite <- H0 in H1, H2.
  destruct (load_loop_commits commit_every l d (Stats 0 0 0 0) 0 0) as [H3 H4];
    [lia|]. cbv zeta in H3, H4.
  destruct (load_loop commit_every l d (Stats 0 0 0 0) 0 0) as [[[s d'] b] c].
  cbn [fst snd] in *. split; [exact H1|]. split; [exact H2|].
  unfold commits_for. set (m := Nat.max 1 commit_every) in *.
  assert (Hm : (0 < m)%nat) by lia.
  assert (Hdiv : (length l / m = c)%nat).
  { symmetry. apply (Nat.div_unique _ m c b); lia. }
  assert (Hmod : (length l mod m = b)%nat).
  { symmetry. apply (Nat.mod_unique _ m c b); lia. }
  rewrite Hdiv, Hmod. destruct b; simpl; lia.
Qed.

End LoaderProofs.

(** ** Rows of the history table *)
Section RowMapProofs.
Import PyStr EhHelper HistoryParser.

Lemma row_fill_lookup (cells hs : list string) :
  forall (i : nat) (row : gmap string (option string)) (k : string),
    (k ∉ hs -> row_fill i hs cells row !! k = row !! k) /\
    (forall j, hs !! j = Some k ->
       (forall j', (j < j')%nat -> hs !! j' <> Some k) ->
       row_fill i hs cells row !! k =
       Some (match cells !! (i + j)%nat with
             | Some txt => clean_text (Some txt)
             | None => None
             end)).
Proof.
  induction hs as [|h hs IH]; intros i row k; simpl.
  - split; [reflexivity|]. intros j Hj. inversion Hj.
  - destruct (IH (S i) (<[h := match cells !! i with
                                | Some txt => clean_text (Some txt)
                                | None => None
                                end]> row) k) as [IH1 IH2].
    split.
    + intros Hk. apply not_elem_of_cons in Hk as [Hne Hk].
      rewrite (IH1 Hk). now apply lookup_insert_ne.
    + intros [|j] Hj Hlast.
      * injection Hj as ->. rewrite IH1.
        -- now rewrite lookup_insert_eq, Nat.add_0_r.
        -- intros Hin. apply list_elem_of_lookup in Hin as [j' Hj'].
           apply (Hlast (S j')); [lia|exact Hj'].
      * rewrite (IH2 j Hj).
        -- now rewrite Nat.add_succ_r.
        -- intros j' Hlt. apply (Hlast (S j')). lia.
Qed.

(** X16. The map of a table row: a header that does not occur has no entry;
    a header has the cleaned text of the cell in its column, or [None] where
    the row has no such cell; of a header that occurs more than once the
    last column counts; cells beyond the headers are dropped. *)
Theorem row_to_map_lookup (headers cells : list string) :
  let row := _row_to_map headers cells in
  (forall k, k ∉ headers -> row !! k = None) /\
  (forall i k, headers !! i = Some k ->
     (forall j, (i < j)%nat -> headers !! j <> Some k) ->
     row !! k = Some (match cells !! i with
                      | Some txt => clean_text (Some txt)
                      | None => None
                      end)) /\
  dom row = list_to_set headers.
Proof.
  intros row. subst row. unfold _row_to_map. split; [|split].
  - intros k Hk.
    destruct (row_fill_lookup cells headers 0 ∅ k) as [H1 _].
    now rewrite (H1 Hk), lookup_empty.
  - intros i k Hi Hlast.
    destruct (row_fill_lookup cells headers 0 ∅ k) as [_ H2].
    exact (H2 i Hi Hlast).
  - apply set_eq. intros k. rewrite elem_of_dom, elem_of_list_to_set.
    destruct (decide (k ∈ headers)) as [Hin|Hout].
    + split; [auto|]. intros _.
      assert (Hl : exists i, headers !! i = Some k /\
                   forall j, (i < j)%nat -> headers !! j <> Some k).
      { clear -Hin. induction headers as [|h hs IH]; [inversion Hin|].
        destruct (decide (k ∈ hs)) as [Hk|Hk].
        - destruct (IH Hk) as (i & Hi & Hl). exists (S i). split; [exact Hi|].
          intros [|j] Hlt; [lia|]. apply Hl. lia.
        - apply elem_of_cons in Hin as [->|Hin]; [|contradiction].
          exists 0%nat. split; [reflexivity|].
          intros [|j] Hlt; [lia|]. simpl. intros Hj. apply Hk.
          apply list_elem_of_lookup. eauto. }
      destruct Hl as (i & Hi & Hl).
      destruct (row_fill_lookup cells headers 0 ∅ k) as [_ H2].
      rewrite (H2 i Hi Hl). eauto.
    + destruct (row_fill_lookup cells headers 0 ∅ k) as [H1 _].
      rewrite (H1 Hout), lookup_empty. split; [intros [x Hx]; discriminate|].
      contradiction.
Qed.

End RowMapProofs.

(** ** The upcoming card *)
Section UpcomingProofs.
Import PyStr EhHelper OverviewParser.
Variable pf : platform.

Lemma est_slot_marked (val : string) :
  let parsed :=
    if is_empty val then EstAct empty_slot empty_slot
    else parse_est_act [val] in
  (is_est (_parse_one_value (Some val)) = Some true /\
   est parsed = slot_of (_parse_one_value (Some val))) \/
  est parsed = empty_slot.
Proof.
  cbv zeta. destruct (is_empty val); [now right|].
  unfold parse_est_act. cbn [firstn]. cbv zeta.
  destruct (is_est (_parse_one_value (Some val))) as [[|]|] eqn:E;
    cbn [is_true est]; [left; now split|now right..].
Qed.

Lemma set_estimate_sourced (cs : list container) (c : container)
    (labels values : list string) (data : upcoming) (lv : string * string) :
  c ∈ cs -> est_block c = Some (labels, values) ->
  lv ∈ zip labels values ->
  sourced cs data -> sourced cs (set_estimate data lv).
Proof.
  intros Hc Hb Hin [Hrev Heps]. destruct lv as [lab val].
  unfold set_estimate.
  pose proof (est_slot_marked val) as Hm. cbv zeta in Hm.
  destruct (String.eqb lab "REVENUE") eqn:Er;
    [|destruct (String.eqb lab "EPS") eqn:Ee; [|now split]].
  - apply String.eqb_eq in Er. subst lab. split; [|exact Heps].
    cbn [u_rev_est u_rev_unit].
    destruct Hm as [[Hest E] | E]; rewrite E; intros x Hx;
      [|destruct Hx as [Hx|Hx]; discriminate Hx].
    exists val. split; [|now split].
    exists c, labels, values. auto.
  - apply String.eqb_eq in Ee. subst lab. split; [exact Hrev|].
    cbn [u_eps_est].
    destruct Hm as [[Hest E] | E]; rewrite E; intros x Hx; [|discriminate Hx].
    exists val. split; [|reflexivity].
    exists c, labels, values. auto.
Qed.

Lemma fold_estimates_sourced (cs : list container) (c : container)
    (labels values : list string) (l : list (string * string))
    (data : upcoming) :
  c ∈ cs -> est_block c = Some (labels, values) ->
  (forall lv, lv ∈ l -> lv ∈ zip labels values) ->
  sourced cs data -> sourced cs (fold_left set_estimate l data).
Proof.
  intros Hc Hb. revert data.
  induction l as [|lv l IH]; intros data Hall H1; [exact H1|].
  simpl. apply IH.
  - intros lv' Hlv'. apply Hall. now right.
  - apply (set_estimate_sourced cs c labels values); auto.
    apply Hall. now left.
Qed.

Lemma upcoming_step_sourced (cs : list container) (c : container)
    (data : upcoming) :
  c ∈ cs -> sourced cs data -> sourced cs (upcoming_step pf c data).
Proof.
  intros Hc Hs. unfold upcoming_step.
  set (data1 := match date_block c with
                | Some (Some q, Some dt) => _
                | _ => data
                end).
  assert (H1 : sourced cs data1).
  { subst data1. destruct (date_block c) as [[[q|] [dt|]]|]; try exact Hs.
    destruct (parse_date_time pf (Some dt)) as [d t]. exact Hs. }
  clearbody data1. destruct (est_block c) as [[labels values]|] eqn:Eb;
    [|exact H1].
  apply (fold_estimates_sourced cs c labels values); auto.
Qed.

Lemma parse_upcoming_go_sourced (cs0 cs : list container) (data : upcoming) :
  (forall c, c ∈ cs -> c ∈ cs0) -> sourced cs0 data ->
  sourced cs0 (parse_upcoming_go pf cs data).
Proof.
  revert data. induction cs as [|c cs IH]; intros data Hsub Hs; [exact Hs|].
  simpl.
  assert (H1 : sourced cs0 (upcoming_step pf c data)).
  { apply upcoming_step_sourced; [apply Hsub; now left|exact Hs]. }
  destruct (_ || _); [exact H1|].
  apply IH; [|exact H1]. intros c' Hc'. apply Hsub. now right.
Qed.

(** X17. The upcoming card reports an estimate only for a value text that
    carries the estimate marker: a revenue or EPS estimate in the result is
    the number of such a value under that label, and the revenue unit comes
    with it; a card whose figures are plain has no estimate at all. *)
Theorem upcoming_estimates_need_marker (ticker : option string)
    (cs : list container) :
  (forall c labels values v,
     c ∈ cs -> est_block c = Some (labels, values) -> v ∈ values ->
     ReSpec.ascii_only v = true) ->
  let r := parse_upcoming pf ticker cs in
  (forall x, u_rev_est r = Some x \/ u_rev_unit r = Some x ->
     exists val, marked_value cs "REVENUE" val /\
       u_rev_est r = value (_parse_one_value (Some val)) /\
       u_rev_unit r = unit_ (_parse_one_value (Some val))) /\
  (forall x, u_eps_est r = Some x ->
     exists val, marked_value cs "EPS" val /\
       u_eps_est r = value (_parse_one_value (Some val))) /\
  ((forall lab val, ~ marked_value cs lab val) ->
     u_rev_est r = None /\ u_rev_unit r = None /\ u_eps_est r = None).
Proof.
  intros _ r.
  assert (Hs : sourced cs r).
  { apply parse_upcoming_go_sourced; [auto|].
    split; cbn; [intros x [H|H]; discriminate|intros x H; discriminate]. }
  destruct Hs as [Hrev Heps]. split; [exact Hrev|]. split; [exact Heps|].
  intros Hnone. repeat split.
  - destruct (u_rev_est r) as [x|] eqn:E; [|reflexivity].
    destruct (Hrev x (or_introl eq_refl)) as (val & Hm & _).
    destruct (Hnone _ _ Hm).
  - destruct (u_rev_unit r) as [x|] eqn:E; [|reflexivity].
    destruct (Hrev x (or_intror eq_refl)) as (val & Hm & _).
    destruct (Hnone _ _ Hm).
  - destruct (u_eps_est r) as [x|] eqn:E; [|reflexivity].
    destruct (Heps x eq_refl) as (val & Hm & _).
    destruct (Hnone _ _ Hm).
Qed.

End UpcomingProofs.

(** ** Forced refresh *)
Section RefreshProofs.
Import PyStr Scraper ScraperSpec RunPipeline.
Variable br : browser.
Variable cache_dir : string.
Variable writable : string -> bool.
Variable removable : string -> bool.

Local Abbreviation path := (_friendly_path cache_dir).










End RefreshProofs.

(** ** The theorems at sample inputs *)

Lemma upsert_idempotent_actions_witness :
  Crud.rows Samples.empty_db !! Crud.key_of (Samples.q2 157) = None /\
  let d1 := (Crud.upsert_earnings_row (Samples.q2 157) Samples.empty_db).2 in
  Crud.act (Crud.upsert_earnings_row (Samples.q2 157) Samples.empty_db).1
    = Crud.inserted /\
  Crud.act (Crud.upsert_earnings_row (Samples.q2 157) d1).1 = Crud.unchanged /\
  Crud.act (Crud.upsert_earnings_row (Samples.q2 158) d1).1 = Crud.updated.
Proof.
  assert (Hk : Crud.rows Samples.empty_db !! Crud.key_of (Samples.q2 157) = None)
    by (vm_compute; reflexivity).
  split; [exact Hk|].
  destruct (upsert_idempotent_actions (Samples.q2 157) Samples.empty_db Hk)
    as (H1 & H2 & H3 & _ & H5 & _).
  cbv zeta. split; [exact H1|]. split; [exact H2|].
  rewrite <- H3 at 1. apply H5; [reflexivity|].
  vm_compute. discriminate.
Defined.

Lemma full_cache_short_circuit_witness :
  exists r,
    Scraper.fetch_variants Samples.browser_ok Samples.cache_dir Samples.disk_ok
      Samples.aapl_url ["full"] (Some "AAPL") Samples.full_cache
    = (Scraper.Ok r, Samples.full_cache, []).
Proof.
  destruct (full_cache_short_circuit Samples.browser_ok Samples.cache_dir
              Samples.disk_ok Samples.aapl_url ["full"] "AAPL" Samples.full_cache)
    as [Hhit _].
  - apply list_elem_of_here.
  - repeat constructor.
  - discriminate.
  - destruct Hhit as (r & Hr & _).
    + repeat split; vm_compute; eexists; reflexivity.
    + exists r. exact Hr.
Defined.

Lemma lone_cell_is_actual_witness :
  HistoryParser._transform_row Samples.no_floats EhHelper.Glibc "AAPL"
    Samples.est_only_row = Some Samples.est_only_record /\
  HistoryParser.rev_est Samples.est_only_record = "" /\
  HistoryParser.rev_act Samples.est_only_record = "12.3".
Proof.
  assert (Hr : HistoryParser._transform_row Samples.no_floats EhHelper.Glibc
                 "AAPL" Samples.est_only_row = Some Samples.est_only_record)
    by (vm_compute; reflexivity).
  split; [exact Hr|].
  destruct (lone_cell_is_actual Samples.no_floats EhHelper.Glibc "AAPL"
              Samples.est_only_row Samples.est_only_record "12.3B" Hr)
    as [Hrev _]; [vm_compute; reflexivity|].
  destruct Hrev as (He & _ & Ha & _).
  - split; [vm_compute; reflexivity|]. left. split; vm_compute; reflexivity.
  - split; [exact He|]. rewrite Ha. vm_compute. reflexivity.
Defined.

Lemma not_found_is_never_cached_witness :
  let run := Scraper.fetch_variants Samples.browser_no_analyst Samples.cache_dir
               Samples.disk_no_analyst Samples.aapl_url ["full"] (Some "AAPL") ∅ in
  run.1.2 !! "data/html_cache/AAPL_analyst.html" = None /\
  ("data/html_cache/AAPL_analyst.html" ∉ Scraper.written run.2) /\
  (exists r, run.1.1 = Scraper.Ok r) /\
  Scraper.navs run.2 =
    [Samples.aapl_url; Scraper.analysts_url Samples.aapl_url;
     Scraper.earnings_url Samples.aapl_url].
Proof.
  intros run.
  destruct (not_found_is_never_cached Samples.browser_no_analyst
              Samples.cache_dir Samples.disk_no_analyst Samples.aapl_url
              ["full"] (Some "AAPL") ∅)
    as [Hskip Hrun].
  destruct (Hskip Scraper.VARIANT_ANALYST (Scraper.analysts_url Samples.aapl_url))
    as [Hfile Hwrite].
  - apply list_elem_of_further, list_elem_of_here.
  - vm_compute. reflexivity.
  - destruct Hrun as [_ Hrun].
    + discriminate.
    + repeat constructor.
    + discriminate.
    + reflexivity.
    + reflexivity.
    + destruct Hrun as (r & Hok & Hnav).
      * intros v u Hs Hf. unfold Scraper.steps in Hs.
        repeat (apply elem_of_cons in Hs as [Hs|Hs]); [..|inversion Hs];
          injection Hs as -> ->;
          first [vm_compute; reflexivity|vm_compute in Hf; discriminate].
      * split; [exact Hfile|]. split; [exact Hwrite|].
        split; [exists r; exact Hok|]. exact Hnav.
Defined.

(** The ticker [brk/b] names a file in a directory that was never
    created: the first page found cannot be written, the session is
    closed and the error reaches the caller. *)
Example slash_ticker_write_fails :
  Scraper.fetch_variants Samples.browser_ok Samples.cache_dir Samples.disk_flat
    "https://www.earningshub.com/quote/brk/b" ["overview"] (Some "brk/b") ∅
  = (Scraper.Raise Scraper.OSError, ∅,
     [Scraper.OpenSession;
      Scraper.Navigate "https://www.earningshub.com/quote/brk/b";
      Scraper.CloseSession]).
Proof. vm_compute. reflexivity. Qed.

Lemma discard_rule_witness :
  HistoryParser.parse_tr Samples.no_floats EhHelper.Glibc "AAPL"
    ["quarter"; "date"; "rev_act"] ["--"; ""; "N/A"] = [] /\
  Samples.history_row_of "Q2 2025" "07/31/2025" "13" "B"
    ∈ HistoryParser.parse_rows Samples.no_floats EhHelper.Glibc "AAPL"
        (Some Samples.history_table).
Proof.
  destruct (discard_rule Samples.no_floats EhHelper.Glibc "AAPL")
    as (_ & Hdrop & _ & Hkeep & _).
  split.
  - apply Hdrop. repeat constructor; vm_compute; reflexivity.
  - destruct (Hkeep Samples.history_table ["Q2 2025"; "Jul 31, 2025"; "13B"])
      as (r & Hr & Hin).
    + simpl. in_list.
    + intros HF. apply Forall_cons in HF as [HA _].
      vm_compute in HA. discriminate.
    + vm_compute in Hr. injection Hr as <-. exact Hin.
Defined.

Lemma parse_earnings_keeps_first_witness :
  Controller.parse_earnings Samples.no_floats EhHelper.Glibc
    (Some Samples.history_table) "AAPL"
  = [Samples.history_row_of "Q1 2025" "04/30/2025" "12.3" "B";
     Samples.history_row_of "Q2 2025" "07/31/2025" "13" "B"] /\
  NoDup (Controller.dedup_key <$>
           Controller.parse_earnings Samples.no_floats EhHelper.Glibc
             (Some Samples.history_table) "AAPL").
Proof.
  split; [vm_compute; reflexivity|].
  apply (parse_earnings_keeps_first Samples.no_floats EhHelper.Glibc
           (Some Samples.history_table) "AAPL").
Defined.

Lemma parse_est_act_spec_witness :
  EhHelper.parse_est_act ["3.1 est"]
  = EhHelper.EstAct (EhHelper.Slot (Some "3.1") None) (EhHelper.Slot None None) /\
  EhHelper.parse_est_act ["$5.2B"; "4.9B est"]
  = EhHelper.EstAct (EhHelper.Slot (Some "4.9") (Some "B"))
                    (EhHelper.Slot (Some "5.2") (Some "B")).
Proof.
  destruct parse_est_act_spec as (_ & Hone & Htwo). split.
  - pose proof (Hone "3.1 est") as H1. cbv zeta in H1. destruct H1 as [H1 _].
    rewrite H1; vm_compute; reflexivity.
  - pose proof (Htwo "$5.2B" "4.9B est" []) as H2. cbv zeta in H2.
    destruct H2 as (_ & Hperm & _ & _ & Hb & _).
    assert (Hest : EhHelper.est (EhHelper.parse_est_act ["$5.2B"; "4.9B est"])
                   = EhHelper.slot_of (EhHelper._parse_one_value (Some "4.9B est"))).
    { apply Hb; vm_compute; [reflexivity|discriminate]. }
    destruct Hperm as [E|E]; rewrite E in Hest |- *.
    + vm_compute in Hest. discriminate.
    + vm_compute. reflexivity.
Defined.

Lemma determine_status_spec_witness :
  EhHelper.determine_status Samples.no_floats None
    (Some (EhHelper.PyFloat (EhHelper.float_of 3 0)))
    (Some (EhHelper.PyFloat (EhHelper.float_of 7 0))) = Some "Miss".
Proof.
  destruct (determine_status_spec Samples.no_floats None
              (Some (EhHelper.PyFloat (EhHelper.float_of 3 0)))
              (Some (EhHelper.PyFloat (EhHelper.float_of 7 0))))
    as (_ & H & _).
  apply (H _ _ _ _ eq_refl eq_refl eq_refl eq_refl eq_refl).
  vm_compute. reflexivity.
Defined.

Lemma overview_cache_short_circuit_witness :
  Scraper.fetch_variants Samples.browser_ok Samples.cache_dir Samples.disk_ok Samples.aapl_url
    ["overview"; "overview"] (Some "AAPL") Samples.full_cache
  = (Scraper.Ok (<["analyst" := "data/html_cache/AAPL_analyst.html"]>
                   (<["overview" := "data/html_cache/AAPL_overview.html"]> ∅)),
     Samples.full_cache, []).
Proof.
  apply (overview_cache_short_circuit Samples.browser_ok Samples.cache_dir
           Samples.disk_ok Samples.aapl_url ["overview"; "overview"] "AAPL" Samples.full_cache).
  - discriminate.
  - repeat constructor.
  - discriminate.
  - split; vm_compute; eexists; reflexivity.
Defined.

Lemma full_result_names_three_paths_witness :
  let run := Scraper.fetch_variants Samples.browser_no_analyst Samples.cache_dir
               Samples.disk_no_analyst Samples.aapl_url ["full"] (Some "AAPL") ∅ in
  exists r, run.1.1 = Scraper.Ok r /\
    r !! "analyst" = Some "data/html_cache/AAPL_analyst.html" /\
    run.1.2 !! "data/html_cache/AAPL_analyst.html" = None.
Proof.
  intros run.
  assert (Hr : exists r, run.1.1 = Scraper.Ok r)
    by (vm_compute; eexists; reflexivity).
  destruct Hr as [r Hr]. exists r. split; [exact Hr|].
  rewrite (full_result_names_three_paths Samples.browser_no_analyst
             Samples.cache_dir Samples.disk_no_analyst Samples.aapl_url ["full"] (Some "AAPL") ∅ r
             (list_elem_of_here _ _) Hr).
  split; vm_compute; reflexivity.
Defined.

Lemma overview_result_lists_new_documents_witness :
  let run := Scraper.fetch_variants Samples.browser_ok Samples.cache_dir
               Samples.disk_ok Samples.aapl_url ["overview"] (Some "AAPL")
               MoreSamples.overview_cache in
  exists r, run.1.1 = Scraper.Ok r /\
    r !! "overview" = None /\
    r !! "analyst" = Some "data/html_cache/AAPL_analyst.html".
Proof.
  intros run.
  assert (Hr : exists r, run.1.1 = Scraper.Ok r)
    by (vm_compute; eexists; reflexivity).
  destruct Hr as [r Hr]. exists r. split; [exact Hr|].
  destruct (overview_result_lists_new_documents Samples.browser_ok
              Samples.cache_dir Samples.disk_ok Samples.aapl_url ["overview"] (Some "AAPL")
              MoreSamples.overview_cache r) as [Hlist Hold].
  - intros Hin. apply elem_of_cons in Hin as [Hin|Hin]; [discriminate|].
    inversion Hin.
  - exact Hr.
  - vm_compute. discriminate.
  - split.
    + apply Hold. vm_compute. eexists. reflexivity.
    + apply Hlist. split; [|split].
      * apply list_elem_of_further, list_elem_of_here.
      * vm_compute. reflexivity.
      * vm_compute. apply list_elem_of_here.
Defined.

Lemma parse_one_value_shape_witness :
  exists v, EhHelper.value (EhHelper._parse_one_value (Some "$5.2B")) = Some v /\
            ReSpec.number_text v = true.
Proof.
  destruct (parse_one_value_shape (Some "$5.2B")) as [_ H].
  - intros s [= <-]. vm_compute. reflexivity.
  - destruct (H "B") as [_ Hv]; [vm_compute; reflexivity|]. exact Hv.
Defined.

Lemma parse_indicator_shape_witness :
  EhHelperMore.parse_indicator (Some "Last 03 months") = Some "3 Months" /\
  exists k, (k < 100)%nat /\ "3 Months" = PyStr.show_nat k +:+ " Months".
Proof.
  assert (H : EhHelperMore.parse_indicator (Some "Last 03 months")
              = Some "3 Months") by (vm_compute; reflexivity).
  split; [exact H|].
  apply (parse_indicator_shape (Some "Last 03 months") "3 Months");
    [|exact H].
  intros s [= <-]. vm_compute. reflexivity.
Defined.

Lemma clean_text_normal_form_witness :
  EhHelper.clean_text (Some "  Q1   2025 ") = Some "Q1 2025" /\
  EhHelper.clean_text (Some "Q1 2025") = Some "Q1 2025".
Proof.
  assert (H : EhHelper.clean_text (Some "  Q1   2025 ") = Some "Q1 2025")
    by (vm_compute; reflexivity).
  split; [exact H|].
  apply (clean_text_normal_form "  Q1   2025 " "Q1 2025");
    [vm_compute; reflexivity|exact H|discriminate].
Defined.

Lemma normalize_header_alphabet_witness :
  HistoryParser._normalize_header " Rev. Est. " = "rev_est" /\
  ReSpec.all_s TextSpec.key_char (HistoryParser._normalize_header " Rev. Est. ")
    = true.
Proof.
  split; [vm_compute; reflexivity|].
  apply normalize_header_alphabet. vm_compute. reflexivity.
Defined.

Lemma to_date_reads_three_layouts_witness :
  CrudCsv._to_date (Some "2025-07-04") = Some (2025, 7, 4)%nat /\
  CrudCsv._to_date (Some "07/04/2025") = Some (2025, 7, 4)%nat /\
  CrudCsv._to_date (Some "04/07/2025") = Some (2025, 4, 7)%nat.
Proof.
  apply (to_date_reads_three_layouts 2025 7 4). vm_compute. reflexivity.
Defined.

Lemma parsed_date_is_read_back_witness :
  exists s,
    (EhHelper.parse_date_time EhHelper.Glibc (Some "Jul 31, 2025 Est")).1
    = Some s /\
    CrudCsv._to_date (Some s) = Some (2025, 7, 31)%nat.
Proof.
  apply (parsed_date_is_read_back EhHelper.Glibc (Some "Jul 31, 2025 Est")
           (EhHelper.DateTime 2025 7 31 0 0)).
  - vm_compute. reflexivity.
  - right. split; vm_compute; reflexivity.
  - intros _. simpl. lia.
Defined.

(** The card of the sample: the marked revenue figure is reported, the
    plain EPS figure is not. *)
Example upcoming_card_parsed :
  OverviewParser.parse_upcoming EhHelper.Glibc (Some "AAPL")
    LaterSamples.upcoming_card
  = OverviewParser.Upcoming (Some "AAPL") (Some "Q3 2025") (Some "10/30/2025")
      None (Some "94.5") (Some "B") None.
Proof. vm_compute. reflexivity. Qed.

Lemma upcoming_estimates_need_marker_witness :
  let r := OverviewParser.parse_upcoming EhHelper.Glibc (Some "AAPL")
             LaterSamples.upcoming_card in
  OverviewParser.u_rev_est r = Some "94.5" /\
  OverviewParser.u_eps_est r = None.
Proof.
  intros r.
  destruct (upcoming_estimates_need_marker EhHelper.Glibc (Some "AAPL")
              LaterSamples.upcoming_card) as (_ & Heps & _).
  - intros c labels values v Hc Hb Hv.
    apply list_elem_of_singleton in Hc. subst c. injection Hb as <- <-.
    repeat (apply elem_of_cons in Hv as [->|Hv]); [reflexivity..|inversion Hv].
  - split; [vm_compute; reflexivity|]. fold r in Heps.
    destruct (OverviewParser.u_eps_est r) as [x|] eqn:E; [|reflexivity].
    destruct (Heps x eq_refl) as (val & (c & labels & values & Hc & Hb & Hin & Hest) & _).
    apply list_elem_of_singleton in Hc. subst c. injection Hb as <- <-.
    simpl in Hin.
    repeat (apply elem_of_cons in Hin as [Hin|Hin]); [..|inversion Hin].
    + discriminate Hin.
    + injection Hin as ->. vm_compute in Hest. discriminate Hest.
Defined.

